(** * Track point consolidation for PhoneTrack GPX exports

    A shallow embedding of the consolidation engine of the repository
    (auto_merge_timelines.py, phonetrack_timeline_updater.py, merge_gpx.py,
    merge_daily_exports.py) together with the properties its specification
    states about it.

    Conventions.
    - A Python [str] is a list of Unicode code points ([list N]).
    - A Python exception is an explicit [None] / [Raised] result.
    - [print] and [logger] calls are collected in a list of messages.
    - Of the library, [datetime.fromisoformat] and [isoformat] follow
      CPython 3.11 and [\d] is the general category Nd of Unicode 14.0;
      ElementTree, unicodedata and [str.lower] are modelled on the inputs
      described next to each definition. *)

From Stdlib Require Import ZArith Lia Ascii String.
From stdpp Require Import base option list gmap strings sorting.

Open Scope Z_scope.

(** ** Python strings *)

Abbreviation str := (list N).

(** An ASCII literal as a Python string. *)
Definition lit (s : string) : str :=
  Ascii.N_of_ascii <$> String.list_ascii_of_string s.

(** [old in s] for a one-character [old]. *)
Definition contains_char (old : N) (s : str) : bool :=
  existsb (N.eqb old) s.

(** [s.replace(old, new)] for a one-character [old]: every occurrence is
    replaced. *)
Definition replace_char (old : N) (new : str) (s : str) : str :=
  flat_map (fun c => if N.eqb c old then new else [c]) s.

Definition chr_Z : N := 90%N.
Definition chr_underscore : N := 95%N.
Definition chr_newline : N := 10%N.
Definition chr_colon : N := 58%N.
Definition chr_dash : N := 45%N.
Definition chr_plus : N := 43%N.
Definition chr_dot : N := 46%N.
Definition chr_T : N := 84%N.

(** ** datetime

    The fields of a [datetime.datetime]; [tzinfo] is the UTC offset of an
    aware value in microseconds (a [timezone] holds a [timedelta]) and [None]
    for a naive value. *)

Record datetime := mkdatetime {
  year : Z; month : Z; day : Z;
  hour : Z; minute : Z; second : Z; microsecond : Z;
  tzinfo : option Z
}.

#[global] Instance datetime_eq_dec : EqDecision datetime.
Proof. solve_decision. Defined.

Definition is_leap (y : Z) : bool :=
  (y mod 4 =? 0) && (negb (y mod 100 =? 0) || (y mod 400 =? 0)).

Definition days_in_month (y m : Z) : Z :=
  if m =? 2 then (if is_leap y then 29 else 28)
  else if (m =? 4) || (m =? 6) || (m =? 9) || (m =? 11) then 30
  else 31.

Definition days_before_year (y : Z) : Z :=
  let p := y - 1 in p * 365 + p / 4 - p / 100 + p / 400.

Definition days_before_month (y m : Z) : Z :=
  fold_right Z.add 0 (map (days_in_month y) (map Z.of_nat (seq 1 (Z.to_nat (m - 1))))).

(** [ymd_to_ord], and [date.toordinal()]. *)
Definition ymd_to_ord (y m d : Z) : Z :=
  days_before_year y + days_before_month y m + d.

Definition toordinal (d : datetime) : Z := ymd_to_ord (year d) (month d) (day d).

(** Microseconds of the wall-clock fields since the start of the proleptic
    calendar. Naive values are ordered by this number. *)
Definition wall_micros (d : datetime) : Z :=
  (((toordinal d * 24 + hour d) * 60 + minute d) * 60 + second d) * 1000000
  + microsecond d.

(** The absolute instant of a value: the wall clock minus the UTC offset.
    Aware values are ordered by this number. *)
Definition instant (d : datetime) : Z :=
  wall_micros d - default 0 (tzinfo d).

Definition aware (d : datetime) : bool :=
  match tzinfo d with Some _ => true | None => false end.

(** [a < b] on datetimes. Comparing a naive with an aware value raises
    TypeError, which is [None]. *)
Definition dt_lt (a b : datetime) : option bool :=
  match tzinfo a, tzinfo b with
  | Some _, Some _ | None, None => Some (instant a <? instant b)
  | _, _ => None
  end.

(** *** Text form *)

Definition digit_val (c : N) : option Z :=
  if ((48 <=? c) && (c <=? 57))%N then Some (Z.of_N c - 48) else None.

Definition digit_chr (n : Z) : N := Z.to_N (48 + n mod 10).

Definition fmt2 (n : Z) : str := [digit_chr (n / 10); digit_chr n].
Definition fmt4 (n : Z) : str := fmt2 (n / 100) ++ fmt2 n.
Definition fmt6 (n : Z) : str := fmt2 (n / 10000) ++ fmt2 (n / 100) ++ fmt2 n.

(** *** datetime.fromisoformat

    The function of CPython 3.11 (the C implementation, which works on the
    UTF-8 encoding of the text): a date [YYYY-MM-DD], [YYYYMMDD], [YYYY-Www],
    [YYYY-Www-D], [YYYYWww] or [YYYYWwwD]; then nothing, or one separator
    character and a time [HH], [HH:MM], [HH:MM:SS], [HHMM] or [HHMMSS] with
    an optional fraction and an optional offset ([Z], or a sign and a time).
    ValueError is [None]. *)

Definition chr_comma : N := 44%N.
Definition chr_W : N := 87%N.

(** The UTF-8 bytes of a code point. *)
Definition utf8 (c : N) : list N :=
  (if c <? 128 then [c]
   else if c <? 2048 then [192 + c / 64; 128 + c mod 64]
   else if c <? 65536 then [224 + c / 4096; 128 + (c / 64) mod 64; 128 + c mod 64]
   else [240 + c / 262144; 128 + (c / 4096) mod 64; 128 + (c / 64) mod 64;
         128 + c mod 64])%N.

Definition is_surrogate (c : N) : bool := ((55296 <=? c) && (c <=? 57343))%N.

(** [_sanitize_isoformat_str]: a surrogate in the first of the places 7, 8
    and 10 that holds one is replaced by [T]. *)
Fixpoint sanitize_isoformat_str (positions : list nat) (dtstr : str) : str :=
  match positions with
  | [] => dtstr
  | pos :: rest =>
      match dtstr !! pos with
      | None => dtstr
      | Some c =>
          if is_surrogate c then <[pos := chr_T]> dtstr
          else sanitize_isoformat_str rest dtstr
      end
  end.

(** [dtstr[i]] in the buffer, which ends with a NUL. *)
Definition byte_at (dtstr : list N) (i : nat) : N := default 0%N (dtstr !! i).

(** [*p]: the first byte, or [next] when [p] stands at the end. *)
Definition peek (p : list N) (next : N) : N := default next (head p).

Definition is_ascii_digit (c : N) : bool := ((48 <=? c) && (c <=? 57))%N.

Fixpoint count_digits (p : list N) : nat :=
  match p with
  | c :: r => if is_ascii_digit c then S (count_digits r) else 0
  | [] => 0
  end.

(** [_find_isoformat_datetime_separator]: the place of the separator, [None]
    for the return value -1. *)
Definition find_isoformat_datetime_separator (dtstr : list N) : option nat :=
  let len := length dtstr in
  if (len =? 7)%nat then Some 7%nat
  else if N.eqb (byte_at dtstr 4) chr_dash then
    if N.eqb (byte_at dtstr 5) chr_W then
      if (len <? 8)%nat then None
      else if (8 <? len)%nat && N.eqb (byte_at dtstr 8) chr_dash then
        if (len =? 9)%nat then None
        else if (10 <? len)%nat && is_ascii_digit (byte_at dtstr 10) then Some 8%nat
        else Some 10%nat
      else Some 8%nat
    else Some 10%nat
  else if N.eqb (byte_at dtstr 4) chr_W then
    let idx := (7 + count_digits (drop 7 dtstr))%nat in
    if (idx <? 9)%nat then Some idx
    else if Nat.even idx then Some 7%nat
    else Some 8%nat
  else Some 8%nat.

(** [parse_digits(p, &var, num_digits)] with [var] starting at [acc]: the
    value and the pointer after the digits. *)
Fixpoint parse_digits (num_digits : nat) (p : list N) (acc : Z)
  : option (Z * list N) :=
  match num_digits with
  | O => Some (acc, p)
  | S n =>
      match p with
      | c :: r => d ← digit_val c; parse_digits n r (acc * 10 + d)
      | [] => None
      end
  end.

(** [ord_to_ymd] for an ordinal of year 1 or later. *)
Definition ord_to_ymd (ordinal : Z) : Z * Z * Z :=
  let n := ordinal - 1 in
  let n400 := n / 146097 in
  let n := n mod 146097 in
  let n100 := n / 36524 in
  let n := n mod 36524 in
  let n4 := n / 1461 in
  let n := n mod 1461 in
  let n1 := n / 365 in
  let n := n mod 365 in
  let y := n400 * 400 + 1 + n100 * 100 + n4 * 4 + n1 in
  if (n1 =? 4) || (n100 =? 4) then (y - 1, 12, 31)
  else
    let m := (n + 50) / 32 in
    let preceding := days_before_month y m in
    if n <? preceding
    then (y, m - 1, n - (preceding - days_in_month y (m - 1)) + 1)
    else (y, m, n - preceding + 1).

(** [iso_to_ymd]. For the ISO year 0 every ordinal is below 1, where the C
    code arrives at a month below 1, which the constructor rejects. *)
Definition iso_to_ymd (iso_year iso_week iso_day : Z) : option (Z * Z * Z) :=
  let first_day := ymd_to_ord iso_year 1 1 in
  let first_weekday := (first_day + 6) mod 7 in
  if iso_year <? 1 then None
  else if ((iso_week <=? 0) || (53 <=? iso_week))
          && negb ((iso_week =? 53)
                   && ((first_weekday =? 3)
                       || ((first_weekday =? 2) && is_leap iso_year)))
  then None
  else if (iso_day <=? 0) || (8 <=? iso_day) then None
  else
    let week1_monday :=
      first_day - first_weekday + (if 3 <? first_weekday then 7 else 0) in
    Some (ord_to_ymd (week1_monday + (iso_week - 1) * 7 + iso_day - 1)).

(** [if (uses_separator && *(p++) != '-') return -2]. *)
Definition skip_date_separator (uses_separator : bool) (p : list N)
  : option (list N) :=
  if uses_separator
  then (if N.eqb (peek p 0) chr_dash then Some (tail p) else None)
  else Some p.

(** [parse_isoformat_date(dtstr, len, ...)] with [len] the place of the
    separator. *)
Definition parse_isoformat_date (dtstr : list N) (len : nat) : option (Z * Z * Z) :=
  '(y, p) ← parse_digits 4 dtstr 0;
  let uses_separator := N.eqb (peek p 0) chr_dash in
  let p := if uses_separator then tail p else p in
  if N.eqb (peek p 0) chr_W then
    '(iso_week, p) ← parse_digits 2 (tail p) 0;
    if (length dtstr - length p <? len)%nat then
      p ← skip_date_separator uses_separator p;
      '(iso_day, _) ← parse_digits 1 p 0;
      iso_to_ymd y iso_week iso_day
    else iso_to_ymd y iso_week 1
  else
    '(m, p) ← parse_digits 2 p 0;
    p ← skip_date_separator uses_separator p;
    '(d, _) ← parse_digits 2 p 0;
    Some (y, m, d).

(** The fraction in [parse_hh_mm_ss_ff]: up to six digits are read and the
    further digits skipped; the second component is the return value, 1
    when the text does not end there. *)
Definition parse_fraction (p : list N) (next : N) : option (Z * bool) :=
  let to_parse := Nat.min (length p) 6 in
  '(us, p) ← parse_digits to_parse p 0;
  let us := us * 10 ^ Z.of_nat (6 - to_parse) in
  Some (us, negb (N.eqb (peek (drop (count_digits p) p) next) 0)).

(** What follows two digits in [parse_hh_mm_ss_ff]: [c = *(p++)] and the
    tests on [c]. *)
Inductive after_digits :=
| Malformed_separator
| Finished (rv : bool)
| Fraction (p : list N)
| Next_field (p : list N).

Definition after_two_digits (has_separator : bool) (p : list N) (next : N)
  : after_digits :=
  match p with
  | [] => Finished (negb (N.eqb next 0))
  | [c] => Finished (negb (N.eqb c 0))
  | c :: p' =>
      if has_separator && N.eqb c chr_colon then Next_field p'
      else if N.eqb c chr_dot || N.eqb c chr_comma then Fraction p'
      else if negb has_separator then Next_field p
      else Malformed_separator
  end.

(** The fields of a time with the return value 0 or 1. *)
Record hh_mm_ss_ff := mkTime {
  t_hour : Z; t_minute : Z; t_second : Z; t_microsecond : Z; t_rv : bool
}.

(** [parse_hh_mm_ss_ff(tstr, tstr_end, ...)] on the bytes up to [tstr_end];
    [next] is the byte at [tstr_end]. *)
Definition parse_hh_mm_ss_ff (tstr : list N) (next : N) : option hh_mm_ss_ff :=
  let with_fraction h m s p :=
    '(us, rv) ← parse_fraction p next; Some (mkTime h m s us rv) in
  '(h, p) ← parse_digits 2 tstr 0;
  let has_separator := N.eqb (peek p next) chr_colon in
  match after_two_digits has_separator p next with
  | Malformed_separator => None
  | Finished rv => Some (mkTime h 0 0 0 rv)
  | Fraction p => with_fraction h 0 0 p
  | Next_field p =>
      '(m, p) ← parse_digits 2 p 0;
      match after_two_digits has_separator p next with
      | Malformed_separator => None
      | Finished rv => Some (mkTime h m 0 0 rv)
      | Fraction p => with_fraction h m 0 p
      | Next_field p =>
          '(s, p) ← parse_digits 2 p 0;
          match after_two_digits has_separator p next with
          | Malformed_separator => None
          | Finished rv => Some (mkTime h m s 0 rv)
          | Fraction p | Next_field p => with_fraction h m s p
          end
      end
  end.

Definition is_tz_start (c : N) : bool :=
  N.eqb c chr_Z || N.eqb c chr_plus || N.eqb c chr_dash.

(** The time up to the first [Z], [+] or [-], and the text from there. *)
Fixpoint split_at_tz (p : list N) : list N * list N :=
  match p with
  | [] => ([], [])
  | c :: r =>
      if is_tz_start c then ([], p)
      else let '(tstr, tzstr) := split_at_tz r in (c :: tstr, tzstr)
  end.

(** [parse_isoformat_time]: the time, and for the return value 1 the offset
    in seconds and microseconds. *)
Definition parse_isoformat_time (p : list N)
  : option (hh_mm_ss_ff * option (Z * Z)) :=
  match p with
  | [] => None
  | _ =>
      let '(tstr, tzstr) := split_at_tz p in
      t ← parse_hh_mm_ss_ff tstr (peek tzstr 0);
      match tzstr with
      | [] => if t_rv t then None else Some (t, None)
      | c :: r =>
          if N.eqb c chr_Z then
            if N.eqb (peek r 0) 0 then Some (t, Some (0, 0)) else None
          else
            let tzsign := if N.eqb c chr_dash then -1 else 1 in
            tz ← parse_hh_mm_ss_ff r 0;
            if t_rv tz then None
            else Some (t, Some (tzsign * (t_hour tz * 3600 + t_minute tz * 60
                                          + t_second tz),
                                tzsign * t_microsecond tz))
      end
  end.

(** The number of bytes of the character that starts with this byte. *)
Definition separator_width (b : N) : nat :=
  if (b <? 128)%N then 1%nat
  else if ((224 <=? b) && (b <? 240))%N then 3%nat
  else if (240 <=? b)%N then 4%nat
  else 2%nat.

(** [tzinfo_from_isoformat_results]: zero seconds give UTC; the offset of a
    [timezone] lies strictly between minus and plus 24 hours. *)
Definition tzinfo_from_isoformat_results (tz : option (Z * Z))
  : option (option Z) :=
  match tz with
  | None => Some None
  | Some (tzoffset, tz_useconds) =>
      if tzoffset =? 0 then Some (Some 0)
      else
        let off := tzoffset * 1000000 + tz_useconds in
        if (-86400000000 <? off) && (off <? 86400000000) then Some (Some off)
        else None
  end.

(** The range checks of the constructor. *)
Definition new_datetime (y mo d h mi s us : Z) (tz : option Z) : option datetime :=
  if (1 <=? y) && (y <=? 9999) && (1 <=? mo) && (mo <=? 12)
     && (1 <=? d) && (d <=? days_in_month y mo)
     && (0 <=? h) && (h <? 24) && (0 <=? mi) && (mi <? 60)
     && (0 <=? s) && (s <? 60) && (0 <=? us) && (us <? 1000000)
  then Some (mkdatetime y mo d h mi s us tz)
  else None.

Definition fromisoformat (date_string : str) : option datetime :=
  if (length date_string <? 7)%nat then None
  else
    let dtstr_clean := sanitize_isoformat_str [7; 8; 10]%nat date_string in
    if existsb is_surrogate dtstr_clean then None
    else
      let dt_ptr := dtstr_clean ≫= utf8 in
      separator_location ← find_isoformat_datetime_separator dt_ptr;
      '(y, mo, d) ← parse_isoformat_date dt_ptr separator_location;
      '(t, tz) ←
        (if (separator_location <? length dt_ptr)%nat
         then parse_isoformat_time
                (drop (separator_location
                       + separator_width (byte_at dt_ptr separator_location))
                   dt_ptr)
         else Some (mkTime 0 0 0 0 false, None));
      tzinfo ← tzinfo_from_isoformat_results tz;
      new_datetime y mo d (t_hour t) (t_minute t) (t_second t) (t_microsecond t)
        tzinfo.

(** The UTC offset as [isoformat] prints it: sign, hours and minutes, the
    seconds when they or the microseconds are not zero, and the
    microseconds when they are not zero. *)
Definition format_offset (off : Z) : str :=
  let a := Z.abs off in
  (if off <? 0 then chr_dash else chr_plus)
  :: fmt2 (a / 3600000000) ++ [chr_colon] ++ fmt2 (a / 60000000 mod 60)
  ++ (if a mod 60000000 =? 0 then []
      else chr_colon :: fmt2 (a / 1000000 mod 60)
           ++ (if a mod 1000000 =? 0 then []
               else chr_dot :: fmt6 (a mod 1000000))).

(** [datetime.isoformat(sep)]. *)
Definition isoformat_sep (sep : N) (d : datetime) : str :=
  fmt4 (year d) ++ [chr_dash] ++ fmt2 (month d) ++ [chr_dash] ++ fmt2 (day d)
  ++ [sep] ++ fmt2 (hour d) ++ [chr_colon] ++ fmt2 (minute d)
  ++ [chr_colon] ++ fmt2 (second d)
  ++ (if microsecond d =? 0 then [] else chr_dot :: fmt6 (microsecond d))
  ++ match tzinfo d with
     | None => []
     | Some off => format_offset off
     end.

(** [ts.isoformat()] and [str(ts)]. *)
Definition isoformat (d : datetime) : str := isoformat_sep chr_T d.
Definition str_datetime (d : datetime) : str := isoformat_sep 32%N d.

(** [ts.replace(year=y)]: ValueError when the day does not exist in the new
    year (29 February). *)
Definition replace_year (d : datetime) (y : Z) : option datetime :=
  if (1 <=? y) && (y <=? 9999) && (day d <=? days_in_month y (month d))
  then Some (mkdatetime y (month d) (day d) (hour d) (minute d) (second d)
               (microsecond d) (tzinfo d))
  else None.

(** [ts.strftime('%Y-%m-%dT%H:%M:%SZ')]. *)
Definition strftime_Z (d : datetime) : str :=
  fmt4 (year d) ++ [chr_dash] ++ fmt2 (month d) ++ [chr_dash] ++ fmt2 (day d)
  ++ [chr_T] ++ fmt2 (hour d) ++ [chr_colon] ++ fmt2 (minute d)
  ++ [chr_colon] ++ fmt2 (second d) ++ [chr_Z].

(** parse_timestamp (the same in all six scripts). *)
Definition parse_timestamp (time_str : str) : option datetime :=
  if contains_char chr_Z time_str
  then fromisoformat (replace_char chr_Z (lit "+00:00") time_str)
  else fromisoformat time_str.

(** ** ElementTree elements *)

Inductive Element := mkElement {
  tag : str;
  attrib : list (str * str);
  text : option str;
  children : list Element
}.

#[global] Instance Element_eq_dec : EqDecision Element.
Proof.
  refine (fix go (x y : Element) {struct x} : Decision (x = y) :=
    match x, y with
    | mkElement t a tx c, mkElement t' a' tx' c' =>
        cast_if_and4 (decide (t = t')) (decide (a = a')) (decide (tx = tx'))
          (@list_eq_dec _ go c c')
    end); abstract congruence.
Defined.

(** [elem.get(name)]: the attribute, or Python's None. *)
Fixpoint lookup_attr (name : str) (a : list (str * str)) : option str :=
  match a with
  | [] => None
  | (k, v) :: r => if decide (k = name) then Some v else lookup_attr name r
  end.

Definition get (e : Element) (name : str) : option str :=
  lookup_attr name (attrib e).

(** [elem.find(tag)]: the first child with that tag. *)
Definition find (e : Element) (t : str) : option Element :=
  List.find (fun c => bool_decide (tag c = t)) (children e).

(** [root.findall('.//tag')]: every descendant with that tag, in document
    order. *)
Fixpoint descendants (e : Element) : list Element :=
  flat_map (fun c => c :: descendants c) (children e).

Definition findall_descendants (root : Element) (t : str) : list Element :=
  filter (fun c => tag c = t) (descendants root).

Definition GPX_NS : str := lit "http://www.topografix.com/GPX/1/1".

(** The qualified tag ['{%s}name' % GPX_NS]. *)
Definition gpx (name : string) : str := lit "{" ++ GPX_NS ++ lit "}" ++ lit name.

(** [x.text] used as a condition together with [x is not None]: a present
    and non-empty text. *)
Definition nonempty_text (e : Element) : option str :=
  match text e with
  | Some (c :: r) => Some (c :: r)
  | _ => None
  end.

(** ** Files

    What [ET.parse(path)] finds: nothing (the file is missing), a document
    that is not well-formed XML, or a root element. The first two raise. *)

Inductive document :=
| Malformed
| Wellformed (root : Element).

Abbreviation filesystem := (gmap str document).

Definition ET_parse (fs : filesystem) (file_path : str) : option Element :=
  match fs !! file_path with
  | Some (Wellformed root) => Some root
  | _ => None
  end.

(** Lines printed or logged. *)
Inductive message :=
| Warning_could_not_parse (file_path : str)
| Loading_existing (file_path : str)
| Existing_points (n : nat)
| File_points (file_path : str) (n : nat).

(** ** Track point extraction *)

(** A collected point: the parsed timestamp and a copy of the trkpt
    element. *)
Abbreviation point := (datetime * Element)%type.

(** The body of the loop of collect_track_points in auto_merge_timelines.py,
    phonetrack_timeline_updater.py and merge_gabor_timelines.py: [None] when
    nothing is appended for this element. *)
Definition collect_one (trkpt : Element) : option point :=
  time_elem ← find trkpt (gpx "time");
  time_text ← nonempty_text time_elem;
  ts ← parse_timestamp time_text;
  if year ts =? 2000 then None else Some (ts, trkpt).

Definition collect_from_root (root : Element) : list point :=
  omap collect_one (findall_descendants root (gpx "trkpt")).

(** collect_track_points of auto_merge_timelines.py (and, with a logged
    error in place of the printed warning, of
    phonetrack_timeline_updater.py). *)
Definition collect_track_points (fs : filesystem) (file_path : str)
  : list point * list message :=
  match ET_parse fs file_path with
  | Some root => (collect_from_root root, [])
  | None => ([], [Warning_could_not_parse file_path])
  end.

(** The loop body without the year test, as in merge_daily_exports.py and
    merge_gpx.py. *)
Definition collect_one_keep_2000 (trkpt : Element) : option point :=
  time_elem ← find trkpt (gpx "time");
  time_text ← nonempty_text time_elem;
  ts ← parse_timestamp time_text;
  Some (ts, trkpt).

(** collect_track_points of merge_daily_exports.py: [ET.parse] is outside
    any try block, so its exception propagates ([None]). *)
Definition collect_track_points_daily (fs : filesystem) (file_path : str)
  : option (list point) :=
  root ← ET_parse fs file_path;
  Some (omap collect_one_keep_2000 (findall_descendants root (gpx "trkpt"))).

(** collect_track_points of merge_gpx.py (through get_trkpt_time). *)
Definition collect_track_points_gpx (fs : filesystem) (file_path : str)
  : option (list point) :=
  root ← ET_parse fs file_path;
  Some (omap collect_one_keep_2000 (findall_descendants root (gpx "trkpt"))).

(** ** Duplicate removal *)

Abbreviation key := (option str * option str * str)%type.

(** [(pt.get('lat'), pt.get('lon'), ts.isoformat())] *)
Definition identity_key (p : point) : key :=
  (get p.2 (lit "lat"), get p.2 (lit "lon"), isoformat p.1).

Section dedup.
Context {K : Type} `{Countable K}.
Variable kf : point → K.

(** One turn of [for ts, pt in all_points: if key not in seen: seen.add(key);
    unique.append((ts, pt))] on the pair [(seen, unique)]. *)
Definition dedup_step (st : gset K * list point) (p : point)
  : gset K * list point :=
  if decide (kf p ∈ st.1) then st else ({[kf p]} ∪ st.1, st.2 ++ [p]).

Definition dedup_loop (all_points : list point) : gset K * list point :=
  foldl dedup_step (∅, []) all_points.
End dedup.

(** The list [unique] of merge_group after the loop. *)
Definition remove_duplicates (all_points : list point) : list point :=
  (dedup_loop identity_key all_points).2.

(** ** Sorting

    [unique.sort(key=lambda x: x[0])]. list.sort is a stable comparison sort
    that uses only [<] on the keys; on short lists it is an insertion sort.
    The model inserts each element after the elements that are not greater,
    and raises as soon as a comparison does. *)

Fixpoint insert_by_timestamp (x : point) (sorted : list point) : option (list point) :=
  match sorted with
  | [] => Some [x]
  | y :: r =>
      b ← dt_lt x.1 y.1;
      if b : bool then Some (x :: y :: r)
      else r' ← insert_by_timestamp x r; Some (y :: r')
  end.

Definition sort_by_timestamp (l : list point) : option (list point) :=
  foldl (fun acc x => acc ≫= insert_by_timestamp x) (Some []) l.

(** ** Consolidation

    Lines 238-248 of merge_group (and 232-244 of update_timeline) on the
    collected lists: concatenate, remove duplicates, sort. [None] is the
    TypeError of the sort. *)
Definition consolidate (existing_points : list point)
    (new_point_lists : list (list point)) : option (list point) :=
  sort_by_timestamp (remove_duplicates (existing_points ++ concat new_point_lists)).

(** What write_gpx receives: the destination, the display names and the
    points. The text it writes holds them after a header with the time of
    the export. *)
Record timeline_file := mkTimeline {
  tl_path : str;
  tl_session : str;
  tl_user : str;
  tl_points : list point
}.

Inductive outcome :=
| Raised
| Returned (n : nat) (written : option timeline_file).

(** The loading part of merge_group (lines 219-233). *)
Definition load_existing (fs : filesystem) (existing_timeline : option str)
  : list point * list message :=
  match existing_timeline with
  | Some p =>
      if decide (is_Some (fs !! p)) then
        let '(points, w) := collect_track_points fs p in
        (points, Loading_existing p :: w ++ [Existing_points (length points)])
      else ([], [])
  | None => ([], [])
  end.

Fixpoint load_files (fs : filesystem) (files : list str)
  : list point * list message :=
  match files with
  | [] => ([], [])
  | gpx_file :: rest =>
      let '(points, w) := collect_track_points fs gpx_file in
      let '(more, w') := load_files fs rest in
      match points with
      | [] => (more, w ++ w')
      | _ => (points ++ more, w ++ File_points gpx_file (length points) :: w')
      end
  end.

(** merge_group of auto_merge_timelines.py. *)
Definition merge_group (fs : filesystem) (files : list str) (output_path : str)
    (session_name username : str) (existing_timeline : option str)
  : outcome * list message :=
  let '(existing, w1) := load_existing fs existing_timeline in
  let '(loaded, w2) := load_files fs files in
  let all_points := existing ++ loaded in
  match all_points with
  | [] => (Returned 0 None, w1 ++ w2)
  | _ =>
      match sort_by_timestamp (remove_duplicates all_points) with
      | None => (Raised, w1 ++ w2)
      | Some unique =>
          (Returned (length unique)
             (Some (mkTimeline output_path session_name username unique)),
           w1 ++ w2)
      end
  end.

(** ** merge_gpx.py *)

Abbreviation text_key_t := (option str * option str * option str)%type.

(** [(lat, lon, time_elem.text if time_elem is not None else str(timestamp))] *)
Definition text_key (p : point) : text_key_t :=
  (get p.2 (lit "lat"), get p.2 (lit "lon"),
   match find p.2 (gpx "time") with
   | Some time_elem => text time_elem
   | None => Some (str_datetime p.1)
   end).

(** [time_elem.text = new_text] on the child that [find] returns. *)
Fixpoint set_text_of_first (t : str) (new_text : str) (cs : list Element)
  : list Element :=
  match cs with
  | [] => []
  | c :: r =>
      if bool_decide (tag c = t)
      then mkElement (tag c) (attrib c) (Some new_text) (children c) :: r
      else c :: set_text_of_first t new_text r
  end.

Definition fix_one (new_year : Z) (p : point) : option (point * nat) :=
  if year p.1 =? 2000 then
    new_timestamp ← replace_year p.1 new_year;
    Some ((new_timestamp,
           mkElement (tag p.2) (attrib p.2) (text p.2)
             (set_text_of_first (gpx "time") (strftime_Z new_timestamp) (children p.2))),
          1%nat)
  else Some (p, 0%nat).

(** fix_year_2000_timestamps: the list after the in-place update and the
    count that is returned; [None] when [replace] raises. *)
Fixpoint fix_year_2000_timestamps (points : list point) (new_year : Z)
  : option (list point * nat) :=
  match points with
  | [] => Some ([], 0%nat)
  | p :: rest =>
      '(p', n) ← fix_one new_year p;
      '(rest', m) ← fix_year_2000_timestamps rest new_year;
      Some (p' :: rest', (n + m)%nat)
  end.

(** [min(p[0] for p in points)] and [max(...)], which compare with [<] and
    [>]; [points] is not empty. *)
Fixpoint min_from (cur : datetime) (l : list datetime) : option datetime :=
  match l with
  | [] => Some cur
  | x :: r => b ← dt_lt x cur; min_from (if b : bool then x else cur) r
  end.

Fixpoint max_from (cur : datetime) (l : list datetime) : option datetime :=
  match l with
  | [] => Some cur
  | x :: r => b ← dt_lt cur x; max_from (if b : bool then x else cur) r
  end.

(** The date range line printed after reading a file. *)
Definition date_range (points : list point) : option unit :=
  match points with
  | [] => Some ()
  | p :: r => _ ← min_from p.1 (fst <$> r); _ ← max_from p.1 (fst <$> r); Some ()
  end.

(** merge_gpx_files: the points rendered into the output file (sorted by
    create_merged_gpx), or [None] when an exception ends the run. *)
Definition merge_gpx_files (fs : filesystem) (file1 file2 : str)
    (fix_year_2000 : bool) : option (list point) :=
  points1 ← collect_track_points_gpx fs file1;
  _ ← date_range points1;
  points2 ← collect_track_points_gpx fs file2;
  _ ← date_range points2;
  let all_points := points1 ++ points2 in
  all_points' ← (if fix_year_2000
                 then fst <$> fix_year_2000_timestamps all_points 2019
                 else Some all_points);
  let unique_points := (dedup_loop text_key all_points').2 in
  sort_by_timestamp unique_points.

(** ** merge_daily_exports.py

    The script body: what was written to the timeline file, and whether the
    run ended in an exception. *)
Record script_result := mkResult {
  sr_written : option (list point);
  sr_raised : bool
}.

Fixpoint collect_all_daily (fs : filesystem) (files : list str)
  : option (list point) :=
  match files with
  | [] => Some []
  | f :: rest =>
      points ← collect_track_points_daily fs f;
      more ← collect_all_daily fs rest;
      Some (points ++ more)
  end.

Definition merge_daily_exports (fs : filesystem) (timeline_file : str)
    (daily_files : list str) : script_result :=
  match
    all_points ← collect_track_points_daily fs timeline_file;
    all_points ← sort_by_timestamp all_points;
    daily ← collect_all_daily fs daily_files;
    sort_by_timestamp (remove_duplicates (all_points ++ daily))
  with
  | None => mkResult None true
  | Some unique =>
      (* write_gpx(unique, timeline_file), then print unique[0][0] *)
      mkResult (Some unique) (bool_decide (unique = []))
  end.

(** ** Text normalizer *)

(** Canonical decompositions of the Unicode Character Database for the
    Latin-1 Supplement (U+00C0 to U+00FF); the normalizer's own examples
    ('Ági', 'Amír', 'Gabó') are in this range. Code points outside it are
    left as they are by this table. *)
Definition canonical_decomposition (c : N) : list N :=
  match c with
  | 192%N => [65%N; 768%N]
  | 193%N => [65%N; 769%N]
  | 194%N => [65%N; 770%N]
  | 195%N => [65%N; 771%N]
  | 196%N => [65%N; 776%N]
  | 197%N => [65%N; 778%N]
  | 199%N => [67%N; 807%N]
  | 200%N => [69%N; 768%N]
  | 201%N => [69%N; 769%N]
  | 202%N => [69%N; 770%N]
  | 203%N => [69%N; 776%N]
  | 204%N => [73%N; 768%N]
  | 205%N => [73%N; 769%N]
  | 206%N => [73%N; 770%N]
  | 207%N => [73%N; 776%N]
  | 209%N => [78%N; 771%N]
  | 210%N => [79%N; 768%N]
  | 211%N => [79%N; 769%N]
  | 212%N => [79%N; 770%N]
  | 213%N => [79%N; 771%N]
  | 214%N => [79%N; 776%N]
  | 217%N => [85%N; 768%N]
  | 218%N => [85%N; 769%N]
  | 219%N => [85%N; 770%N]
  | 220%N => [85%N; 776%N]
  | 221%N => [89%N; 769%N]
  | 224%N => [97%N; 768%N]
  | 225%N => [97%N; 769%N]
  | 226%N => [97%N; 770%N]
  | 227%N => [97%N; 771%N]
  | 228%N => [97%N; 776%N]
  | 229%N => [97%N; 778%N]
  | 231%N => [99%N; 807%N]
  | 232%N => [101%N; 768%N]
  | 233%N => [101%N; 769%N]
  | 234%N => [101%N; 770%N]
  | 235%N => [101%N; 776%N]
  | 236%N => [105%N; 768%N]
  | 237%N => [105%N; 769%N]
  | 238%N => [105%N; 770%N]
  | 239%N => [105%N; 776%N]
  | 241%N => [110%N; 771%N]
  | 242%N => [111%N; 768%N]
  | 243%N => [111%N; 769%N]
  | 244%N => [111%N; 770%N]
  | 245%N => [111%N; 771%N]
  | 246%N => [111%N; 776%N]
  | 249%N => [117%N; 768%N]
  | 250%N => [117%N; 769%N]
  | 251%N => [117%N; 770%N]
  | 252%N => [117%N; 776%N]
  | 253%N => [121%N; 769%N]
  | 255%N => [121%N; 776%N]
  | _ => [c]
  end.

(** [unicodedata.normalize('NFD', text)] on that range. The canonical
    reordering of NFD permutes combining marks among themselves only; the
    marks of the table are non-spacing marks, which normalize_text removes
    next, so the reordering is left out. *)
Definition nfd (text : str) : str := flat_map canonical_decomposition text.

(** [unicodedata.category(c) == 'Mn'] on the Combining Diacritical Marks
    block (U+0300 to U+036F), all of whose code points are Mn. *)
Definition is_Mn (c : N) : bool := ((768 <=? c) && (c <=? 879))%N.

(** normalize_text *)
Definition normalize_text (text : str) : str :=
  filter (fun c => is_Mn c = false) (nfd text).

(** [str.lower()] on ASCII and the Latin-1 Supplement. *)
Definition lower_char (c : N) : N :=
  if ((65 <=? c) && (c <=? 90))%N then (c + 32)%N
  else if ((192 <=? c) && (c <=? 222) && negb (c =? 215))%N then (c + 32)%N
  else c.

Definition lower (s : str) : str := lower_char <$> s.

(** ** Filename patterns *)

Fixpoint starts_with (pre s : str) : bool :=
  match pre, s with
  | [], _ => true
  | a :: pre', b :: s' => N.eqb a b && starts_with pre' s'
  | _ :: _, [] => false
  end.

(** [needle in s] *)
Fixpoint contains_str (needle s : str) : bool :=
  starts_with needle s ||
  match s with
  | [] => false
  | _ :: s' => contains_str needle s'
  end.

(** [\.gpx$]: the text before a final [.gpx]; [$] also matches before one
    trailing newline. *)
Definition strip_gpx_tail (s : str) : option str :=
  let r := reverse s in
  if starts_with (reverse (lit ".gpx")) r then Some (reverse (drop 4 r))
  else if starts_with (chr_newline :: reverse (lit ".gpx")) r
       then Some (reverse (drop 5 r))
  else None.

(** The code points of the digit zero in each run of ten decimal digits
    (general category Nd, Unicode 14.0 as in Python 3.11). *)
Definition decimal_digit_zeros : list N :=
  [48; 1632; 1776; 1984; 2406; 2534; 2662; 2790; 2918; 3046; 3174; 3302; 3430;
   3558; 3664; 3792; 3872; 4160; 4240; 6112; 6160; 6470; 6608; 6784; 6800;
   6992; 7088; 7232; 7248; 42528; 43216; 43264; 43472; 43504; 43600; 44016;
   65296; 66720; 68912; 69734; 69872; 69942; 70096; 70384; 70736; 70864;
   71248; 71360; 71472; 71904; 72016; 72784; 73040; 73120; 92768; 92864;
   93008; 120782; 120792; 120802; 120812; 120822; 123200; 123632; 125264;
   130032]%N.

(** [\d] of a pattern on [str]: a Unicode decimal digit. *)
Definition is_digit (c : N) : bool :=
  existsb (fun zero => (zero <=? c) && (c <=? zero + 9))%N decimal_digit_zeros.

Definition no_newline (s : str) : bool :=
  forallb (fun c => negb (N.eqb c chr_newline)) s.

Definition nonempty (s : str) : bool :=
  match s with [] => false | _ :: _ => true end.

(** [\d{4}-\d{2}-\d{2}] on a whole text. *)
Definition is_date (d : str) : bool :=
  match d with
  | [y1; y2; y3; y4; a; m1; m2; b; d1; d2] =>
      forallb is_digit [y1; y2; y3; y4; m1; m2; d1; d2]
      && N.eqb a chr_dash && N.eqb b chr_dash
  | _ => false
  end.

(** The text from [_daily_] on: [_daily_(\d{4}-\d{2}-\d{2})_(.+)] up to the
    end. Returns the date and the user. *)
Definition daily_rest (s : str) : option (str * str) :=
  let date := take 10 (drop 7 s) in
  let user := drop 18 s in
  if starts_with (lit "_daily_") s && is_date date
     && starts_with [chr_underscore] (drop 17 s)
     && nonempty user && no_newline user
  then Some (date, user)
  else None.

(** Every way to split the text as session and rest, shortest session
    first. *)
Fixpoint daily_candidates (session rest : str) : list (str * str * str) :=
  match daily_rest rest with
  | Some (date, user) =>
      if nonempty session && no_newline session then [(session, date, user)] else []
  | None => []
  end ++
  match rest with
  | [] => []
  | c :: r => daily_candidates (session ++ [c]) r
  end.

(** [DAILY_PATTERN.match(filename)] with groups 1, 2, 3 for
    [^(.+)_daily_(\d{4}-\d{2}-\d{2})_(.+)\.gpx$]: the first group is greedy,
    so the match with the longest session is the one returned. *)
Definition DAILY_PATTERN_match (filename : str) : option (str * str * str) :=
  body ← strip_gpx_tail filename;
  last (daily_candidates [] body).

Fixpoint full_candidates (session rest : str) : list (str * str) :=
  (let user := drop 1 rest in
   if starts_with [chr_underscore] rest && nonempty user
      && negb (contains_char chr_underscore user)
      && nonempty session && no_newline session
   then [(session, user)] else [])
  ++
  match rest with
  | [] => []
  | c :: r => full_candidates (session ++ [c]) r
  end.

(** [FULL_PATTERN.match(filename)] with groups 1, 2 for
    [^(.+)_([^_]+)\.gpx$]. *)
Definition FULL_PATTERN_match (filename : str) : option (str * str) :=
  body ← strip_gpx_tail filename;
  last (full_candidates [] body).

Definition reserved_users : list str :=
  [lit "timeline"; lit "merged"; lit "combined"].

(** parse_filename: [(session_name, username, date_str)] or None. *)
Definition parse_filename (filename : str) : option (str * str * option str) :=
  if contains_str (lit "_TIMELINE.gpx") filename then None
  else match DAILY_PATTERN_match filename with
  | Some (session_name, date_str, username) =>
      Some (session_name, username, Some date_str)
  | None =>
      match FULL_PATTERN_match filename with
      | Some (session_name, username) =>
          if bool_decide (lower username ∈ reserved_users) then None
          else Some (session_name, username, None)
      | None => None
      end
  end.

(** ** Grouping *)

Fixpoint until_slash (s : str) : str :=
  match s with
  | [] => []
  | c :: r => if N.eqb c 47%N then [] else c :: until_slash r
  end.

(** [path.name]: the part after the last slash. *)
Definition path_name (p : str) : str := reverse (until_slash (reverse p)).

Abbreviation group_key := (str * str)%type.
Abbreviation group := (str * str * list str)%type.

(** The key [(normalize_text(s).lower(), normalize_text(u).lower())] of a
    file, when parse_filename accepts its name. *)
Definition file_key (gpx_file : str) : option group_key :=
  match parse_filename (path_name gpx_file) with
  | Some (session_name, username, _) =>
      Some (lower (normalize_text session_name), lower (normalize_text username))
  | None => None
  end.

(** One turn of the loop of scan_and_group_files over the files that rglob
    yields. *)
Definition group_step (temp_groups : gmap group_key group) (gpx_file : str)
  : gmap group_key group :=
  match parse_filename (path_name gpx_file) with
  | Some (session_name, username, _) =>
      let key := (lower (normalize_text session_name),
                  lower (normalize_text username)) in
      match temp_groups !! key with
      | None => <[key := (session_name, username, [gpx_file])]> temp_groups
      | Some (s0, u0, files) => <[key := (s0, u0, files ++ [gpx_file])]> temp_groups
      end
  | None => temp_groups
  end.

Definition scan_and_group_files (found : list str) : gmap group_key group :=
  foldl group_step ∅ found.

(** ** The batch of auto_merge_timelines.py *)

Fixpoint str_leb (a b : str) : bool :=
  match a, b with
  | [], _ => true
  | _ :: _, [] => false
  | x :: a', y :: b' =>
      if (x <? y)%N then true else if (y <? x)%N then false else str_leb a' b'
  end.

Definition key_leb (a b : group_key) : bool :=
  if decide (a.1 = b.1) then str_leb a.2 b.2 else str_leb a.1 b.1.

(** [sorted(groups.items())]; the keys of a dict differ, so they decide the
    order. *)
Definition sorted_items (groups : gmap group_key group)
  : list (group_key * group) :=
  merge_sort (fun x y => Is_true (key_leb x.1 y.1)) (map_to_list groups).

(** The state of the loop of main: the files written so far and the two
    totals. *)
Record batch := mkBatch {
  written_files : list timeline_file;
  total_files : nat;
  total_points : nat
}.

Definition output_path_of (output_dir session_name username : str) : str :=
  output_dir ++ lit "/" ++ normalize_text session_name ++ lit "_"
  ++ normalize_text username ++ lit "_TIMELINE.gpx".

(** The loop [for ... in sorted(groups.items())] of main without --dry-run.
    [None]: an exception left the loop. A turn that writes a timeline
    changes what the later turns read at that path: [written_document tl]
    stands for what [ET.parse] gives on the file that write_gpx wrote for
    [tl]. *)
Fixpoint process_groups (written_document : timeline_file -> document)
    (fs : filesystem) (output_dir : str)
    (include_existing : bool) (items : list (group_key * group)) (b : batch)
  : option batch :=
  match items with
  | [] => Some b
  | (_, (session_name, username, files)) :: rest =>
      let output_path := output_path_of output_dir session_name username in
      let existing := if include_existing then Some output_path else None in
      match (merge_group fs files output_path session_name username existing).1 with
      | Raised => None
      | Returned num_points written =>
          let fs' :=
            match written with
            | Some tl => <[tl_path tl := written_document tl]> fs
            | None => fs
            end in
          process_groups written_document fs' output_dir include_existing rest
            (mkBatch (written_files b ++ option_list written)
               (total_files b + length files) (total_points b + num_points))
      end
  end.

(** main without --dry-run, once the source directory exists: the exit
    status 0 with the final state, or [None] for an uncaught exception. *)
Definition main (written_document : timeline_file -> document)
    (fs : filesystem) (found : list str) (output_dir : str)
    (include_existing : bool) : option (Z * batch) :=
  let groups := scan_and_group_files found in
  if decide (groups = ∅) then Some (0, mkBatch [] 0 0)
  else
    b ← process_groups written_document fs output_dir include_existing
           (sorted_items groups) (mkBatch [] 0 0);
    Some (0, b).

(** *** Sample data *)

Definition time_element (t : string) : Element :=
  mkElement (gpx "time") [] (Some (lit t)) [].

Definition ele_element (t : string) : Element :=
  mkElement (gpx "ele") [] (Some (lit t)) [].

Definition trkpt (lat lon : string) (kids : list Element) : Element :=
  mkElement (gpx "trkpt") [(lit "lat", lit lat); (lit "lon", lit lon)] None kids.

Definition gpx_root (pts : list Element) : Element :=
  mkElement (gpx "gpx") [] None
    [mkElement (gpx "trk") [] None [mkElement (gpx "trkseg") [] None pts]].

(** Source A has points at 10:00 and 10:05, source B has the point of 10:05
    again and one at 10:10. *)
Definition sample_A : list point :=
  collect_from_root
    (gpx_root [trkpt "47.5" "19.0" [time_element "2023-06-01T10:00:00Z"];
               trkpt "47.5" "19.0" [time_element "2023-06-01T10:05:00Z"]]).

Definition sample_B : list point :=
  collect_from_root
    (gpx_root [trkpt "47.5" "19.0" [time_element "2023-06-01T10:05:00Z"];
               trkpt "47.5" "19.0" [time_element "2023-06-01T10:10:00Z"]]).

Definition sample_merged : list point :=
  Eval vm_compute in default [] (consolidate sample_A [sample_B]).

(** One fix recorded twice: once with the [Z] suffix and once with the
    offset [+00:00] and another elevation. *)
Definition point_Z : point :=
  Eval vm_compute in
    default (mkdatetime 0 0 0 0 0 0 0 None, time_element "")
      (collect_one (trkpt "47.5" "19.0" [time_element "2023-06-01T10:05:00Z";
                                          ele_element "100"])).

Definition point_offset : point :=
  Eval vm_compute in
    default (mkdatetime 0 0 0 0 0 0 0 None, time_element "")
      (collect_one (trkpt "47.5" "19.0" [time_element "2023-06-01T10:05:00+00:00";
                                          ele_element "7"])).

Definition two_spellings_root : Element :=
  gpx_root [trkpt "47.5" "19.0" [time_element "2023-06-01T10:05:00Z"; ele_element "100"];
            trkpt "47.5" "19.0" [time_element "2023-06-01T10:05:00+00:00"; ele_element "7"]].

(** A file with points dated 2000-01-01, 2000-01-01 and 2023-06-01, a file
    with one point, and a file that is not XML. *)
Definition sentinel_root : Element :=
  gpx_root [trkpt "47.5" "19.0" [time_element "2000-01-01T00:00:00Z"];
            trkpt "47.6" "19.1" [time_element "2000-01-01T00:00:00Z"];
            trkpt "47.5" "19.0" [time_element "2023-06-01T10:00:00Z"]].

Definition other_root : Element :=
  gpx_root [trkpt "47.7" "19.2" [time_element "2023-06-02T08:00:00Z"]].

Definition sample_fs : filesystem :=
  {[ lit "sentinel.gpx" := Wellformed sentinel_root;
     lit "other.gpx" := Wellformed other_root;
     lit "broken.gpx" := Malformed ]}.

Definition point_2000 : point :=
  Eval vm_compute in
    default (mkdatetime 0 0 0 0 0 0 0 None, time_element "")
      (collect_one_keep_2000 (trkpt "47.5" "19.0" [time_element "2000-01-01T00:00:00Z"])).

(** A timestamp text without offset, its value, and a point that carries
    it. *)
Definition naive_text : str := lit "2023-06-01T10:00:00".

Definition naive_value : datetime := mkdatetime 2023 6 1 10 0 0 0 None.

Definition point_naive : point :=
  (naive_value, trkpt "47.5" "19.0" [time_element "2023-06-01T10:00:00"]).

(** A reading of the written files for the examples: the points come back
    as they were written. *)
Definition sample_written_document (tl : timeline_file) : document :=
  Wellformed (gpx_root (snd <$> tl_points tl)).

(** A file with two points whose time texts end in [Z]: a date alone and a
    date with a time. *)
Definition date_Z_root : Element :=
  gpx_root [trkpt "47.5" "19.0" [time_element "2023-06-01Z"];
            trkpt "47.5" "19.0" [time_element "2023-06-01T10:05:00Z"]].

Definition date_Z_fs : filesystem :=
  {[ lit "dates.gpx" := Wellformed date_Z_root ]}.

(** The name with an accented first letter (U+00C1), and two files that
    differ in accent and case only. *)
Definition Agi_accented : str := [193%N] ++ lit "gi".

Definition sample_found : list str :=
  [lit "exports/Trip_" ++ Agi_accented ++ lit ".gpx";
   lit "exports/old/trip_AGI.gpx"].

(** ** Vocabulary of the statements *)

(** Ascending order of the timestamps of two points. *)
Definition ts_le (p q : point) : Prop := instant p.1 ≤ instant q.1.

(** Every timestamp of the list is aware ([b = true]) or every one is naive
    ([b = false]). *)
Definition all_of_kind (b : bool) (l : list point) : Prop :=
  Forall (fun p => aware p.1 = b) l.

(** The list holds an aware and a naive timestamp. *)
Definition mixed (l : list point) : Prop :=
  ∃ p q, p ∈ l ∧ q ∈ l ∧ aware p.1 = true ∧ aware q.1 = false.

(** The text begins with a calendar date [YYYY-MM-DD] in ASCII digits. *)
Definition begins_with_date (s : str) : bool :=
  match s with
  | y1 :: y2 :: y3 :: y4 :: a :: m1 :: m2 :: b :: d1 :: d2 :: _ =>
      forallb is_ascii_digit [y1; y2; y3; y4; m1; m2; d1; d2]
      && N.eqb a chr_dash && N.eqb b chr_dash
  | _ => false
  end.

(** A text that begins with a date [YYYY-MM-DD] and one separator character
    carries an offset: a [Z] or a sign stands somewhere after them. *)
Definition has_offset (s : str) : bool := existsb is_tz_start (drop 11 s).

(** The number that a run of ASCII digits writes. *)
Definition digits_value (ds : list N) : Z :=
  foldl (fun acc c => acc * 10 + (Z.of_N c - 48)) 0 ds.

(** The outcome of merge_group is a function of the points loaded. *)
Definition outcome_of (output_path session_name username : str)
    (all_points : list point) : outcome :=
  match all_points with
  | [] => Returned 0 None
  | _ =>
      match sort_by_timestamp (remove_duplicates all_points) with
      | None => Raised
      | Some unique =>
          Returned (length unique)
            (Some (mkTimeline output_path session_name username unique))
      end
  end.

(** The names that parse_filename reads from a file. *)
Definition display_names (gpx_file : str) : str * str :=
  match parse_filename (path_name gpx_file) with
  | Some (session_name, username, _) => (session_name, username)
  | None => ([], [])
  end.

(** The group of a key, given the files of that key in scan order. *)
Definition group_of (files : list str) : option group :=
  match files with
  | [] => None
  | f :: _ => Some ((display_names f).1, (display_names f).2, files)
  end.

(** The same timestamp with another UTC offset. *)
Definition with_offset (d : datetime) (off : Z) : datetime :=
  mkdatetime (year d) (month d) (day d) (hour d) (minute d) (second d)
    (microsecond d) (Some off).

(** The insertion and the sort when no comparison raises. *)
Fixpoint place (x : point) (sorted : list point) : list point :=
  match sorted with
  | [] => [x]
  | y :: r => if instant x.1 <? instant y.1 then x :: y :: r else y :: place x r
  end.

Definition place_all (l : list point) : list point :=
  foldl (fun acc x => place x acc) [] l.



(** * Further definitions *)

(** The values that [fromisoformat] returns: the fields in the ranges of the
    constructor, and an offset of less than 24 hours that is zero or at least
    one second long. *)
Definition valid_datetime (d : datetime) : Prop :=
  1 ≤ year d ≤ 9999 ∧ 1 ≤ month d ≤ 12
  ∧ 1 ≤ day d ≤ days_in_month (year d) (month d)
  ∧ 0 ≤ hour d < 24 ∧ 0 ≤ minute d < 60 ∧ 0 ≤ second d < 60
  ∧ 0 ≤ microsecond d < 1000000
  ∧ match tzinfo d with
    | None => True
    | Some off =>
        -86400000000 < off < 86400000000 ∧ (off = 0 ∨ 1000000 ≤ Z.abs off)
    end.

(** The trkpt elements that the extractor of auto_merge_timelines.py keeps:
    the first time child has a text that is not empty, the text parses, and
    the year is not 2000. *)
Definition kept_by_extractor (trkpt : Element) : Prop :=
  ∃ time_elem txt ts,
    find trkpt (gpx "time") = Some time_elem
    ∧ text time_elem = Some txt ∧ txt ≠ []
    ∧ parse_timestamp txt = Some ts ∧ year ts ≠ 2000.

#[global] Instance kept_by_extractor_dec trkpt : Decision (kept_by_extractor trkpt).
Proof.
  unfold kept_by_extractor.
  destruct (find trkpt (gpx "time")) as [time_elem|];
    [|right; by intros (? & ? & ? & ? & _)].
  destruct (text time_elem) as [txt|] eqn:Htxt;
    [|right; intros (? & ? & ? & ? & ? & _); congruence].
  destruct (decide (txt = [])) as [Hnil|Hne];
    [right; intros (? & ? & ? & ? & ? & ? & _); congruence|].
  destruct (parse_timestamp txt) as [ts|] eqn:Hts;
    [|right; intros (? & ? & ? & ? & ? & ? & ? & _); congruence].
  destruct (decide (year ts = 2000)) as [Hy|Hy];
    [right; intros (? & ? & ? & ? & ? & ? & ? & ?); congruence|].
  left. by exists time_elem, txt, ts.
Defined.

(** A file with a point in the year 2000, a point without time, a point whose
    time has a one-digit fraction, and a point whose time does not parse. *)
Definition fraction_trkpt : Element :=
  trkpt "47.5" "19.0" [time_element "2023-06-01T10:00:00.5Z"].

Definition fraction_root : Element :=
  gpx_root [trkpt "47.4" "19.0" [time_element "2000-01-01T00:00:00Z"];
            trkpt "47.6" "19.0" [ele_element "5"];
            fraction_trkpt;
            trkpt "47.7" "19.0" [time_element "yesterday"]].

(** A text of code points up to U+00FF, the range of the tables of the
    normalizer. *)
Definition latin1 (s : str) : Prop := Forall (fun c => (c ≤ 255)%N) s.

(** The fix of [point_Z] with another elevation. *)
Definition point_Z_low : point :=
  (mkdatetime 2023 6 1 10 5 0 0 (Some 0),
   trkpt "47.5" "19.0" [time_element "2023-06-01T10:05:00Z"; ele_element "7"]).

(** A point of year 2000 recorded with the offset [+01:00], and one dated
    29 February 2000. *)
Definition point_2000_offset : point :=
  (mkdatetime 2000 1 1 0 30 0 0 (Some 3600000000),
   trkpt "47.5" "19.0" [time_element "2000-01-01T00:30:00+01:00"]).

Definition point_leap_day : point :=
  (mkdatetime 2000 2 29 12 0 0 0 (Some 0),
   trkpt "47.5" "19.0" [time_element "2000-02-29T12:00:00Z"]).

(** The text of the time child of a point, as [find] and [.text] give it. *)
Definition time_text (p : point) : option str :=
  time_elem ← find p.2 (gpx "time"); text time_elem.

(** The timestamp without fraction and with the offset zero. *)
Definition as_whole_second_utc (d : datetime) : datetime :=
  mkdatetime (year d) (month d) (day d) (hour d) (minute d) (second d) 0 (Some 0).

(** ** phonetrack_timeline_updater.py *)

(** [s.split(sep)] for a one-character separator: one part more than there
    are separators, empty parts included. *)
Fixpoint split_on (sep : N) (s : str) : list str :=
  match s with
  | [] => [[]]
  | c :: r =>
      if N.eqb c sep then [] :: split_on sep r
      else match split_on sep r with
           | [] => [[c]]
           | part :: parts => (c :: part) :: parts
           end
  end.

Definition chr_slash : N := 47%N.
Definition chr_backslash : N := 92%N.

(** parse_nextcloud_path: [(nc_user, session_name, device_name, date_str)]
    or None. *)
Definition parse_nextcloud_path (nc_path : str)
  : option (str * str * str * str) :=
  let parts := split_on chr_slash (replace_char chr_backslash [chr_slash] nc_path) in
  if (length parts <? 3)%nat then None
  else
    let nc_user := default [] (head parts) in
    let filename := default [] (last parts) in
    match DAILY_PATTERN_match filename with
    | None => None
    | Some (session_name, date_str, device_name) =>
        Some (nc_user, session_name, device_name, date_str)
    end.

(** [base / component] of pathlib on POSIX, for [base] the text of a path
    (so without a slash at its end unless it is a root) and a component
    without slash: an empty component and a lone dot leave the path as it
    is, the empty path (written as a dot) and a root take the component
    without a separator. *)
Definition path_join (base component : str) : str :=
  if bool_decide (component = []) || bool_decide (component = [chr_dot]) then base
  else if bool_decide (base = [chr_dot]) then component
  else if bool_decide (base = [chr_slash]) || bool_decide (base = [chr_slash; chr_slash])
       then base ++ component
  else base ++ [chr_slash] ++ component.

Definition TIMELINES_SUBDIR : str := lit "TIMELINES".

(** The timeline path that update_timeline builds. *)
Definition timeline_path_of (data_dir nc_user session_name device_name : str) : str :=
  path_join
    (path_join (path_join (path_join (path_join data_dir nc_user) (lit "files"))
                  (lit "PhoneTrack_export")) TIMELINES_SUBDIR)
    (normalize_text session_name ++ lit "_" ++ normalize_text device_name
     ++ lit "_TIMELINE.gpx").

(** update_timeline: the value returned and the file written, or [None]
    when an exception leaves the function (the sort is not in a try block).
    The call of the rescan command is inside a handler and does not change
    the result. *)
Definition update_timeline (fs : filesystem) (new_file nc_path data_dir : str)
  : option (bool * option timeline_file) :=
  match parse_nextcloud_path nc_path with
  | None => Some (false, None)
  | Some (nc_user, session_name, device_name, date_str) =>
      let timeline_path := timeline_path_of data_dir nc_user session_name device_name in
      let new_points := (collect_track_points fs new_file).1 in
      match new_points with
      | [] => Some (false, None)
      | _ =>
          let existing_points :=
            if decide (is_Some (fs !! timeline_path))
            then (collect_track_points fs timeline_path).1 else [] in
          let all_points := existing_points ++ new_points in
          unique ← sort_by_timestamp (remove_duplicates all_points);
          Some (true, Some (mkTimeline timeline_path session_name device_name unique))
      end
  end.

(** Files with an aware and with a naive timestamp. *)
Definition naive_root : Element :=
  gpx_root [trkpt "47.5" "19.0" [time_element "2023-06-01T10:00:00"]].

Definition kinds_fs : filesystem :=
  {[ lit "aware.gpx" := Wellformed other_root;
     lit "naive.gpx" := Wellformed naive_root ]}.





(** A path of the shape that the workflow passes, and the new export it
    names. *)
Definition sample_nc_path : str :=
  lit "anna/files/PhoneTrack_export/trip_daily_2024-01-02_phone.gpx".

Definition updater_fs : filesystem :=
  {[ lit "/tmp/upload.gpx" := Wellformed other_root;
     timeline_path_of (lit "/mnt/ncdata") (lit "anna") (lit "trip") (lit "phone")
       := Malformed ]}.

(** ** merge_gabor_timelines.py *)

(** collect_track_points of merge_gabor_timelines.py: the loop body of
    auto_merge_timelines.py, with [ET.parse] outside any try block. *)
Definition collect_track_points_gabor (fs : filesystem) (file_path : str)
  : option (list point) :=
  root ← ET_parse fs file_path;
  Some (collect_from_root root).

(** The script body: each list is sorted after it is read, then the two are
    joined, deduplicated, sorted and written; the last line prints
    [unique[0][0]]. *)
Definition merge_gabor_timelines (fs : filesystem) (earlier_file new_file : str)
  : script_result :=
  match
    earlier_points ← collect_track_points_gabor fs earlier_file;
    earlier_points ← sort_by_timestamp earlier_points;
    new_points ← collect_track_points_gabor fs new_file;
    new_points ← sort_by_timestamp new_points;
    sort_by_timestamp (remove_duplicates (earlier_points ++ new_points))
  with
  | None => mkResult None true
  | Some unique => mkResult (Some unique) (bool_decide (unique = []))
  end.

(** ** The lines written for a point

    The body of the loop over the points in write_gpx (the same in
    auto_merge_timelines.py, phonetrack_timeline_updater.py,
    merge_daily_exports.py and merge_gabor_timelines.py) and in
    create_merged_gpx of merge_gpx.py: the lines appended for one point. *)

Definition chr_quote : N := 34%N.

(** [f'{x}'] for a value that may be None. *)
Definition format_value (x : option str) : str := default (lit "None") x.

(** [f'{indent}<{name}>{value}</{name}>'] *)
Definition element_line (indent : string) (name : string) (value : str) : str :=
  lit indent ++ lit "<" ++ lit name ++ lit ">" ++ value
  ++ lit "</" ++ lit name ++ lit ">".

(** [x = e.find(tag)] followed by [if x is not None and x.text:]. *)
Definition find_text (e : Element) (name : string) : option str :=
  elem ← find e (gpx name); nonempty_text elem.

Definition trkpt_line (pt : Element) : str :=
  lit "  <trkpt lat=" ++ [chr_quote] ++ format_value (get pt (lit "lat")) ++ [chr_quote]
  ++ lit " lon=" ++ [chr_quote] ++ format_value (get pt (lit "lon")) ++ [chr_quote]
  ++ lit ">".

Definition extension_tags : list string :=
  ["speed"; "course"; "accuracy"; "batterylevel"; "useragent"]%string.

Definition optional_line (indent : string) (e : Element) (name : string) : list str :=
  match find_text e name with
  | Some value => [element_line indent name value]
  | None => []
  end.

Definition extensions_lines (pt : Element) : list str :=
  match find pt (gpx "extensions") with
  | Some ext =>
      [lit "   <extensions>"]
      ++ flat_map (optional_line "     " ext) extension_tags
      ++ [lit "   </extensions>"]
  | None => []
  end.

(** write_gpx: the time line is written whenever the point has a time
    element, with whatever its text is. *)
Definition write_gpx_point (pt : Element) : list str :=
  [trkpt_line pt]
  ++ match find pt (gpx "time") with
     | Some time_elem => [element_line "   " "time" (format_value (text time_elem))]
     | None => []
     end
  ++ optional_line "   " pt "ele"
  ++ optional_line "   " pt "sat"
  ++ extensions_lines pt
  ++ [lit "  </trkpt>"].

(** create_merged_gpx: the time line needs a non-empty text, and the five
    extension fields are written one after the other in the order of
    [extension_tags]. *)
Definition create_merged_gpx_point (trkpt : Element) : list str :=
  [trkpt_line trkpt]
  ++ optional_line "   " trkpt "time"
  ++ optional_line "   " trkpt "ele"
  ++ optional_line "   " trkpt "sat"
  ++ match find trkpt (gpx "extensions") with
     | Some ext_elem =>
         [lit "   <extensions>"]
         ++ optional_line "     " ext_elem "speed"
         ++ optional_line "     " ext_elem "course"
         ++ optional_line "     " ext_elem "accuracy"
         ++ optional_line "     " ext_elem "batterylevel"
         ++ optional_line "     " ext_elem "useragent"
         ++ [lit "   </extensions>"]
     | None => []
     end
  ++ [lit "  </trkpt>"].

(** The tags of the children that the writers look for. *)
Definition written_tags : list str :=
  [gpx "time"; gpx "ele"; gpx "sat"; gpx "extensions"].

(** A point with children of every kind, one of them unknown to the
    writers. *)
Definition rich_trkpt : Element :=
  mkElement (gpx "trkpt") [(lit "lat", lit "47.5"); (lit "lon", lit "19.0")] None
    [time_element "2023-06-01T10:05:00Z"; ele_element "100";
     mkElement (gpx "hdop") [] (Some (lit "1.2")) [];
     mkElement (gpx "extensions") [] None
       [mkElement (gpx "speed") [] (Some (lit "3")) [];
        mkElement (gpx "note") [] (Some (lit "x")) []]].

(** ** remove_2000_entries.py *)

(** The loop body of collect_track_points with its flag: [None] when the
    point is not appended, and whether it was counted as skipped. *)
Definition collect_one_flagged (skip_year_2000 : bool) (trkpt : Element)
  : option point * bool :=
  match
    time_elem ← find trkpt (gpx "time");
    time_text ← nonempty_text time_elem;
    parse_timestamp time_text
  with
  | Some ts =>
      if skip_year_2000 && (year ts =? 2000) then (None, true)
      else (Some (ts, trkpt), false)
  | None => (None, false)
  end.

(** collect_track_points of remove_2000_entries.py: the points and the number
    of skipped ones; [ET.parse] is outside any try block. *)
Definition collect_track_points_flagged (fs : filesystem) (file_path : str)
    (skip_year_2000 : bool) : option (list point * nat) :=
  root ← ET_parse fs file_path;
  let results := collect_one_flagged skip_year_2000
                   <$> findall_descendants root (gpx "trkpt") in
  Some (omap fst results, length (filter (fun r => r.2 = true) results)).

(** The script body: the first file is read with the flag set, the second
    without. *)
Definition remove_2000_entries (fs : filesystem) (file1 file2 : str) : script_result :=
  match
    '(points1, skipped1) ← collect_track_points_flagged fs file1 true;
    '(points2, _) ← collect_track_points_flagged fs file2 false;
    sort_by_timestamp (remove_duplicates (points1 ++ points2))
  with
  | None => mkResult None true
  | Some unique => mkResult (Some unique) (bool_decide (unique = []))
  end.

(** ** What the two filename patterns accept *)

(** The text is [{session}_daily_{date}_{user}.gpx], possibly followed by
    one newline, with parts that the groups of DAILY_PATTERN can match. *)
Definition daily_shape (f s d u : str) : Prop :=
  (f = s ++ lit "_daily_" ++ d ++ [chr_underscore] ++ u ++ lit ".gpx"
   ∨ f = s ++ lit "_daily_" ++ d ++ [chr_underscore] ++ u ++ lit ".gpx"
         ++ [chr_newline])
  ∧ nonempty s = true ∧ no_newline s = true ∧ is_date d = true
  ∧ nonempty u = true ∧ no_newline u = true.

(** The text is [{session}_{user}.gpx], possibly followed by one newline,
    with parts that the groups of FULL_PATTERN can match. *)
Definition full_shape (f s u : str) : Prop :=
  (f = s ++ [chr_underscore] ++ u ++ lit ".gpx"
   ∨ f = s ++ [chr_underscore] ++ u ++ lit ".gpx" ++ [chr_newline])
  ∧ nonempty s = true ∧ no_newline s = true
  ∧ nonempty u = true ∧ contains_char chr_underscore u = false.

(** * Properties *)

(** ** The duplicate-removal loop *)

Section dedup_facts.
Context {K : Type} `{Countable K}.
Variable kf : point → K.

Lemma dedup_loop_snoc l p :
  dedup_loop kf (l ++ [p]) = dedup_step kf (dedup_loop kf l) p.
Proof. unfold dedup_loop. by rewrite foldl_snoc. Qed.

(** [seen] holds the keys of the points scanned so far. *)
Lemma dedup_seen l : (dedup_loop kf l).1 = list_to_set (kf <$> l).
Proof.
  induction l as [|p l IH] using rev_ind; [done|].
  rewrite dedup_loop_snoc, fmap_app, list_to_set_app_L. unfold dedup_step.
  case_decide as Hin; simpl; rewrite IH in *; set_solver.
Qed.

Lemma dedup_unique_snoc l p :
  (dedup_loop kf (l ++ [p])).2
  = (dedup_loop kf l).2 ++ (if decide (kf p ∈ kf <$> l) then [] else [p]).
Proof.
  rewrite dedup_loop_snoc. unfold dedup_step. rewrite dedup_seen.
  case_decide as Hin; case_decide as Hin'; simpl;
    rewrite ?app_nil_r; try done; set_solver.
Qed.

Lemma dedup_unique_sublist l : (dedup_loop kf l).2 `sublist_of` l.
Proof.
  induction l as [|p l IH] using rev_ind; [done|].
  rewrite dedup_unique_snoc. case_decide.
  - rewrite app_nil_r. by apply sublist_inserts_r.
  - by apply sublist_app.
Qed.

Lemma dedup_unique_keys l k :
  k ∈ kf <$> (dedup_loop kf l).2 ↔ k ∈ kf <$> l.
Proof.
  induction l as [|p l IH] using rev_ind; [done|].
  rewrite dedup_unique_snoc, !fmap_app, !elem_of_app, IH.
  case_decide; set_solver.
Qed.

Lemma dedup_unique_NoDup l : NoDup (kf <$> (dedup_loop kf l).2).
Proof.
  induction l as [|p l IH] using rev_ind; [constructor|].
  rewrite dedup_unique_snoc. case_decide as Hin.
  - by rewrite app_nil_r.
  - rewrite fmap_app. apply NoDup_app. split_and!; [done| |apply NoDup_singleton].
    intros k Hk. rewrite dedup_unique_keys in Hk. set_solver.
Qed.

(** A list without two equal keys passes the loop unchanged. *)
Lemma dedup_unique_id l : NoDup (kf <$> l) → (dedup_loop kf l).2 = l.
Proof.
  induction l as [|p l IH] using rev_ind; [done|].
  rewrite fmap_app, NoDup_app. intros (Hl & Hdis & _).
  rewrite dedup_unique_snoc, IH by done.
  case_decide as Hin; [|done]. exfalso. apply (Hdis _ Hin). set_solver.
Qed.

(** Points whose keys were all seen before add nothing. *)
Lemma dedup_unique_absorb l m :
  (∀ p, p ∈ m → kf p ∈ kf <$> l) →
  (dedup_loop kf (l ++ m)).2 = (dedup_loop kf l).2.
Proof.
  induction m as [|p m IH] using rev_ind; intros Hm.
  - by rewrite app_nil_r.
  - rewrite app_assoc, dedup_unique_snoc, IH by set_solver.
    rewrite decide_True, app_nil_r; [done|].
    rewrite fmap_app. set_solver.
Qed.

(** The points of a prefix survive in the same order. *)
Lemma dedup_unique_app l m :
  ∃ m', (dedup_loop kf (l ++ m)).2 = (dedup_loop kf l).2 ++ m' ∧ m' `sublist_of` m.
Proof.
  induction m as [|p m IH] using rev_ind.
  - exists []. by rewrite !app_nil_r.
  - destruct IH as (m' & Heq & Hsub).
    rewrite app_assoc, dedup_unique_snoc, Heq. case_decide.
    + exists m'. rewrite app_nil_r. split; [done|]. by apply sublist_inserts_r.
    + exists (m' ++ [p]). rewrite app_assoc. split; [done|]. by apply sublist_app.
Qed.
End dedup_facts.

(** ** Comparison of timestamps *)

Lemma dt_lt_same_kind a b :
  aware a = aware b → dt_lt a b = Some (instant a <? instant b).
Proof. unfold aware, dt_lt. by destruct (tzinfo a), (tzinfo b). Qed.

Lemma dt_lt_other_kind a b : aware a ≠ aware b → dt_lt a b = None.
Proof. unfold aware, dt_lt. by destruct (tzinfo a), (tzinfo b). Qed.

(** ** The sort *)

Lemma sort_by_timestamp_snoc l x :
  sort_by_timestamp (l ++ [x]) = sort_by_timestamp l ≫= insert_by_timestamp x.
Proof. unfold sort_by_timestamp. by rewrite foldl_snoc. Qed.

Lemma place_all_snoc l x : place_all (l ++ [x]) = place x (place_all l).
Proof. unfold place_all. by rewrite foldl_snoc. Qed.

Lemma place_perm x l : place x l ≡ₚ x :: l.
Proof.
  induction l as [|y l IH]; simpl; [done|].
  case_match; [done|]. by rewrite IH, Permutation_swap.
Qed.

Lemma place_all_perm l : place_all l ≡ₚ l.
Proof.
  induction l as [|x l IH] using rev_ind; [done|].
  by rewrite place_all_snoc, place_perm, IH, Permutation_cons_append.
Qed.

Lemma place_sorted x l :
  StronglySorted ts_le l → StronglySorted ts_le (place x l).
Proof.
  induction l as [|y l IH]; simpl; intros Hs.
  - repeat constructor.
  - apply StronglySorted_cons in Hs as [Hy Hl].
    case_match eqn:Hlt.
    + apply Z.ltb_lt in Hlt. apply StronglySorted_cons. split.
      * constructor; [unfold ts_le; lia|].
        eapply Forall_impl; [exact Hy|]. unfold ts_le. intros; simpl in *; lia.
      * by apply StronglySorted_cons.
    + apply Z.ltb_ge in Hlt. apply StronglySorted_cons. split; [|by apply IH].
      rewrite place_perm. by constructor.
Qed.

Lemma place_all_sorted l : StronglySorted ts_le (place_all l).
Proof.
  induction l as [|x l IH] using rev_ind; [constructor|].
  rewrite place_all_snoc. by apply place_sorted.
Qed.

(** An element that is not smaller than any other goes to the end. *)
Lemma place_last x l : Forall (fun y => ts_le y x) l → place x l = l ++ [x].
Proof.
  induction 1 as [|y l Hy _ IH]; simpl; [done|].
  unfold ts_le in Hy. rewrite (proj2 (Z.ltb_ge _ _)) by lia. by rewrite IH.
Qed.

(** A sorted list is left as it is. *)
Lemma place_all_sorted_id l : StronglySorted ts_le l → place_all l = l.
Proof.
  induction l as [|x l IH] using rev_ind; [done|]. intros Hs.
  apply StronglySorted_app in Hs as (Hlx & Hl & _).
  rewrite place_all_snoc, IH by done. apply place_last.
  apply Forall_forall. intros y Hy. apply Hlx; [done|set_solver].
Qed.

Lemma filter_none {A} (P : A → Prop) `{∀ x, Decision (P x)} (l : list A) :
  Forall (fun x => ¬ P x) l → filter P l = [].
Proof.
  induction 1 as [|x l Hx _ IH]; [done|]. by rewrite filter_cons_False.
Qed.

(** Stability of one insertion: among the points of one instant the new
    point comes last. *)
Lemma place_filter t x l :
  StronglySorted ts_le l →
  filter (fun p => instant p.1 = t) (place x l)
  = filter (fun p => instant p.1 = t) l ++ filter (fun p => instant p.1 = t) [x].
Proof.
  induction l as [|y l IH]; simpl; intros Hs; [done|].
  apply StronglySorted_cons in Hs as [Hy Hl].
  case_match eqn:Hlt.
  - apply Z.ltb_lt in Hlt.
    assert (Hgt : Forall (fun p => instant x.1 < instant p.1) (y :: l)).
    { constructor; [done|]. eapply Forall_impl; [exact Hy|].
      unfold ts_le. intros; simpl in *; lia. }
    rewrite (filter_cons _ x). case_decide as Hx.
    + rewrite (filter_none _ (y :: l)).
      * by rewrite filter_singleton_True.
      * eapply Forall_impl; [exact Hgt|]. intros; simpl in *; lia.
    + by rewrite filter_singleton_False, app_nil_r.
  - rewrite !(filter_cons _ y). case_decide; simpl; by rewrite IH.
Qed.

Lemma place_all_filter t l :
  filter (fun p => instant p.1 = t) (place_all l) = filter (fun p => instant p.1 = t) l.
Proof.
  induction l as [|x l IH] using rev_ind; [done|].
  rewrite place_all_snoc, place_filter, IH, filter_app; [done|].
  apply place_all_sorted.
Qed.

Lemma insert_same_kind b x l :
  aware x.1 = b → all_of_kind b l → insert_by_timestamp x l = Some (place x l).
Proof.
  intros Hx. induction 1 as [|y l Hy _ IH]; simpl; [done|].
  rewrite dt_lt_same_kind by congruence. simpl.
  case_match; [done|]. by rewrite IH.
Qed.

Lemma insert_other_kind b x l :
  aware x.1 ≠ b → all_of_kind b l → l ≠ [] → insert_by_timestamp x l = None.
Proof.
  intros Hx Hl Hne. destruct Hl as [|y l Hy _]; [done|]. simpl.
  rewrite dt_lt_other_kind by congruence. done.
Qed.

Lemma sort_same_kind b l :
  all_of_kind b l → sort_by_timestamp l = Some (place_all l).
Proof.
  induction l as [|x l IH] using rev_ind; [done|]. intros Hl.
  apply Forall_app in Hl as [Hl Hx]. rewrite Forall_singleton in Hx.
  rewrite sort_by_timestamp_snoc, place_all_snoc, IH by done. simpl.
  apply (insert_same_kind b); [exact Hx|].
  unfold all_of_kind. by rewrite place_all_perm.
Qed.

Lemma kind_or_mixed l : (∃ b, all_of_kind b l) ∨ mixed l.
Proof.
  induction l as [|x l [[b Hb]|(p & q & Hp & Hq & Hpa & Hqa)]].
  - left. exists true. constructor.
  - destruct (decide (aware x.1 = b)) as [Hx|Hx].
    + left. exists b. by constructor.
    + destruct l as [|y l].
      * left. exists (aware x.1). by repeat constructor.
      * right. apply Forall_cons in Hb as [Hy _].
        destruct (aware x.1) eqn:Ex.
        -- exists x, y. split_and!; [set_solver..|done|]. destruct b; congruence.
        -- exists y, x. split_and!; [set_solver..| |done].
           destruct b; congruence.
  - right. exists p, q. split_and!; [set_solver..|done|done].
Qed.

Lemma mixed_not_kind b l : mixed l → ¬ all_of_kind b l.
Proof.
  intros (p & q & Hp & Hq & Hpa & Hqa) Hb. unfold all_of_kind in Hb.
  rewrite Forall_forall in Hb. pose proof (Hb p Hp). pose proof (Hb q Hq).
  simpl in *. congruence.
Qed.

Lemma sort_mixed l : mixed l → sort_by_timestamp l = None.
Proof.
  induction l as [|x l IH] using rev_ind.
  - intros (p & _ & Hp & _). by apply elem_of_nil in Hp.
  - intros Hm. rewrite sort_by_timestamp_snoc.
    destruct (kind_or_mixed l) as [[b Hb]|Hl]; [|by rewrite IH].
    rewrite (sort_same_kind b) by done. simpl.
    apply (insert_other_kind b).
    + intros Hx. apply (mixed_not_kind b _ Hm). apply Forall_app. split; [done|].
      by apply Forall_singleton.
    + unfold all_of_kind. by rewrite place_all_perm.
    + intros Hnil. destruct Hm as (p & q & Hp & Hq & Hpa & Hqa).
      assert (l = []) as ->.
      { apply Permutation_nil_r. by rewrite <- Hnil, place_all_perm. }
      simpl in Hp, Hq. apply list_elem_of_singleton in Hp, Hq. congruence.
Qed.

(** The sort raises exactly on mixed lists; otherwise it returns
    [place_all]. *)
Lemma sort_None_iff l : sort_by_timestamp l = None ↔ mixed l.
Proof.
  split; [|apply sort_mixed]. intros Hn.
  destruct (kind_or_mixed l) as [[b Hb]|Hl]; [|done].
  by rewrite (sort_same_kind b) in Hn.
Qed.

Lemma sort_Some l r : sort_by_timestamp l = Some r → r = place_all l ∧ ¬ mixed l.
Proof.
  intros Hs. destruct (kind_or_mixed l) as [[b Hb]|Hl].
  - rewrite (sort_same_kind b) in Hs by done. split; [congruence|].
    intros Hm. by apply (mixed_not_kind b l).
  - rewrite sort_mixed in Hs; done.
Qed.

(** ** Consolidation *)

Lemma consolidate_Some E Ls R :
  consolidate E Ls = Some R →
  R = place_all (remove_duplicates (E ++ concat Ls))
  ∧ ¬ mixed (remove_duplicates (E ++ concat Ls)).
Proof. apply sort_Some. Qed.

Lemma mixed_perm l l' : l ≡ₚ l' → mixed l → mixed l'.
Proof.
  intros Hp (p & q & Hpl & Hql & Ha). exists p, q. by rewrite <- Hp.
Qed.

Lemma sort_sorted_id l :
  ¬ mixed l → StronglySorted ts_le l → sort_by_timestamp l = Some l.
Proof.
  intros Hm Hs. destruct (kind_or_mixed l) as [[b Hb]|]; [|done].
  by rewrite (sort_same_kind b), place_all_sorted_id.
Qed.

Lemma consolidate_keys_NoDup E Ls R :
  consolidate E Ls = Some R → NoDup (identity_key <$> R).
Proof.
  intros [-> _]%consolidate_Some. rewrite place_all_perm.
  apply dedup_unique_NoDup.
Qed.

Lemma StronglySorted_adjacent {A} (R : relation A) l i x y :
  StronglySorted R l → l !! i = Some x → l !! S i = Some y → R x y.
Proof.
  intros Hs. revert i. induction Hs as [|z l Hs IH Hz]; intros i Hx Hy; [done|].
  destruct i as [|i]; simpl in *.
  - simplify_eq. rewrite Forall_forall in Hz. apply Hz.
    by eapply list_elem_of_lookup_2.
  - eauto.
Qed.

(** ** Extraction and loading *)

Lemma collect_one_year trkpt p : collect_one trkpt = Some p → year p.1 ≠ 2000.
Proof.
  unfold collect_one. intros Hc.
  destruct (find trkpt (gpx "time")) as [te|]; simpl in Hc; [|done].
  destruct (nonempty_text te) as [txt|]; simpl in Hc; [|done].
  destruct (parse_timestamp txt) as [ts|]; simpl in Hc; [|done].
  destruct (year ts =? 2000) eqn:Hy; [done|].
  apply Z.eqb_neq in Hy. by simplify_eq.
Qed.

Lemma collect_track_points_year fs f p :
  p ∈ (collect_track_points fs f).1 → year p.1 ≠ 2000.
Proof.
  unfold collect_track_points. destruct (ET_parse fs f); simpl.
  - unfold collect_from_root. intros (t & _ & Ht)%list_elem_of_omap.
    by eapply collect_one_year.
  - by intros ?%elem_of_nil.
Qed.

(** The points that merge_group loads from the source files: those of each
    file, in the order of the files. *)
Lemma load_files_points fs files :
  (load_files fs files).1 = files ≫= (fun f => (collect_track_points fs f).1).
Proof.
  induction files as [|f files IH]; [done|].
  rewrite bind_cons, <- IH. simpl.
  destruct (collect_track_points fs f) as [points w].
  destruct (load_files fs files) as [more w']. by destruct points.
Qed.

Lemma load_existing_year fs ex p :
  p ∈ (load_existing fs ex).1 → year p.1 ≠ 2000.
Proof.
  unfold load_existing. destruct ex as [e|]; [|by intros ?%elem_of_nil].
  case_decide; [|by intros ?%elem_of_nil].
  pose proof (collect_track_points_year fs e p) as Hy.
  by destruct (collect_track_points fs e).
Qed.

Lemma merge_group_outcome fs files out s u ex :
  (merge_group fs files out s u ex).1
  = outcome_of out s u ((load_existing fs ex).1 ++ (load_files fs files).1).
Proof.
  unfold merge_group, outcome_of.
  destruct (load_existing fs ex) as [existing w1].
  destruct (load_files fs files) as [loaded w2]. simpl.
  destruct (existing ++ loaded); [done|].
  by destruct (sort_by_timestamp _).
Qed.

Lemma sort_elem_of l r p : sort_by_timestamp l = Some r → p ∈ r → p ∈ l.
Proof. intros [-> _]%sort_Some. by rewrite place_all_perm. Qed.

Lemma remove_duplicates_elem_of l p : p ∈ remove_duplicates l → p ∈ l.
Proof. intros Hp. eapply elem_of_sublist; [exact Hp|apply dedup_unique_sublist]. Qed.

(** ** Filename patterns *)

Lemma starts_with_spec pre s :
  starts_with pre s = true → s = pre ++ drop (length pre) s.
Proof.
  revert s. induction pre as [|a pre IH]; intros [|b s]; simpl; try done.
  intros [->%N.eqb_eq Hs]%andb_prop. f_equal. by apply IH.
Qed.

Lemma strip_gpx_tail_Some f body :
  strip_gpx_tail f = Some body →
  f = body ++ lit ".gpx" ∨ f = body ++ lit ".gpx" ++ [chr_newline].
Proof.
  unfold strip_gpx_tail. intros Hs.
  destruct (starts_with (reverse (lit ".gpx")) (reverse f)) eqn:H1.
  - left. apply starts_with_spec in H1. simplify_eq.
    apply (inj reverse). rewrite reverse_app, reverse_involutive. exact H1.
  - destruct (starts_with (chr_newline :: reverse (lit ".gpx")) (reverse f)) eqn:H2;
      [|done].
    right. apply starts_with_spec in H2. simplify_eq.
    apply (inj reverse). rewrite !reverse_app, reverse_involutive. exact H2.
Qed.

Lemma last_elem_of {A} (l : list A) x : last l = Some x → x ∈ l.
Proof.
  intros Hl. apply last_Some in Hl as [l' ->]. set_solver.
Qed.

Lemma full_candidates_sound pre rest s u :
  (s, u) ∈ full_candidates pre rest →
  pre ++ rest = s ++ [chr_underscore] ++ u
  ∧ nonempty s = true ∧ nonempty u = true
  ∧ contains_char chr_underscore u = false.
Proof.
  revert pre. induction rest as [|c r IH]; intros pre.
  - simpl. by intros ?%elem_of_nil.
  - cbn [full_candidates]. intros [Hin|Hin]%elem_of_app.
    + destruct (starts_with [chr_underscore] (c :: r)) eqn:H1; simpl in Hin;
        [|by apply elem_of_nil in Hin].
      apply starts_with_spec in H1. simpl in H1. rewrite drop_0 in *.
      destruct (nonempty r) eqn:Hr; simpl in Hin; [|by apply elem_of_nil in Hin].
      destruct (contains_char chr_underscore r) eqn:Hu; simpl in Hin;
        [by apply elem_of_nil in Hin|].
      destruct (nonempty pre) eqn:Hp; simpl in Hin; [|by apply elem_of_nil in Hin].
      destruct (no_newline pre); simpl in Hin; [|by apply elem_of_nil in Hin].
      apply list_elem_of_singleton in Hin. by simplify_eq.
    + apply IH in Hin as (Heq & ?). by rewrite <- app_assoc in Heq.
Qed.

Lemma daily_rest_Some rest d u :
  daily_rest rest = Some (d, u) →
  rest = lit "_daily_" ++ d ++ [chr_underscore] ++ u
  ∧ is_date d = true ∧ nonempty u = true.
Proof.
  unfold daily_rest. intros Hd. case_match eqn:Hc; [|done]. simplify_eq.
  apply andb_prop in Hc as [Hc _]. apply andb_prop in Hc as [Hc H4].
  apply andb_prop in Hc as [Hc H3]. apply andb_prop in Hc as [H1 H2].
  split; [|done].
  apply starts_with_spec in H1, H3. rewrite drop_drop in H3.
  rewrite H1 at 1. f_equal.
  change (length (lit "_daily_")) with 7%nat.
  rewrite <- (take_drop 10 (drop 7 rest)) at 1. f_equal.
  rewrite drop_drop. exact H3.
Qed.

Lemma daily_candidates_sound pre rest s d u :
  (s, d, u) ∈ daily_candidates pre rest →
  pre ++ rest = s ++ lit "_daily_" ++ d ++ [chr_underscore] ++ u
  ∧ nonempty s = true ∧ is_date d = true ∧ nonempty u = true.
Proof.
  revert pre. induction rest as [|c r IH]; intros pre.
  - simpl. by intros ?%elem_of_nil.
  - cbn [daily_candidates]. intros [Hin|Hin]%elem_of_app.
    + destruct (daily_rest (c :: r)) as [[d' u']|] eqn:Hd;
        [|by apply elem_of_nil in Hin].
      destruct (nonempty pre) eqn:Hp; simpl in Hin; [|by apply elem_of_nil in Hin].
      destruct (no_newline pre); simpl in Hin; [|by apply elem_of_nil in Hin].
      apply list_elem_of_singleton in Hin. simplify_eq.
      apply daily_rest_Some in Hd as (-> & ? & ?). done.
    + apply IH in Hin as (Heq & ?). by rewrite <- app_assoc in Heq.
Qed.

Lemma FULL_PATTERN_match_Some f s u :
  FULL_PATTERN_match f = Some (s, u) →
  (f = s ++ [chr_underscore] ++ u ++ lit ".gpx"
   ∨ f = s ++ [chr_underscore] ++ u ++ lit ".gpx" ++ [chr_newline])
  ∧ nonempty s = true ∧ nonempty u = true
  ∧ contains_char chr_underscore u = false.
Proof.
  unfold FULL_PATTERN_match. intros Hm.
  destruct (strip_gpx_tail f) as [body|] eqn:Hb; simpl in Hm; [|done].
  apply last_elem_of, full_candidates_sound in Hm as (Heq & ? & ? & ?).
  simpl in Heq. split; [|done].
  apply strip_gpx_tail_Some in Hb as [->| ->]; rewrite Heq; [left|right];
    rewrite <- app_assoc; reflexivity.
Qed.

Lemma DAILY_PATTERN_match_Some f s d u :
  DAILY_PATTERN_match f = Some (s, d, u) →
  (f = s ++ lit "_daily_" ++ d ++ [chr_underscore] ++ u ++ lit ".gpx"
   ∨ f = s ++ lit "_daily_" ++ d ++ [chr_underscore] ++ u ++ lit ".gpx"
         ++ [chr_newline])
  ∧ nonempty s = true ∧ is_date d = true ∧ nonempty u = true.
Proof.
  unfold DAILY_PATTERN_match. intros Hm.
  destruct (strip_gpx_tail f) as [body|] eqn:Hb; simpl in Hm; [|done].
  apply last_elem_of, daily_candidates_sound in Hm as (Heq & ? & ? & ?).
  rewrite app_nil_l in Heq. split; [|done].
  apply strip_gpx_tail_Some in Hb as [->| ->]; rewrite Heq; [left|right];
    rewrite <- !app_assoc; reflexivity.
Qed.

(** ** Grouping *)

Lemma scan_and_group_files_snoc found f :
  scan_and_group_files (found ++ [f]) = group_step (scan_and_group_files found) f.
Proof. unfold scan_and_group_files. by rewrite foldl_snoc. Qed.

(** The dict after the scan: under each key, the files of that key in scan
    order, with the names read from the first of them. *)
Lemma scan_and_group_files_lookup found k :
  scan_and_group_files found !! k
  = group_of (filter (fun f => file_key f = Some k) found).
Proof.
  induction found as [|f found IH] using rev_ind; [done|].
  rewrite scan_and_group_files_snoc, filter_app, (filter_singleton _ f []).
  unfold group_step.
  destruct (parse_filename (path_name f)) as [[[s u] d]|] eqn:Hp.
  - set (k0 := (lower (normalize_text s), lower (normalize_text u))).
    assert (Hk : file_key f = Some k0) by (unfold file_key; by rewrite Hp).
    rewrite Hk. destruct (decide (k0 = k)) as [Heq|Hne].
    + rewrite decide_True by congruence. rewrite Heq, IH.
      destruct (filter _ found) as [|f0 fs] eqn:Hf; simpl.
      * rewrite lookup_insert_eq. unfold display_names. by rewrite Hp.
      * by rewrite lookup_insert_eq.
    + rewrite decide_False by congruence. rewrite app_nil_r.
      destruct (scan_and_group_files found !! k0) as [[[s0 u0] fs0]|];
        by rewrite lookup_insert_ne.
  - assert (Hk : file_key f = None) by (unfold file_key; by rewrite Hp).
    rewrite Hk, decide_False by done. by rewrite app_nil_r.
Qed.

(** ** Timestamp texts *)

Lemma replace_char_app c new s t :
  replace_char c new (s ++ t) = replace_char c new s ++ replace_char c new t.
Proof. unfold replace_char. apply flat_map_app. Qed.

Lemma replace_char_absent c new s :
  contains_char c s = false → replace_char c new s = s.
Proof.
  induction s as [|x s IH]; [done|]. simpl.
  intros [Hx Hs]%orb_false_elim. rewrite N.eqb_sym, Hx. simpl. by rewrite IH.
Qed.

Lemma contains_char_app c s t :
  contains_char c (s ++ t) = contains_char c s || contains_char c t.
Proof. unfold contains_char. apply existsb_app. Qed.

(** The two spellings of a zero offset are read alike. *)
Lemma parse_timestamp_Z_suffix s :
  parse_timestamp (s ++ lit "Z") = parse_timestamp (s ++ lit "+00:00").
Proof.
  unfold parse_timestamp. rewrite !contains_char_app, !replace_char_app.
  change (contains_char chr_Z (lit "Z")) with true.
  change (contains_char chr_Z (lit "+00:00")) with false.
  change (replace_char chr_Z (lit "+00:00") (lit "Z")) with (lit "+00:00").
  change (replace_char chr_Z (lit "+00:00") (lit "+00:00")) with (lit "+00:00").
  rewrite orb_true_r, orb_false_r.
  destruct (contains_char chr_Z s) eqn:Hs; [done|].
  by rewrite replace_char_absent.
Qed.

(** *** Digits and bytes *)

Lemma digit_val_ascii c :
  is_ascii_digit c = true → digit_val c = Some (Z.of_N c - 48).
Proof. unfold is_ascii_digit, digit_val. by intros ->. Qed.

Lemma is_ascii_digit_bounds c : is_ascii_digit c = true ↔ (48 ≤ c ≤ 57)%N.
Proof.
  unfold is_ascii_digit. rewrite andb_true_iff, !N.leb_le. done.
Qed.

Lemma is_surrogate_ascii c : (c < 128)%N → is_surrogate c = false.
Proof.
  intros Hc. unfold is_surrogate. apply andb_false_intro1, N.leb_gt. lia.
Qed.

Lemma utf8_ascii c : (c < 128)%N → utf8 c = [c].
Proof. intros Hc. unfold utf8. by rewrite (proj2 (N.ltb_lt _ _) Hc). Qed.

Lemma utf8_digit c : is_ascii_digit c = true → utf8 c = [c].
Proof. intros Hc%is_ascii_digit_bounds. apply utf8_ascii. lia. Qed.

Lemma bind_utf8_ascii (s : str) :
  Forall (fun c => (c < 128)%N) s → s ≫= utf8 = s.
Proof.
  induction 1 as [|c s Hc _ IH]; [done|].
  rewrite bind_cons, IH, utf8_ascii by done. done.
Qed.

Lemma is_tz_start_ascii c : is_tz_start c = true → (c < 128)%N.
Proof.
  unfold is_tz_start, chr_Z, chr_plus, chr_dash.
  rewrite !orb_true_iff, !N.eqb_eq. lia.
Qed.

Lemma existsb_tz_utf8_char c : existsb is_tz_start (utf8 c) = is_tz_start c.
Proof.
  destruct (N.ltb_spec c 128) as [Hc|Hc].
  - rewrite utf8_ascii by done. simpl. apply orb_false_r.
  - assert (Hno : ∀ b, (128 ≤ b)%N → is_tz_start b = false).
    { intros b Hb. destruct (is_tz_start b) eqn:Heq; [|done].
      apply is_tz_start_ascii in Heq. lia. }
    rewrite (Hno c Hc). unfold utf8.
    repeat case_match; cbn [existsb]; rewrite ?Hno; try done;
      (etrans; [|apply N.le_add_r]); done.
Qed.

Lemma existsb_tz_utf8 (s : str) :
  existsb is_tz_start (s ≫= utf8) = existsb is_tz_start s.
Proof.
  induction s as [|c s IH]; [done|].
  rewrite bind_cons, existsb_app, IH, existsb_tz_utf8_char. done.
Qed.

Lemma utf8_not_nil c : utf8 c ≠ [].
Proof. unfold utf8. by repeat case_match. Qed.

(** The width that is read off the first byte of a character is the number
    of its bytes. *)
Lemma drop_separator c (r : list N) :
  drop (separator_width (byte_at (utf8 c ++ r) 0)) (utf8 c ++ r) = r.
Proof.
  assert (Hw : separator_width (byte_at (utf8 c ++ r) 0) = length (utf8 c)).
  { unfold utf8, separator_width, byte_at.
    destruct (N.ltb_spec c 128) as [H1|H1]; simpl.
    { by rewrite (proj2 (N.ltb_lt _ _) H1). }
    destruct (N.ltb_spec c 2048) as [H2|H2]; simpl.
    { assert (Hq : (c / 64 < 32)%N) by (apply N.Div0.div_lt_upper_bound; lia).
      revert Hq. generalize (c / 64)%N. intros q Hq.
      rewrite (proj2 (N.ltb_ge (192 + q) 128)) by lia.
      rewrite (proj2 (N.leb_gt 224 (192 + q))) by lia. cbn [andb].
      by rewrite (proj2 (N.leb_gt 240 (192 + q))) by lia. }
    destruct (N.ltb_spec c 65536) as [H3|H3]; simpl.
    { assert (Hq : (c / 4096 < 16)%N) by (apply N.Div0.div_lt_upper_bound; lia).
      revert Hq. generalize (c / 4096)%N. intros q Hq.
      rewrite (proj2 (N.ltb_ge (224 + q) 128)) by lia.
      rewrite (proj2 (N.leb_le 224 (224 + q))) by lia.
      by rewrite (proj2 (N.ltb_lt (224 + q) 240)) by lia. }
    generalize (c / 262144)%N. intros q.
    rewrite (proj2 (N.ltb_ge (240 + q) 128)) by lia.
    rewrite (proj2 (N.ltb_ge (240 + q) 240)) by lia.
    rewrite andb_false_r.
    by rewrite (proj2 (N.leb_le 240 (240 + q))) by lia. }
  rewrite Hw. by rewrite drop_app_length.
Qed.

Lemma parse_digits_digits ds (r : list N) acc :
  forallb is_ascii_digit ds = true →
  parse_digits (length ds) (ds ++ r) acc
  = Some (foldl (fun acc c => acc * 10 + (Z.of_N c - 48)) acc ds, r).
Proof.
  revert acc. induction ds as [|c ds IH]; intros acc; [done|]. simpl.
  intros [Hc Hds]%andb_prop. rewrite (digit_val_ascii c Hc). simpl. by apply IH.
Qed.

Lemma parse_digits_2 a b (r : list N) :
  is_ascii_digit a = true → is_ascii_digit b = true →
  parse_digits 2 (a :: b :: r) 0 = Some (digits_value [a; b], r).
Proof.
  intros Ha Hb. apply (parse_digits_digits [a; b] r 0). simpl. by rewrite Ha, Hb.
Qed.

Lemma parse_digits_4 a b c d (r : list N) :
  is_ascii_digit a = true → is_ascii_digit b = true →
  is_ascii_digit c = true → is_ascii_digit d = true →
  parse_digits 4 (a :: b :: c :: d :: r) 0 = Some (digits_value [a; b; c; d], r).
Proof.
  intros Ha Hb Hc Hd. apply (parse_digits_digits [a; b; c; d] r 0). simpl.
  by rewrite Ha, Hb, Hc, Hd.
Qed.

(** *** Texts that begin with a calendar date *)

Lemma split_at_tz_spec p :
  ∃ tstr tzstr, split_at_tz p = (tstr, tzstr) ∧ p = tstr ++ tzstr
    ∧ existsb is_tz_start tstr = false
    ∧ match tzstr with [] => True | c :: _ => is_tz_start c = true end.
Proof.
  induction p as [|c p (a & b & Hs & Hp & Ha & Hb)]; simpl.
  - by exists [], [].
  - destruct (is_tz_start c) eqn:Hc.
    + exists [], (c :: p). done.
    + rewrite Hs. exists (c :: a), b. simpl. rewrite Hc, Ha, Hp. done.
Qed.

Lemma split_at_tz_app tstr c r :
  existsb is_tz_start tstr = false → is_tz_start c = true →
  split_at_tz (tstr ++ c :: r) = (tstr, c :: r).
Proof.
  intros Ht Hc. induction tstr as [|x tstr IH]; simpl.
  - by rewrite Hc.
  - simpl in Ht. apply orb_false_elim in Ht as [Hx Ht].
    rewrite Hx, IH by done. done.
Qed.

Lemma split_at_tz_none tstr :
  existsb is_tz_start tstr = false → split_at_tz tstr = (tstr, []).
Proof.
  induction tstr as [|x tstr IH]; simpl; [done|].
  intros [Hx Ht]%orb_false_elim. rewrite Hx, IH by done. done.
Qed.

(** The time carries an offset exactly when a [Z] or a sign stands in it. *)
Lemma parse_isoformat_time_tz p t tz :
  parse_isoformat_time p = Some (t, tz) →
  match tz with Some _ => true | None => false end = existsb is_tz_start p.
Proof.
  unfold parse_isoformat_time. destruct p as [|c0 p0]; [done|].
  destruct (split_at_tz_spec (c0 :: p0)) as (a & b & -> & Hp & Ha & Hb).
  rewrite Hp, existsb_app, Ha. simpl.
  destruct (parse_hh_mm_ss_ff a (peek b 0)) as [t0|]; simpl; [|done].
  destruct b as [|c r].
  - case_match; [done|]. intros ?. by simplify_eq.
  - simpl. rewrite Hb. simpl.
    destruct (N.eqb c chr_Z); [case_match; [|done]; intros ?; by simplify_eq|].
    destruct (parse_hh_mm_ss_ff r 0) as [tz0|]; simpl; [|done].
    case_match; [done|]. intros ?. by simplify_eq.
Qed.

Lemma new_datetime_Some y mo d h mi s us tz x :
  new_datetime y mo d h mi s us tz = Some x →
  x = mkdatetime y mo d h mi s us tz.
Proof. unfold new_datetime. case_match; [|done]. by intros [= <-]. Qed.

Lemma tzinfo_from_isoformat_results_kind tz tzinfo :
  tzinfo_from_isoformat_results tz = Some tzinfo →
  match tzinfo with Some _ => true | None => false end
  = match tz with Some _ => true | None => false end.
Proof.
  unfold tzinfo_from_isoformat_results. destruct tz as [[a b]|].
  - repeat case_match; try done; by intros [= <-].
  - by intros [= <-].
Qed.

(** [fromisoformat] on a text that begins with a calendar date: the next
    character is the separator, whatever it is, and the rest is the time. *)
Lemma fromisoformat_calendar y1 y2 y3 y4 m1 m2 d1 d2 (r : str) :
  forallb is_ascii_digit [y1; y2; y3; y4; m1; m2; d1; d2] = true →
  fromisoformat
    (y1 :: y2 :: y3 :: y4 :: chr_dash :: m1 :: m2 :: chr_dash :: d1 :: d2 :: r)
  = if existsb is_surrogate (tail r) then None
    else
      '(t, tz) ← match r with
                 | [] => Some (mkTime 0 0 0 0 false, None)
                 | _ :: time => parse_isoformat_time (time ≫= utf8)
                 end;
      tzinfo ← tzinfo_from_isoformat_results tz;
      new_datetime (digits_value [y1; y2; y3; y4]) (digits_value [m1; m2])
        (digits_value [d1; d2]) (t_hour t) (t_minute t) (t_second t)
        (t_microsecond t) tzinfo.
Proof.
  intros H. cbn [forallb] in H.
  repeat (apply andb_prop in H as [? H]). clear H.
  assert (Hsur : ∀ c, is_ascii_digit c = true → is_surrogate c = false).
  { intros c Hc%is_ascii_digit_bounds. apply is_surrogate_ascii. lia. }
  assert (HW : ∀ c, is_ascii_digit c = true → N.eqb c chr_W = false).
  { intros c Hc%is_ascii_digit_bounds. apply N.eqb_neq. unfold chr_W. lia. }
  set (D := fun time : list N =>
    y1 :: y2 :: y3 :: y4 :: chr_dash :: m1 :: m2 :: chr_dash :: d1 :: d2 :: time).
  assert (Hclean : ∃ c' : list N,
    sanitize_isoformat_str [7; 8; 10]%nat (D r) = D (c' ++ tail r)
    ∧ existsb is_surrogate c' = false
    ∧ length c' = length (take 1 r)).
  { unfold D. cbn [sanitize_isoformat_str lookup list_lookup].
    change (is_surrogate chr_dash) with false. cbv iota.
    rewrite (Hsur d1) by done.
    destruct r as [|c time]; [by exists []|]. cbn [list_lookup lookup].
    destruct (is_surrogate c) eqn:Hc.
    - exists [chr_T]. done.
    - exists [c]. split_and!; [done|simpl; by rewrite Hc|done]. }
  destruct Hclean as (c' & Hclean & Hc' & Hlen).
  unfold fromisoformat. fold (D r). rewrite Hclean.
  assert (Hlen7 : (length (D r) <? 7)%nat = false) by done.
  rewrite Hlen7.
  assert (Hex : existsb is_surrogate (D (c' ++ tail r))
                = existsb is_surrogate (tail r)).
  { unfold D. cbn [existsb]. change (is_surrogate chr_dash) with false.
    rewrite !Hsur by done. cbn [orb]. by rewrite existsb_app, Hc'. }
  rewrite Hex. destruct (existsb is_surrogate (tail r)); [done|].
  assert (Hbytes : D (c' ++ tail r) ≫= utf8 = D ((c' ++ tail r) ≫= utf8)).
  { unfold D. rewrite !bind_cons. change (utf8 chr_dash) with [chr_dash].
    by rewrite !utf8_digit by done. }
  rewrite Hbytes. set (rest := (c' ++ tail r) ≫= utf8).
  assert (Hsep : find_isoformat_datetime_separator (D rest) = Some 10%nat).
  { unfold find_isoformat_datetime_separator, D. cbn [length Nat.eqb].
    cbn [byte_at lookup list_lookup default from_option id].
    change (N.eqb chr_dash chr_dash) with true. cbv iota.
    by rewrite HW. }
  rewrite Hsep. cbn [mbind option_bind].
  assert (Hdate : parse_isoformat_date (D rest) 10
                  = Some (digits_value [y1; y2; y3; y4], digits_value [m1; m2],
                          digits_value [d1; d2])).
  { unfold parse_isoformat_date, D. rewrite parse_digits_4 by done.
    cbn [mbind option_bind peek head default from_option id tail].
    change (N.eqb chr_dash chr_dash) with true. cbv iota.
    cbn [peek head default from_option id tail]. rewrite HW by done.
    rewrite parse_digits_2 by done.
    cbn [mbind option_bind]. unfold skip_date_separator.
    cbn [peek head default from_option id tail].
    change (N.eqb chr_dash chr_dash) with true. cbv iota.
    cbn [mbind option_bind]. by rewrite parse_digits_2 by done. }
  rewrite Hdate. cbn [mbind option_bind].
  destruct r as [|c time].
  - destruct c'; [|done]. done.
  - destruct c' as [|c1 [|]]; try done. unfold rest.
    change (([c1] ++ tail (c :: time)) ≫= utf8) with ((c1 :: time) ≫= utf8).
    rewrite bind_cons.
    assert (Hlt : (10 <? length (D (utf8 c1 ++ time ≫= utf8)))%nat = true).
    { unfold D. cbn [length]. rewrite length_app.
      pose proof (utf8_not_nil c1). destruct (utf8 c1); [done|]. done. }
    rewrite Hlt.
    change (byte_at (D (utf8 c1 ++ time ≫= utf8)) 10)
      with (byte_at (utf8 c1 ++ time ≫= utf8) 0).
    replace (drop (10 + separator_width (byte_at (utf8 c1 ++ time ≫= utf8) 0))
               (D (utf8 c1 ++ time ≫= utf8)))
      with (time ≫= utf8); [done|].
    rewrite <- (drop_separator c1 (time ≫= utf8)) at 1. done.
Qed.

Lemma begins_with_date_inv s :
  begins_with_date s = true →
  ∃ y1 y2 y3 y4 m1 m2 d1 d2 r,
    s = y1 :: y2 :: y3 :: y4 :: chr_dash :: m1 :: m2 :: chr_dash :: d1 :: d2 :: r
    ∧ forallb is_ascii_digit [y1; y2; y3; y4; m1; m2; d1; d2] = true.
Proof.
  destruct s as [|y1 [|y2 [|y3 [|y4 [|a [|m1 [|m2 [|b [|d1 [|d2 r]]]]]]]]]];
    try done.
  unfold begins_with_date.
  intros [[H ->%N.eqb_eq]%andb_prop ->%N.eqb_eq]%andb_prop.
  by exists y1, y2, y3, y4, m1, m2, d1, d2, r.
Qed.

(** A text that begins with a calendar date is read as an aware value
    exactly when it carries an offset. *)
Lemma fromisoformat_aware t d :
  begins_with_date t = true → fromisoformat t = Some d →
  aware d = has_offset t.
Proof.
  intros (y1 & y2 & y3 & y4 & m1 & m2 & d1 & d2 & r & -> & Hd)%begins_with_date_inv.
  rewrite fromisoformat_calendar by done.
  destruct (existsb is_surrogate (tail r)); [done|].
  unfold has_offset. cbn [drop].
  destruct r as [|c time].
  - cbn [mbind option_bind tzinfo_from_isoformat_results].
    by intros ->%new_datetime_Some.
  - destruct (parse_isoformat_time (time ≫= utf8)) as [[t tz]|] eqn:Ht;
      cbn [mbind option_bind]; [|done].
    destruct (tzinfo_from_isoformat_results tz) as [tzi|] eqn:Htz;
      cbn [mbind option_bind]; [|done].
    intros ->%new_datetime_Some. unfold aware. cbn [tzinfo].
    rewrite (tzinfo_from_isoformat_results_kind _ _ Htz).
    rewrite (parse_isoformat_time_tz _ _ _ Ht). apply existsb_tz_utf8.
Qed.

Lemma existsb_tz_replace s :
  existsb is_tz_start (replace_char chr_Z (lit "+00:00") s)
  = existsb is_tz_start s.
Proof.
  induction s as [|c s IH]; [done|].
  change (replace_char chr_Z (lit "+00:00") (c :: s))
    with ((if N.eqb c chr_Z then lit "+00:00" else [c])
          ++ replace_char chr_Z (lit "+00:00") s).
  rewrite existsb_app, IH. cbn [existsb].
  destruct (N.eqb_spec c chr_Z) as [->|Hc]; [done|].
  cbn [existsb]. by rewrite orb_false_r.
Qed.

Lemma begins_with_date_replace s :
  begins_with_date s = true →
  begins_with_date (replace_char chr_Z (lit "+00:00") s) = true
  ∧ has_offset (replace_char chr_Z (lit "+00:00") s) = has_offset s.
Proof.
  intros Hs.
  destruct (begins_with_date_inv s Hs)
    as (y1 & y2 & y3 & y4 & m1 & m2 & d1 & d2 & r & -> & Hd).
  cbn [forallb] in Hd. repeat (apply andb_prop in Hd as [? Hd]). clear Hd.
  assert (HZ : ∀ c, is_ascii_digit c = true → N.eqb c chr_Z = false).
  { intros c Hc%is_ascii_digit_bounds. apply N.eqb_neq. unfold chr_Z. lia. }
  unfold replace_char. cbn [flat_map].
  change (N.eqb chr_dash chr_Z) with false. cbv iota.
  rewrite !HZ by done. cbn [app]. split; [done|].
  unfold has_offset. cbn [drop].
  destruct r as [|c time]; [done|]. cbn [flat_map].
  destruct (N.eqb c chr_Z); cbn [app drop lit fmap list_fmap
    list_ascii_of_string]; rewrite !drop_0; [|apply existsb_tz_replace].
  cbn [existsb]. apply existsb_tz_replace.
Qed.

(** parse_timestamp on a text that begins with a calendar date: aware
    exactly when the text carries an offset. *)
Lemma parse_timestamp_aware s d :
  begins_with_date s = true → parse_timestamp s = Some d →
  aware d = has_offset s.
Proof.
  intros Hs. unfold parse_timestamp.
  destruct (contains_char chr_Z s); [|by apply fromisoformat_aware].
  destruct (begins_with_date_replace s Hs) as [Hb <-].
  by apply fromisoformat_aware.
Qed.

(** *** The end of the time text

    The fields that [parse_hh_mm_ss_ff] reads do not depend on the byte
    after the time; the return value does. *)

Lemma after_two_digits_next has_separator p n1 n2 :
  after_two_digits has_separator p n1 = after_two_digits has_separator p n2
  ∨ ∃ rv1 rv2, after_two_digits has_separator p n1 = Finished rv1
               ∧ after_two_digits has_separator p n2 = Finished rv2.
Proof. destruct p as [|c [|c' p]]; eauto. Qed.

Lemma parse_fraction_next p n1 n2 us rv :
  parse_fraction p n1 = Some (us, rv) →
  ∃ rv', parse_fraction p n2 = Some (us, rv').
Proof.
  unfold parse_fraction.
  destruct (parse_digits _ p 0) as [[us0 p0]|]; simpl; [|done].
  intros [= <- _]. eauto.
Qed.

Lemma parse_hh_mm_ss_ff_next tstr n1 n2 t :
  parse_hh_mm_ss_ff tstr n1 = Some t →
  ∃ rv, parse_hh_mm_ss_ff tstr n2
        = Some (mkTime (t_hour t) (t_minute t) (t_second t) (t_microsecond t) rv).
Proof.
  assert (Hfrac : ∀ h m s p,
    ('(us, rv) ← parse_fraction p n1; Some (mkTime h m s us rv)) = Some t →
    ∃ rv', ('(us, rv) ← parse_fraction p n2; Some (mkTime h m s us rv))
           = Some (mkTime (t_hour t) (t_minute t) (t_second t)
                     (t_microsecond t) rv')).
  { intros h m s p.
    destruct (parse_fraction p n1) as [[us rv]|] eqn:Hp; simpl; [|done].
    intros [= <-].
    destruct (parse_fraction_next p n1 n2 us rv Hp) as (rv' & ->). simpl. eauto. }
  unfold parse_hh_mm_ss_ff.
  destruct (parse_digits 2 tstr 0) as [[h p]|]; cbn [mbind option_bind]; [|done].
  assert (Hsep : ∀ q, q ≠ [] → N.eqb (peek q n1) chr_colon = N.eqb (peek q n2) chr_colon).
  { by intros [|c q]. }
  destruct p as [|c p]; [simpl; intros [= <-]; eauto|].
  rewrite <- (Hsep (c :: p)) by done.
  set (hs := N.eqb (peek (c :: p) n1) chr_colon).
  destruct (after_two_digits_next hs (c :: p) n1 n2)
    as [<-|(rv1 & rv2 & -> & ->)]; [|intros [= <-]; simpl; eauto].
  destruct (after_two_digits hs (c :: p) n1) as [|rv|q|q]; [done| | |].
  { intros [= <-]. simpl. eauto. }
  { apply Hfrac. }
  destruct (parse_digits 2 q 0) as [[m q1]|]; cbn [mbind option_bind]; [|done].
  destruct (after_two_digits_next hs q1 n1 n2)
    as [<-|(rv1 & rv2 & -> & ->)]; [|intros [= <-]; simpl; eauto].
  destruct (after_two_digits hs q1 n1) as [|rv|q2|q2]; [done| | |].
  { intros [= <-]. simpl. eauto. }
  { apply Hfrac. }
  destruct (parse_digits 2 q2 0) as [[s q3]|]; cbn [mbind option_bind]; [|done].
  destruct (after_two_digits_next hs q3 n1 n2)
    as [<-|(rv1 & rv2 & -> & ->)]; [|intros [= <-]; simpl; eauto].
  destruct (after_two_digits hs q3 n1) as [|rv|q4|q4]; [done| | |].
  { intros [= <-]. simpl. eauto. }
  { apply Hfrac. }
  { apply Hfrac. }
Qed.

(** A text that begins with a calendar date, holds a time and carries no
    offset: with [+00:00] after it the same fields are read, at the offset
    zero. *)
Lemma fromisoformat_append_offset s d :
  begins_with_date s = true → has_offset s = false → (11 < length s)%nat →
  fromisoformat s = Some d →
  fromisoformat (s ++ lit "+00:00") = Some (with_offset d 0).
Proof.
  intros (y1 & y2 & y3 & y4 & m1 & m2 & d1 & d2 & r & -> & Hd)%begins_with_date_inv.
  unfold has_offset. cbn [drop app length].
  rewrite !fromisoformat_calendar by done.
  destruct r as [|c time]; [simpl; lia|]. cbn [app tail drop].
  intros Hoff Hlen. rewrite existsb_app.
  destruct (existsb is_surrogate time); [done|].
  change (existsb is_surrogate (lit "+00:00")) with false. cbn [orb].
  rewrite bind_app.
  change (lit "+00:00" ≫= utf8) with (chr_plus :: lit "00:00").
  assert (Hb : existsb is_tz_start (time ≫= utf8) = false)
    by by rewrite existsb_tz_utf8.
  unfold parse_isoformat_time.
  rewrite split_at_tz_app, split_at_tz_none by done.
  destruct (time ≫= utf8) as [|b0 tb] eqn:Htb.
  { destruct time as [|c1 time]; [simpl in Hlen; lia|].
    rewrite bind_cons in Htb. apply app_eq_nil in Htb as [Hn _].
    by apply utf8_not_nil in Hn. }
  cbn [app]. cbn [peek head default from_option id].
  destruct (parse_hh_mm_ss_ff (b0 :: tb) 0) as [t|] eqn:Ht;
    cbn [mbind option_bind]; [|done].
  destruct (parse_hh_mm_ss_ff_next _ 0%N chr_plus t Ht) as (rv & ->).
  destruct (t_rv t); [done|].
  cbn [mbind option_bind tzinfo_from_isoformat_results].
  change (N.eqb chr_plus chr_Z) with false. cbv iota.
  change (parse_hh_mm_ss_ff (lit "00:00") 0) with (Some (mkTime 0 0 0 0 false)).
  cbn [mbind option_bind t_rv t_hour t_minute t_second t_microsecond].
  change (N.eqb chr_plus chr_dash) with false. cbv iota.
  change (1 * (0 * 3600 + 0 * 60 + 0)) with 0. change (1 * 0) with 0.
  cbn [tzinfo_from_isoformat_results Z.eqb mbind option_bind].
  unfold new_datetime. case_match; [|done]. by intros [= <-].
Qed.

(** *** The ISO rendering *)

Lemma is_tz_start_digit_chr n : is_tz_start (digit_chr n) = false.
Proof.
  pose proof (Z.mod_pos_bound n 10 ltac:(lia)) as Hb.
  unfold is_tz_start. rewrite !orb_false_iff, !N.eqb_neq.
  unfold digit_chr, chr_Z, chr_plus, chr_dash. lia.
Qed.

Lemma existsb_tz_fmt2 n : existsb is_tz_start (fmt2 n) = false.
Proof. unfold fmt2. simpl. by rewrite !is_tz_start_digit_chr. Qed.

Lemma existsb_tz_fmt6 n : existsb is_tz_start (fmt6 n) = false.
Proof. unfold fmt6. by rewrite !existsb_app, !existsb_tz_fmt2. Qed.

Lemma drop_11_isoformat_sep sep d :
  drop 11 (isoformat_sep sep d)
  = fmt2 (hour d) ++ [chr_colon] ++ fmt2 (minute d) ++ [chr_colon]
    ++ fmt2 (second d)
    ++ (if microsecond d =? 0 then [] else chr_dot :: fmt6 (microsecond d))
    ++ match tzinfo d with
       | None => []
       | Some off => format_offset off
       end.
Proof. done. Qed.

(** The ISO rendering carries an offset exactly for aware values. *)
Lemma has_offset_isoformat d : has_offset (isoformat d) = aware d.
Proof.
  unfold has_offset, isoformat, aware. rewrite drop_11_isoformat_sep.
  rewrite !existsb_app, !existsb_tz_fmt2. cbn [existsb orb].
  change (is_tz_start chr_colon) with false. cbn [orb].
  assert (Hf : existsb is_tz_start
                 (if microsecond d =? 0 then [] else chr_dot :: fmt6 (microsecond d))
               = false).
  { case_match; [done|]. cbn [existsb]. by rewrite existsb_tz_fmt6. }
  rewrite Hf. cbn [orb].
  destruct (tzinfo d) as [off|]; [|done].
  unfold format_offset. cbn [existsb]. by destruct (off <? 0).
Qed.

Lemma isoformat_aware a b : isoformat a = isoformat b → aware a = aware b.
Proof. intros Heq. by rewrite <- !has_offset_isoformat, Heq. Qed.

Lemma replace_char_length c new s :
  new ≠ [] → (length s ≤ length (replace_char c new s))%nat.
Proof.
  intros Hnew. induction s as [|x s IH]; [done|].
  change (replace_char c new (x :: s))
    with ((if N.eqb x c then new else [x]) ++ replace_char c new s).
  rewrite length_app. destruct (N.eqb x c); [|simpl; lia].
  destruct new; [done|]. simpl. lia.
Qed.

(** A text that begins with a calendar date, holds a time and carries no
    offset is read with [+00:00] after it as the same fields at the offset
    zero. *)
Lemma parse_timestamp_append_offset s d :
  begins_with_date s = true → has_offset s = false → (11 < length s)%nat →
  parse_timestamp s = Some d →
  parse_timestamp (s ++ lit "+00:00") = Some (with_offset d 0).
Proof.
  intros Hs Hoff Hlen. unfold parse_timestamp.
  rewrite contains_char_app, replace_char_app.
  change (contains_char chr_Z (lit "+00:00")) with false.
  change (replace_char chr_Z (lit "+00:00") (lit "+00:00")) with (lit "+00:00").
  rewrite orb_false_r.
  destruct (contains_char chr_Z s); [|by apply fromisoformat_append_offset].
  destruct (begins_with_date_replace s Hs) as [Hb Ho].
  apply fromisoformat_append_offset; [done|by rewrite Ho|].
  pose proof (replace_char_length chr_Z (lit "+00:00") s ltac:(done)). lia.
Qed.

(** The duplicate removal keeps a point of each kind that the input has. *)
Lemma mixed_remove_duplicates l : mixed (remove_duplicates l) ↔ mixed l.
Proof.
  split.
  - intros (p & q & Hp & Hq & Ha). exists p, q.
    split_and!; [by apply remove_duplicates_elem_of..|apply Ha|apply Ha].
  - intros (p & q & Hp & Hq & Hpa & Hqa).
    assert (Hrep : ∀ x, x ∈ l → ∃ r, r ∈ remove_duplicates l ∧ aware r.1 = aware x.1).
    { intros x Hx.
      assert (Hk : identity_key x ∈ identity_key <$> remove_duplicates l).
      { apply dedup_unique_keys. by apply list_elem_of_fmap_2. }
      apply list_elem_of_fmap in Hk as (r & Hkr & Hr). exists r. split; [done|].
      symmetry. apply isoformat_aware. unfold identity_key in Hkr. congruence. }
    destruct (Hrep p Hp) as (p' & Hp' & Hpk), (Hrep q Hq) as (q' & Hq' & Hqk).
    exists p', q'. split_and!; [done..|congruence|congruence].
Qed.

Lemma consolidate_None_iff E Ls :
  consolidate E Ls = None ↔ mixed (E ++ concat Ls).
Proof. unfold consolidate. by rewrite sort_None_iff, mixed_remove_duplicates. Qed.

(** C1 (as amended). The duplicate removal keeps a point exactly when no
    earlier point of the concatenation has the same key; the first point of
    each key is kept and every later one dropped, whatever its elevation,
    satellite count or extensions. In merge_group the key is (latitude text,
    longitude text, ISO rendering of the parsed timestamp), so two spellings
    of one timestamp are one key; in merge_gpx_files it is (latitude text,
    longitude text, text of the time element). *)
Theorem dedup_first_occurrence (l : list point) (p : point) :
  remove_duplicates (l ++ [p])
  = remove_duplicates l
    ++ (if decide (identity_key p ∈ identity_key <$> l) then [] else [p])
  ∧ (dedup_loop text_key (l ++ [p])).2
    = (dedup_loop text_key l).2
      ++ (if decide (text_key p ∈ text_key <$> l) then [] else [p]).
Proof. split; apply dedup_unique_snoc. Qed.

(** C1, as stated, fails in merge_group: the two extracted points below
    differ in the text of their timestamps, so the second one has no earlier
    point with its (latitude, longitude, original time text), and it is
    dropped all the same. *)
Lemma dedup_original_text_counterexample :
  collect_from_root two_spellings_root = [point_Z; point_offset]
  ∧ text_key point_offset ∉ text_key <$> [point_Z]
  ∧ remove_duplicates ([point_Z] ++ [point_offset]) = [point_Z].
Proof.
  split_and!; [vm_compute; reflexivity| |vm_compute; reflexivity].
  intros Hin. apply list_elem_of_singleton in Hin. vm_compute in Hin. discriminate.
Qed.

(** C2 (as amended). In auto_merge_timelines.py a track point whose
    timestamp parses to year 2000 is dropped by the extraction, which goes on
    with the next point, and no point of year 2000 is in a timeline that
    merge_group writes. (merge_gpx.py keeps such points: it re-dates them
    to 2019, or leaves them as they are with --no-fix-2000.) *)
Theorem sentinel_never_in_timeline (fs : filesystem) (files : list str)
    (out s u : str) (ex : option str) :
  (∀ trkpt time_elem txt ts,
      find trkpt (gpx "time") = Some time_elem →
      nonempty_text time_elem = Some txt →
      parse_timestamp txt = Some ts →
      year ts = 2000 →
      collect_one trkpt = None)
  ∧ (∀ f p, p ∈ (collect_track_points fs f).1 → year p.1 ≠ 2000)
  ∧ (∀ n tl, (merge_group fs files out s u ex).1 = Returned n (Some tl) →
             ∀ p, p ∈ tl_points tl → year p.1 ≠ 2000).
Proof.
  split_and!.
  - intros trkpt te txt ts Hf Ht Hp Hy. unfold collect_one.
    rewrite Hf. simpl. rewrite Ht. simpl. rewrite Hp. simpl.
    by rewrite (proj2 (Z.eqb_eq _ _) Hy).
  - apply collect_track_points_year.
  - intros n tl Hm p Hp. rewrite merge_group_outcome in Hm.
    unfold outcome_of in Hm.
    destruct (_ ++ _) as [|q all] eqn:Hall; [done|]. rewrite <- Hall in Hm.
    destruct (sort_by_timestamp _) as [unique|] eqn:Hs; [|done].
    simplify_eq. simpl in Hp.
    apply (sort_elem_of _ _ _ Hs), remove_duplicates_elem_of in Hp.
    apply elem_of_app in Hp as [Hp|Hp].
    + by eapply load_existing_year.
    + rewrite load_files_points in Hp.
      apply list_elem_of_bind in Hp as (f & Hp & _).
      by eapply collect_track_points_year.
Qed.

Lemma sentinel_never_in_timeline_witness :
  (merge_group sample_fs [lit "sentinel.gpx"] (lit "out") (lit "s") (lit "u") None).1
  = Returned 1 (Some (mkTimeline (lit "out") (lit "s") (lit "u")
                        (collect_from_root sentinel_root)))
  ∧ ∀ p, p ∈ collect_from_root sentinel_root → year p.1 ≠ 2000.
Proof.
  assert (Hm : (merge_group sample_fs [lit "sentinel.gpx"] (lit "out") (lit "s")
                  (lit "u") None).1
               = Returned 1 (Some (mkTimeline (lit "out") (lit "s") (lit "u")
                                     (collect_from_root sentinel_root))))
    by (vm_compute; reflexivity).
  split; [exact Hm|].
  exact (proj2 (proj2 (sentinel_never_in_timeline sample_fs [lit "sentinel.gpx"]
                         (lit "out") (lit "s") (lit "u") None)) _ _ Hm).
Defined.

(** C2, as stated, fails for merge_gpx.py: run with --no-fix-2000 on the
    sample files, a point of year 2000 is in the merged output; without that
    flag all three points of the first file stay as well, two of them
    re-dated. *)
Lemma sentinel_kept_by_merge_gpx_counterexample :
  (∃ R, merge_gpx_files sample_fs (lit "sentinel.gpx") (lit "other.gpx") false = Some R
        ∧ point_2000 ∈ R ∧ year point_2000.1 = 2000)
  ∧ (∃ R, merge_gpx_files sample_fs (lit "sentinel.gpx") (lit "other.gpx") true = Some R
          ∧ length R = 4%nat).
Proof.
  split.
  - eexists. split; [vm_compute; reflexivity|]. split; [|reflexivity].
    apply elem_of_cons. by left.
  - eexists. split; [vm_compute; reflexivity|]. reflexivity.
Qed.

(** C3 (as amended). In auto_merge_timelines.py (and
    phonetrack_timeline_updater.py) a source that cannot be parsed as XML
    makes the extractor return no points and one warning instead of raising,
    and merge_group gives the result it gives for the remaining files. (The
    extractors of merge_daily_exports.py and the other one-off scripts call
    the parser outside any handler and let its exception end the run.) *)
Theorem unparseable_source_skipped (fs : filesystem) (bad : str)
    (files1 files2 : list str) (out s u : str) (ex : option str) :
  ET_parse fs bad = None →
  collect_track_points fs bad = ([], [Warning_could_not_parse bad])
  ∧ (merge_group fs (files1 ++ bad :: files2) out s u ex).1
    = (merge_group fs (files1 ++ files2) out s u ex).1.
Proof.
  intros Hbad.
  assert (Hc : collect_track_points fs bad = ([], [Warning_could_not_parse bad])).
  { unfold collect_track_points. by rewrite Hbad. }
  split; [done|].
  rewrite !merge_group_outcome, !load_files_points, !bind_app, bind_cons.
  by rewrite Hc.
Qed.

Lemma unparseable_source_skipped_witness :
  ET_parse sample_fs (lit "broken.gpx") = None
  ∧ collect_track_points sample_fs (lit "broken.gpx")
    = ([], [Warning_could_not_parse (lit "broken.gpx")])
  ∧ (merge_group sample_fs ([lit "sentinel.gpx"] ++ lit "broken.gpx" :: [lit "other.gpx"])
       (lit "out") (lit "s") (lit "u") None).1
    = (merge_group sample_fs ([lit "sentinel.gpx"] ++ [lit "other.gpx"])
         (lit "out") (lit "s") (lit "u") None).1.
Proof.
  split; [vm_compute; reflexivity|].
  apply (unparseable_source_skipped sample_fs (lit "broken.gpx")).
  vm_compute; reflexivity.
Defined.

(** C3, as stated, fails for the extractor of merge_daily_exports.py: on the
    file that is not XML it raises, and the script that reads it among its
    daily exports ends without writing anything. *)
Lemma unparseable_source_raises_counterexample :
  collect_track_points_daily sample_fs (lit "broken.gpx") = None
  ∧ merge_daily_exports sample_fs (lit "sentinel.gpx")
      [lit "broken.gpx"; lit "other.gpx"] = mkResult None true
  ∧ sr_written (merge_daily_exports sample_fs (lit "sentinel.gpx") [lit "other.gpx"])
    ≠ None.
Proof. split_and!; [vm_compute; reflexivity..|vm_compute; discriminate]. Qed.

(** C4. Consolidation is idempotent: when [consolidate A [B]] produces a
    sequence, consolidating that sequence as the only existing input with no
    new list produces the identical sequence, and so does merging the same
    source [B] into it a second time. *)
Theorem consolidate_idempotent (A B R : list point) :
  consolidate A [B] = Some R →
  consolidate R [] = Some R ∧ consolidate R [B] = Some R.
Proof.
  intros HR. pose proof (consolidate_keys_NoDup _ _ _ HR) as Hnd.
  apply consolidate_Some in HR as [HR Hmix]. simpl in HR, Hmix.
  rewrite app_nil_r in HR, Hmix.
  assert (Hperm : R ≡ₚ remove_duplicates (A ++ B))
    by (rewrite HR; apply place_all_perm).
  assert (Hsorted : StronglySorted ts_le R)
    by (rewrite HR; apply place_all_sorted).
  assert (HmixR : ¬ mixed R).
  { intros Hm. apply Hmix. by eapply mixed_perm. }
  assert (Hid : remove_duplicates R = R) by by apply dedup_unique_id.
  unfold consolidate. simpl. rewrite !app_nil_r. split.
  - rewrite Hid. by apply sort_sorted_id.
  - unfold remove_duplicates in *. rewrite dedup_unique_absorb, Hid.
    + by apply sort_sorted_id.
    + intros p Hp. rewrite Hperm. apply dedup_unique_keys.
      apply list_elem_of_fmap_2. set_solver.
Qed.

Lemma consolidate_idempotent_witness :
  consolidate sample_A [sample_B] = Some sample_merged
  ∧ consolidate sample_merged [] = Some sample_merged
  ∧ consolidate sample_merged [sample_B] = Some sample_merged.
Proof.
  split; [vm_compute; reflexivity|].
  apply (consolidate_idempotent sample_A sample_B sample_merged).
  vm_compute; reflexivity.
Defined.

(** C5. In every sequence that consolidate produces, adjacent points are in
    ascending order of timestamp; the sort drops nothing (the output is a
    rearrangement of the points kept by the duplicate removal, which holds a
    point for every identity key of the input); and the points of one instant
    keep the order they had before the sort, the concatenation order. *)
Theorem consolidate_sorted_stable (E : list point) (Ls : list (list point))
    (R : list point) :
  consolidate E Ls = Some R →
  (∀ i p q, R !! i = Some p → R !! S i = Some q → instant p.1 ≤ instant q.1)
  ∧ R ≡ₚ remove_duplicates (E ++ concat Ls)
  ∧ (∀ p, p ∈ E ++ concat Ls → ∃ r, r ∈ R ∧ identity_key r = identity_key p)
  ∧ (∀ t, filter (fun p => instant p.1 = t) R
          = filter (fun p => instant p.1 = t) (remove_duplicates (E ++ concat Ls))).
Proof.
  intros [-> _]%consolidate_Some. split_and!.
  - intros i p q Hp Hq.
    exact (StronglySorted_adjacent ts_le _ i p q (place_all_sorted _) Hp Hq).
  - apply place_all_perm.
  - intros p Hp.
    assert (Hk : identity_key p ∈ identity_key <$> remove_duplicates (E ++ concat Ls)).
    { apply dedup_unique_keys. by apply list_elem_of_fmap_2. }
    apply list_elem_of_fmap in Hk as (r & Hkr & Hr).
    exists r. split; [by rewrite place_all_perm|done].
  - intros t. apply place_all_filter.
Qed.

Lemma consolidate_sorted_stable_witness :
  consolidate sample_A [sample_B] = Some sample_merged
  ∧ (∀ i p q, sample_merged !! i = Some p → sample_merged !! S i = Some q →
              instant p.1 ≤ instant q.1).
Proof.
  split; [vm_compute; reflexivity|].
  apply (consolidate_sorted_stable sample_A [sample_B] sample_merged).
  vm_compute; reflexivity.
Defined.

(** C6 (as amended). Consolidation keeps the first point of every identity
    key of the existing timeline. When consolidate produces [R]: a point of
    [E] whose key (latitude text, longitude text, ISO rendering of the
    timestamp) no earlier point of [E] has is in [R]; every point of [E] has
    a point with its key in [R]; and when no two points of [E] have one key,
    as in every consolidate output, every point of [E] is in [R]. (When the
    sort raises, nothing is written and the previous file stays as it
    is.) *)
Theorem consolidate_monotone (E : list point) (Ls : list (list point))
    (R : list point) :
  consolidate E Ls = Some R →
  (∀ l1 p l2, E = l1 ++ p :: l2 → identity_key p ∉ identity_key <$> l1 → p ∈ R)
  ∧ (∀ p, p ∈ E → ∃ q, q ∈ R ∧ identity_key q = identity_key p)
  ∧ (NoDup (identity_key <$> E) → ∀ p, p ∈ E → p ∈ R).
Proof.
  intros [-> _]%consolidate_Some. split_and!.
  - intros l1 p l2 -> Hp. rewrite place_all_perm. unfold remove_duplicates.
    rewrite (assoc_L (++) l1 [p] l2 : l1 ++ p :: l2 = (l1 ++ [p]) ++ l2).
    rewrite <- (assoc_L (++) (l1 ++ [p])).
    destruct (dedup_unique_app identity_key (l1 ++ [p]) (l2 ++ concat Ls))
      as (m & -> & _).
    rewrite dedup_unique_snoc, decide_False by done. set_solver.
  - intros p Hp.
    assert (Hk : identity_key p
                 ∈ identity_key <$> remove_duplicates (E ++ concat Ls)).
    { apply dedup_unique_keys, list_elem_of_fmap_2. set_solver. }
    apply list_elem_of_fmap in Hk as (q & Hkq & Hq). exists q.
    by rewrite place_all_perm.
  - intros Hnd p Hp. rewrite place_all_perm.
    destruct (dedup_unique_app identity_key E (concat Ls)) as (m & Heq & _).
    unfold remove_duplicates. rewrite Heq, dedup_unique_id by done. set_solver.
Qed.

Lemma consolidate_monotone_witness :
  NoDup (identity_key <$> sample_A)
  ∧ consolidate sample_A [sample_B] = Some sample_merged
  ∧ ∀ p, p ∈ sample_A → p ∈ sample_merged.
Proof.
  assert (Hnd : NoDup (identity_key <$> sample_A)).
  { apply (bool_decide_unpack _). vm_compute. exact I. }
  assert (Hc : consolidate sample_A [sample_B] = Some sample_merged)
    by (vm_compute; reflexivity).
  split; [exact Hnd|]. split; [exact Hc|].
  exact (proj2 (proj2 (consolidate_monotone sample_A [sample_B] sample_merged Hc))
           Hnd).
Defined.

(** C6, as stated, fails for an existing timeline that holds two points with
    one key: the file below is read as [point_Z; point_offset], two spellings
    of one instant at one place, and the second point is not in the
    output. *)
Lemma consolidate_drops_duplicate_counterexample :
  collect_from_root two_spellings_root = [point_Z; point_offset]
  ∧ consolidate [point_Z; point_offset] [] = Some [point_Z]
  ∧ point_offset ∈ [point_Z; point_offset]
  ∧ point_offset ∉ [point_Z].
Proof.
  split_and!; [vm_compute; reflexivity..| |].
  - apply list_elem_of_In. vm_compute. tauto.
  - intros Hin. apply list_elem_of_singleton in Hin. vm_compute in Hin.
    discriminate.
Qed.

(** C7. The normalizer decomposes the text (NFD) and removes the non-spacing
    marks, so the accented and the plain spelling of the name normalize to
    the same text; lower-cased, both give the key that the upper-case
    spelling gives; and two files whose normalized (session, user) keys are
    equal are in one group, which holds exactly the files of that key. *)
Theorem grouping_ignores_accents_and_case (found : list str) (f1 f2 : str)
    (k : group_key) :
  f1 ∈ found → f2 ∈ found →
  file_key f1 = Some k → file_key f2 = Some k →
  nfd Agi_accented = lit "A" ++ [769%N] ++ lit "gi"
  ∧ normalize_text Agi_accented = normalize_text (lit "Agi")
  ∧ lower (normalize_text Agi_accented) = lower (normalize_text (lit "AGI"))
  ∧ lower (normalize_text (lit "Agi")) = lower (normalize_text (lit "AGI"))
  ∧ ∃ s u files,
      scan_and_group_files found !! k = Some (s, u, files)
      ∧ files = filter (fun f => file_key f = Some k) found
      ∧ f1 ∈ files ∧ f2 ∈ files.
Proof.
  intros H1 H2 Hk1 Hk2. split_and!; [vm_compute; reflexivity..|].
  rewrite scan_and_group_files_lookup.
  assert (Hf1 : f1 ∈ filter (fun f => file_key f = Some k) found)
    by by apply list_elem_of_filter.
  assert (Hf2 : f2 ∈ filter (fun f => file_key f = Some k) found)
    by by apply list_elem_of_filter.
  destruct (filter _ found) as [|f0 fs] eqn:Hf; [by apply elem_of_nil in Hf1|].
  by eexists _, _, _.
Qed.

Lemma grouping_ignores_accents_and_case_witness :
  file_key (lit "exports/Trip_" ++ Agi_accented ++ lit ".gpx")
  = Some (lit "trip", lit "agi")
  ∧ file_key (lit "exports/old/trip_AGI.gpx") = Some (lit "trip", lit "agi")
  ∧ ∃ s u files,
      scan_and_group_files sample_found !! (lit "trip", lit "agi") = Some (s, u, files)
      ∧ files = filter (fun f => file_key f = Some (lit "trip", lit "agi")) sample_found
      ∧ lit "exports/Trip_" ++ Agi_accented ++ lit ".gpx" ∈ files
      ∧ lit "exports/old/trip_AGI.gpx" ∈ files.
Proof.
  split; [vm_compute; reflexivity|]. split; [vm_compute; reflexivity|].
  apply (grouping_ignores_accents_and_case sample_found
           (lit "exports/Trip_" ++ Agi_accented ++ lit ".gpx")
           (lit "exports/old/trip_AGI.gpx") (lit "trip", lit "agi")).
  - apply elem_of_cons. left. reflexivity.
  - apply elem_of_cons. right. apply elem_of_cons. left. reflexivity.
  - vm_compute; reflexivity.
  - vm_compute; reflexivity.
Defined.

(** C8 (as amended). parse_filename returns None for a name that contains
    [_TIMELINE.gpx]. Otherwise the daily pattern
    [{session}_daily_{date}_{user}.gpx] is tried first and its match is
    returned whatever the user is; only when it fails is the full pattern
    [{session}_{user}.gpx] tried, whose user is the last underscore-delimited
    segment, and then the result is None if that user is, in lower case,
    timeline, merged or combined. A name that matches neither gives None. *)
Theorem parse_filename_cases (filename : str) :
  (contains_str (lit "_TIMELINE.gpx") filename = true →
   parse_filename filename = None)
  ∧ (contains_str (lit "_TIMELINE.gpx") filename = false →
     ∀ s d u, DAILY_PATTERN_match filename = Some (s, d, u) →
       parse_filename filename = Some (s, u, Some d)
       ∧ (filename = s ++ lit "_daily_" ++ d ++ [chr_underscore] ++ u ++ lit ".gpx"
          ∨ filename = s ++ lit "_daily_" ++ d ++ [chr_underscore] ++ u
                       ++ lit ".gpx" ++ [chr_newline])
       ∧ is_date d = true)
  ∧ (contains_str (lit "_TIMELINE.gpx") filename = false →
     DAILY_PATTERN_match filename = None →
     ∀ s u, FULL_PATTERN_match filename = Some (s, u) →
       parse_filename filename
       = (if bool_decide (lower u ∈ reserved_users) then None else Some (s, u, None))
       ∧ (filename = s ++ [chr_underscore] ++ u ++ lit ".gpx"
          ∨ filename = s ++ [chr_underscore] ++ u ++ lit ".gpx" ++ [chr_newline])
       ∧ contains_char chr_underscore u = false)
  ∧ (DAILY_PATTERN_match filename = None → FULL_PATTERN_match filename = None →
     parse_filename filename = None).
Proof.
  unfold parse_filename. split_and!.
  - by intros ->.
  - intros -> s d u Hm. rewrite Hm.
    apply DAILY_PATTERN_match_Some in Hm as (? & ? & ? & ?). done.
  - intros -> -> s u Hm. rewrite Hm.
    apply FULL_PATTERN_match_Some in Hm as (? & ? & ? & ?). done.
  - intros -> ->. by case_match.
Qed.

Lemma parse_filename_cases_witness :
  contains_str (lit "_TIMELINE.gpx") (lit "My_Trip_Merged.gpx") = false
  ∧ DAILY_PATTERN_match (lit "My_Trip_Merged.gpx") = None
  ∧ FULL_PATTERN_match (lit "My_Trip_Merged.gpx") = Some (lit "My_Trip", lit "Merged")
  ∧ parse_filename (lit "My_Trip_Merged.gpx") = None
  ∧ contains_char chr_underscore (lit "Merged") = false.
Proof.
  assert (H1 : contains_str (lit "_TIMELINE.gpx") (lit "My_Trip_Merged.gpx") = false)
    by (vm_compute; reflexivity).
  assert (H2 : DAILY_PATTERN_match (lit "My_Trip_Merged.gpx") = None)
    by (vm_compute; reflexivity).
  assert (H3 : FULL_PATTERN_match (lit "My_Trip_Merged.gpx")
               = Some (lit "My_Trip", lit "Merged"))
    by (vm_compute; reflexivity).
  split_and!; [exact H1|exact H2|exact H3|..];
    destruct (proj1 (proj2 (proj2 (parse_filename_cases (lit "My_Trip_Merged.gpx"))))
                H1 H2 _ _ H3) as (Hp & _ & Hu).
  - rewrite Hp. vm_compute. reflexivity.
  - exact Hu.
Defined.

(** C8, as stated, fails: under the full pattern the last
    underscore-delimited segment of this name is the reserved word merged,
    yet the name is accepted, because the daily pattern matches first. *)
Lemma reserved_user_daily_counterexample :
  contains_str (lit "_TIMELINE.gpx") (lit "x_daily_2024-01-02_merged.gpx") = false
  ∧ FULL_PATTERN_match (lit "x_daily_2024-01-02_merged.gpx")
    = Some (lit "x_daily_2024-01-02", lit "merged")
  ∧ lower (lit "merged") ∈ reserved_users
  ∧ parse_filename (lit "x_daily_2024-01-02_merged.gpx")
    = Some (lit "x", lit "merged", Some (lit "2024-01-02")).
Proof.
  split_and!; [vm_compute; reflexivity..| |vm_compute; reflexivity].
  apply elem_of_cons. right. apply elem_of_cons. left. vm_compute. reflexivity.
Qed.

(** C9. When the inputs of a group (the existing timeline, if it is read,
    and all source files) give no point after extraction, merge_group
    returns 0 and writes no file, and the batch goes on with the remaining
    groups as if the group had no points: nothing is raised and nothing is
    added to the written files. *)
Theorem empty_group_writes_nothing (written_document : timeline_file → document)
    (fs : filesystem) (output_dir : str)
    (include_existing : bool) (k : group_key) (s u : str) (files : list str)
    (rest : list (group_key * group)) (b : batch) :
  let output_path := output_path_of output_dir s u in
  let existing := if include_existing then Some output_path else None in
  (load_existing fs existing).1 ++ (load_files fs files).1 = [] →
  (merge_group fs files output_path s u existing).1 = Returned 0 None
  ∧ process_groups written_document fs output_dir include_existing
      ((k, (s, u, files)) :: rest) b
    = process_groups written_document fs output_dir include_existing rest
        (mkBatch (written_files b) (total_files b + length files) (total_points b)).
Proof.
  intros output_path existing Hempty.
  assert (Hm : (merge_group fs files output_path s u existing).1 = Returned 0 None).
  { rewrite merge_group_outcome, Hempty. done. }
  split; [done|]. cbn [process_groups]. fold output_path existing.
  rewrite Hm. simpl. by rewrite app_nil_r, Nat.add_0_r.
Qed.

Lemma empty_group_writes_nothing_witness :
  (merge_group sample_fs [lit "broken.gpx"; lit "missing.gpx"]
     (output_path_of (lit "out") (lit "s") (lit "u")) (lit "s") (lit "u")
     (Some (output_path_of (lit "out") (lit "s") (lit "u")))).1 = Returned 0 None
  ∧ process_groups sample_written_document sample_fs (lit "out") true
      [((lit "s", lit "u"), (lit "s", lit "u", [lit "broken.gpx"; lit "missing.gpx"]))]
      (mkBatch [] 0 0)
    = Some (mkBatch [] 2 0).
Proof.
  apply (empty_group_writes_nothing sample_written_document sample_fs (lit "out") true
           (lit "s", lit "u")
           (lit "s") (lit "u") [lit "broken.gpx"; lit "missing.gpx"] []
           (mkBatch [] 0 0)).
  vm_compute; reflexivity.
Defined.

(** C10 (as amended). parse_timestamp reads a text that ends in [Z] as the
    same text with [+00:00] in its place. A text that begins with a calendar
    date [YYYY-MM-DD] and that the parser accepts is read as an aware value
    exactly when a [Z] or a sign stands after the date and the separator
    character that follows it; when none stands there and the text holds a
    time, the text followed by [Z] is read as the same fields at the offset
    zero. The comparison of the consolidation sort is defined when the
    timestamps of a merge are all aware or all naive, and the sort raises
    exactly when aware and naive timestamps are mixed in one merge. *)
Theorem timestamp_kinds_and_sort (s : str) (d : datetime) (E : list point)
    (Ls : list (list point)) :
  parse_timestamp (s ++ lit "Z") = parse_timestamp (s ++ lit "+00:00")
  ∧ (begins_with_date s = true → parse_timestamp s = Some d →
     aware d = has_offset s
     ∧ (has_offset s = false → (11 < length s)%nat →
        parse_timestamp (s ++ lit "Z") = Some (with_offset d 0)))
  ∧ ((∃ b, all_of_kind b (E ++ concat Ls)) → is_Some (consolidate E Ls))
  ∧ (consolidate E Ls = None ↔ mixed (E ++ concat Ls)).
Proof.
  split_and!.
  - apply parse_timestamp_Z_suffix.
  - intros Hs Hd. split; [by apply parse_timestamp_aware|].
    intros Hoff Hlen. rewrite parse_timestamp_Z_suffix.
    by apply parse_timestamp_append_offset.
  - intros [b Hb]. destruct (consolidate E Ls) eqn:Hc; [done|].
    apply consolidate_None_iff in Hc. by apply (mixed_not_kind b) in Hc.
  - apply consolidate_None_iff.
Qed.

Lemma timestamp_kinds_and_sort_witness :
  begins_with_date naive_text = true
  ∧ parse_timestamp naive_text = Some naive_value
  ∧ has_offset naive_text = false
  ∧ aware naive_value = false
  ∧ parse_timestamp (naive_text ++ lit "Z") = Some (with_offset naive_value 0)
  ∧ consolidate [point_Z] [[point_naive]] = None.
Proof.
  assert (H1 : begins_with_date naive_text = true) by (vm_compute; reflexivity).
  assert (H2 : parse_timestamp naive_text = Some naive_value)
    by (vm_compute; reflexivity).
  assert (H3 : has_offset naive_text = false) by (vm_compute; reflexivity).
  assert (H4 : (11 < length naive_text)%nat) by (vm_compute; lia).
  destruct (timestamp_kinds_and_sort naive_text naive_value [point_Z] [[point_naive]])
    as (_ & Hkind & _ & Hmixed).
  destruct (Hkind H1 H2) as [Haware HZ].
  split_and!; [exact H1|exact H2|exact H3| |exact (HZ H3 H4)|].
  - rewrite Haware. exact H3.
  - apply Hmixed. exists point_Z, point_naive.
    split_and!; [apply list_elem_of_In; vm_compute; tauto..|reflexivity|reflexivity].
Defined.

(** C10, as stated, fails: a time text that ends in [Z] need not be read as
    an aware value. In [2023-06-01Z] the [Z] becomes [+00:00], whose sign
    takes the place of the separator and whose [00:00] is read as the time,
    so the value is naive; the file below holds this text and one with a
    time, both ending in [Z], and merge_group raises on it. *)
Lemma offset_texts_mixed_counterexample :
  parse_timestamp (lit "2023-06-01" ++ lit "Z")
  = Some (mkdatetime 2023 6 1 0 0 0 0 None)
  ∧ parse_timestamp (lit "2023-06-01T10:05:00" ++ lit "Z")
    = Some (mkdatetime 2023 6 1 10 5 0 0 (Some 0))
  ∧ (merge_group date_Z_fs [lit "dates.gpx"] (lit "out.gpx") (lit "s") (lit "u")
       None).1 = Raised.
Proof. split_and!; vm_compute; reflexivity. Qed.

(** ** Scenarios of the specification *)

(** Basic merge: three points, ordered 10:00, 10:05, 10:10. *)
Example scenario_basic_merge :
  (fun p : point => isoformat p.1) <$> sample_merged
  = [lit "2023-06-01T10:00:00+00:00"; lit "2023-06-01T10:05:00+00:00";
     lit "2023-06-01T10:10:00+00:00"].
Proof. vm_compute. reflexivity. Qed.

(** Sentinel drop: of the points dated 2000-01-01, 2000-01-01 and 2023-06-01
    one is retained. *)
Example scenario_sentinel_drop :
  length (collect_track_points sample_fs (lit "sentinel.gpx")).1 = 1%nat.
Proof. vm_compute. reflexivity. Qed.

(** Accented grouping: one group, named after the file scanned first, with
    the output file Trip_Agi_TIMELINE.gpx. *)
Example scenario_accented_grouping :
  map_to_list (scan_and_group_files sample_found)
  = [((lit "trip", lit "agi"),
      (lit "Trip", Agi_accented, sample_found))]
  ∧ output_path_of (lit "Timelines") (lit "Trip") Agi_accented
    = lit "Timelines/Trip_Agi_TIMELINE.gpx".
Proof. split; vm_compute; reflexivity. Qed.
(** * Further properties *)

(** ** Timestamps: text and value *)

Lemma digit_val_chr n : digit_val (digit_chr n) = Some (n mod 10).
Proof.
  pose proof (Z.mod_pos_bound n 10 ltac:(lia)) as Hb.
  unfold digit_val, digit_chr.
  rewrite (proj2 (andb_true_iff _ _)).
  - f_equal. lia.
  - split; apply N.leb_le; lia.
Qed.

Lemma digit_val_range c x : digit_val c = Some x → 0 ≤ x < 10.
Proof.
  unfold digit_val. case_match eqn:Hc; [|done]. intros [= <-].
  apply andb_prop in Hc as [H1%N.leb_le H2%N.leb_le]. lia.
Qed.

Lemma digit_chr_range n : (48 ≤ digit_chr n ≤ 57)%N.
Proof.
  pose proof (Z.mod_pos_bound n 10 ltac:(lia)). unfold digit_chr. lia.
Qed.

Lemma is_ascii_digit_chr n : is_ascii_digit (digit_chr n) = true.
Proof. apply is_ascii_digit_bounds, digit_chr_range. Qed.

Lemma parse_digits_range n p acc v r :
  parse_digits n p acc = Some (v, r) → 0 ≤ acc →
  acc * 10 ^ Z.of_nat n ≤ v < (acc + 1) * 10 ^ Z.of_nat n.
Proof.
  revert p acc. induction n as [|n IH]; intros p acc.
  - simpl. intros [= <- _]. lia.
  - destruct p as [|c p]; [done|]. cbn [parse_digits].
    destruct (digit_val c) as [x|] eqn:Hx; cbn [mbind option_bind]; [|done].
    apply digit_val_range in Hx. intros Hp Hacc.
    apply IH in Hp; [|lia].
    rewrite Nat2Z.inj_succ, Z.pow_succ_r by lia.
    assert (0 < 10 ^ Z.of_nat n) by (apply Z.pow_pos_nonneg; lia). nia.
Qed.

Lemma parse_digits_fmt2 n (r : list N) :
  0 ≤ n < 100 → parse_digits 2 (fmt2 n ++ r) 0 = Some (n, r).
Proof.
  intros Hn. unfold fmt2. cbn [app parse_digits]. rewrite !digit_val_chr.
  cbn [mbind option_bind]. do 2 f_equal.
  Z.to_euclidean_division_equations. lia.
Qed.

Lemma parse_digits_fmt6 n (r : list N) :
  0 ≤ n < 1000000 → parse_digits 6 (fmt6 n ++ r) 0 = Some (n, r).
Proof.
  intros Hn. unfold fmt6, fmt2. cbn [app parse_digits]. rewrite !digit_val_chr.
  cbn [mbind option_bind]. do 2 f_equal.
  Z.to_euclidean_division_equations. lia.
Qed.

Lemma digits_value_fmt2 n : 0 ≤ n < 100 → digits_value (fmt2 n) = n.
Proof.
  intros Hn. unfold digits_value, fmt2. cbn [foldl].
  pose proof (digit_val_chr (n / 10)) as H1.
  pose proof (digit_val_chr n) as H2.
  rewrite (digit_val_ascii _ (is_ascii_digit_chr _)) in H1.
  rewrite (digit_val_ascii _ (is_ascii_digit_chr _)) in H2.
  injection H1 as ->. injection H2 as ->.
  Z.to_euclidean_division_equations. lia.
Qed.

Lemma digits_value_fmt4 n : 0 ≤ n < 10000 → digits_value (fmt4 n) = n.
Proof.
  intros Hn. unfold digits_value, fmt4, fmt2. cbn [app foldl].
  pose proof (digit_val_chr (n / 100 / 10)) as H1.
  pose proof (digit_val_chr (n / 100)) as H2.
  pose proof (digit_val_chr (n / 10)) as H3.
  pose proof (digit_val_chr n) as H4.
  rewrite (digit_val_ascii _ (is_ascii_digit_chr _)) in H1.
  rewrite (digit_val_ascii _ (is_ascii_digit_chr _)) in H2.
  rewrite (digit_val_ascii _ (is_ascii_digit_chr _)) in H3.
  rewrite (digit_val_ascii _ (is_ascii_digit_chr _)) in H4.
  injection H1 as ->. injection H2 as ->. injection H3 as ->. injection H4 as ->.
  Z.to_euclidean_division_equations. lia.
Qed.

(** *** What the parser accepts *)

Lemma parse_fraction_range p next us rv :
  parse_fraction p next = Some (us, rv) → 0 ≤ us < 1000000.
Proof.
  unfold parse_fraction.
  destruct (parse_digits _ p 0) as [[v q]|] eqn:Hp; cbn [mbind option_bind]; [|done].
  intros [= <- _]. apply parse_digits_range in Hp; [|done].
  set (k := Nat.min (length p) 6) in *.
  assert (Hk : (k ≤ 6)%nat) by lia.
  assert (Hpow : 10 ^ Z.of_nat k * 10 ^ Z.of_nat (6 - k) = 1000000).
  { rewrite <- Z.pow_add_r by lia.
    replace (Z.of_nat k + Z.of_nat (6 - k)) with 6 by lia. done. }
  assert (0 < 10 ^ Z.of_nat k) by (apply Z.pow_pos_nonneg; lia).
  assert (0 < 10 ^ Z.of_nat (6 - k)) by (apply Z.pow_pos_nonneg; lia).
  nia.
Qed.

Lemma parse_hh_mm_ss_ff_range tstr next t :
  parse_hh_mm_ss_ff tstr next = Some t →
  0 ≤ t_hour t ∧ 0 ≤ t_minute t ∧ 0 ≤ t_second t
  ∧ 0 ≤ t_microsecond t < 1000000.
Proof.
  assert (Hfrac : ∀ h m s p, 0 ≤ h → 0 ≤ m → 0 ≤ s →
    ('(us, rv) ← parse_fraction p next; Some (mkTime h m s us rv)) = Some t →
    0 ≤ t_hour t ∧ 0 ≤ t_minute t ∧ 0 ≤ t_second t
    ∧ 0 ≤ t_microsecond t < 1000000).
  { intros h m s p Hh Hm Hs.
    destruct (parse_fraction p next) as [[us rv]|] eqn:Hp; simpl; [|done].
    apply parse_fraction_range in Hp. intros [= <-]. simpl. lia. }
  unfold parse_hh_mm_ss_ff.
  destruct (parse_digits 2 tstr 0) as [[h p]|] eqn:Hh; cbn [mbind option_bind];
    [|done].
  apply parse_digits_range in Hh; [|done].
  destruct (after_two_digits _ p next) as [|rv|q|q]; [done| | |].
  { intros [= <-]. simpl. lia. }
  { apply Hfrac; lia. }
  destruct (parse_digits 2 q 0) as [[m q1]|] eqn:Hm; cbn [mbind option_bind];
    [|done].
  apply parse_digits_range in Hm; [|done].
  destruct (after_two_digits _ q1 next) as [|rv|q2|q2]; [done| | |].
  { intros [= <-]. simpl. lia. }
  { apply Hfrac; lia. }
  destruct (parse_digits 2 q2 0) as [[s q3]|] eqn:Hs; cbn [mbind option_bind];
    [|done].
  apply parse_digits_range in Hs; [|done].
  destruct (after_two_digits _ q3 next) as [|rv|q4|q4]; [done| | |].
  { intros [= <-]. simpl. lia. }
  { apply Hfrac; lia. }
  { apply Hfrac; lia. }
Qed.

Lemma parse_isoformat_time_offset p t a b :
  parse_isoformat_time p = Some (t, Some (a, b)) →
  ∃ sg n u, (sg = 1 ∨ sg = -1) ∧ a = sg * n ∧ b = sg * u
            ∧ 0 ≤ n ∧ 0 ≤ u < 1000000.
Proof.
  unfold parse_isoformat_time. destruct p as [|c0 p0]; [done|].
  destruct (split_at_tz (c0 :: p0)) as [tstr tzstr].
  destruct (parse_hh_mm_ss_ff tstr _) as [t0|]; cbn [mbind option_bind]; [|done].
  destruct tzstr as [|c r]; [by case_match|].
  destruct (N.eqb c chr_Z).
  { case_match; [|done]. intros [= _ <- <-]. exists 1, 0, 0. lia. }
  destruct (parse_hh_mm_ss_ff r 0) as [tz|] eqn:Htz; cbn [mbind option_bind];
    [|done].
  apply parse_hh_mm_ss_ff_range in Htz.
  case_match; [done|]. intros [= _ <- <-].
  exists (if N.eqb c chr_dash then -1 else 1),
    (t_hour tz * 3600 + t_minute tz * 60 + t_second tz), (t_microsecond tz).
  split_and!; [case_match; auto|done|done|lia|lia..].
Qed.

Lemma new_datetime_valid y mo dd h mi s us tz d :
  new_datetime y mo dd h mi s us tz = Some d →
  match tz with
  | None => True
  | Some off =>
      -86400000000 < off < 86400000000 ∧ (off = 0 ∨ 1000000 ≤ Z.abs off)
  end →
  valid_datetime d.
Proof.
  unfold new_datetime. destruct (_ && _) eqn:Hc; [|done]. intros [= <-] Htz.
  repeat (apply andb_prop in Hc as [Hc ?]).
  repeat match goal with
         | H : (_ <=? _) = true |- _ => apply Z.leb_le in H
         | H : (_ <? _) = true |- _ => apply Z.ltb_lt in H
         end.
  unfold valid_datetime. simpl. split_and!; done || lia.
Qed.

(** What the parser accepts is a value of the calendar and the clock. *)
Lemma fromisoformat_valid s d : fromisoformat s = Some d → valid_datetime d.
Proof.
  unfold fromisoformat. case_match; [done|]. case_match; [done|].
  destruct (find_isoformat_datetime_separator _) as [loc|];
    cbn [mbind option_bind]; [|done].
  destruct (parse_isoformat_date _ loc) as [[[y mo] dd]|];
    cbn [mbind option_bind]; [|done].
  match goal with
  | |- context [if ?c then parse_isoformat_time ?p else ?e] =>
      destruct (if c then parse_isoformat_time p else e) as [[t tz]|] eqn:Ht
  end; cbn [mbind option_bind]; [|done].
  destruct (tzinfo_from_isoformat_results tz) as [tzi|] eqn:Htz;
    cbn [mbind option_bind]; [|done].
  intros Hd. apply (new_datetime_valid _ _ _ _ _ _ _ _ _ Hd).
  destruct tz as [[a b]|]; [|by simplify_eq/=].
  assert (Hab : ∃ sg n u, (sg = 1 ∨ sg = -1) ∧ a = sg * n ∧ b = sg * u
                          ∧ 0 ≤ n ∧ 0 ≤ u < 1000000).
  { case_match; [by eapply parse_isoformat_time_offset|done]. }
  destruct Hab as (sg & n & u & Hsg & -> & -> & Hn & Hu).
  unfold tzinfo_from_isoformat_results in Htz.
  destruct (sg * n =? 0) eqn:Hzero; [simplify_eq; lia|].
  apply Z.eqb_neq in Hzero.
  destruct (_ && _) eqn:Hc in Htz; [|done]. simplify_eq.
  apply andb_prop in Hc as [?%Z.ltb_lt ?%Z.ltb_lt].
  split; [lia|]. right. destruct Hsg as [-> | ->]; lia.
Qed.

Lemma parse_timestamp_valid s d : parse_timestamp s = Some d → valid_datetime d.
Proof.
  unfold parse_timestamp. case_match; apply fromisoformat_valid.
Qed.

(** *** Reading the ISO rendering *)

Lemma days_in_month_le y m : days_in_month y m ≤ 31.
Proof. unfold days_in_month. repeat case_match; lia. Qed.

Lemma isoformat_chars sep d :
  (sep < 90)%N → Forall (fun c => (c < 90)%N) (isoformat_sep sep d).
Proof.
  intros Hsep.
  assert (Hd : ∀ n, (digit_chr n < 90)%N).
  { intros n. pose proof (digit_chr_range n). lia. }
  unfold isoformat_sep, format_offset, fmt4, fmt6, fmt2.
  destruct (microsecond d =? 0), (tzinfo d) as [off|];
    try destruct (off <? 0);
    repeat case_match;
    repeat first [ apply Forall_nil_2
                 | apply Forall_cons_2
                 | apply Forall_app_2
                 | apply Hd
                 | exact Hsep
                 | done ].
Qed.

Lemma contains_char_Z_isoformat d : contains_char chr_Z (isoformat d) = false.
Proof.
  pose proof (isoformat_chars chr_T d ltac:(done)) as Hc.
  unfold contains_char. fold (isoformat d) in Hc.
  induction Hc as [|c l Hc _ IH]; [done|]. cbn [existsb]. rewrite IH, orb_false_r.
  apply N.eqb_neq. unfold chr_Z. lia.
Qed.

Lemma begins_with_date_isoformat d : begins_with_date (isoformat d) = true.
Proof.
  unfold isoformat, isoformat_sep, fmt4, fmt2. cbn [app begins_with_date forallb].
  by rewrite !is_ascii_digit_chr.
Qed.

(** The time [HH:MM:SS] with the fraction that [isoformat] prints. *)
Lemma parse_hh_mm_ss_ff_full h m s us next :
  0 ≤ h < 100 → 0 ≤ m < 100 → 0 ≤ s < 100 → 0 ≤ us < 1000000 →
  parse_hh_mm_ss_ff
    (fmt2 h ++ [chr_colon] ++ fmt2 m ++ [chr_colon] ++ fmt2 s
     ++ (if us =? 0 then [] else chr_dot :: fmt6 us)) next
  = Some (mkTime h m s us (negb (N.eqb next 0))).
Proof.
  intros Hh Hm Hs Hus. unfold parse_hh_mm_ss_ff.
  rewrite parse_digits_fmt2 by done. cbn [mbind option_bind].
  change (peek ([chr_colon] ++ ?l) next) with chr_colon.
  change (N.eqb chr_colon chr_colon) with true.
  assert (Hnext : ∀ l : list N, l ≠ [] →
            after_two_digits true ([chr_colon] ++ l) next = Next_field l).
  { by intros [|c l]. }
  rewrite Hnext by (unfold fmt2; done).
  rewrite parse_digits_fmt2 by done. cbn [mbind option_bind].
  rewrite Hnext by (unfold fmt2; done).
  rewrite parse_digits_fmt2 by done. cbn [mbind option_bind].
  destruct (Z.eqb_spec us 0) as [->|Hne]; [done|].
  change (after_two_digits true (chr_dot :: fmt6 us) next) with (Fraction (fmt6 us)).
  unfold parse_fraction.
  change (Nat.min (length (fmt6 us)) 6) with 6%nat.
  rewrite <- (app_nil_r (fmt6 us)) at 1. rewrite parse_digits_fmt6 by done.
  cbn [mbind option_bind]. change (6 - 6)%nat with 0%nat.
  change (10 ^ Z.of_nat 0) with 1. by rewrite Z.mul_1_r.
Qed.

(** The time [HH:MM]. *)
Lemma parse_hh_mm_ss_ff_short h m :
  0 ≤ h < 100 → 0 ≤ m < 100 →
  parse_hh_mm_ss_ff (fmt2 h ++ [chr_colon] ++ fmt2 m) 0
  = Some (mkTime h m 0 0 false).
Proof.
  intros Hh Hm. unfold parse_hh_mm_ss_ff.
  rewrite parse_digits_fmt2 by done. cbn [mbind option_bind].
  change (peek ([chr_colon] ++ ?l) 0) with chr_colon.
  change (N.eqb chr_colon chr_colon) with true.
  change (after_two_digits true ([chr_colon] ++ fmt2 m) 0) with (Next_field (fmt2 m)).
  rewrite <- (app_nil_r (fmt2 m)). rewrite parse_digits_fmt2 by done. done.
Qed.

(** The offset that [isoformat] prints is read back. *)
Lemma parse_offset_text off (t : hh_mm_ss_ff) tstr :
  -86400000000 < off < 86400000000 → off = 0 ∨ 1000000 ≤ Z.abs off →
  existsb is_tz_start tstr = false → tstr ≠ [] →
  (∀ next, parse_hh_mm_ss_ff tstr next
           = Some (mkTime (t_hour t) (t_minute t) (t_second t) (t_microsecond t)
                     (negb (N.eqb next 0)))) →
  ∃ rv tz, parse_isoformat_time (tstr ++ format_offset off)
             = Some (mkTime (t_hour t) (t_minute t) (t_second t)
                       (t_microsecond t) rv, Some tz)
           ∧ tzinfo_from_isoformat_results (Some tz) = Some (Some off).
Proof.
  intros Hoff Hsec Htz Hne Ht. set (a := Z.abs off).
  assert (Ha : 0 ≤ a < 86400000000) by lia.
  set (sign := if off <? 0 then chr_dash else chr_plus).
  set (body := fmt2 (a / 3600000000) ++ [chr_colon] ++ fmt2 (a / 60000000 mod 60)
               ++ (if a mod 60000000 =? 0 then []
                   else chr_colon :: fmt2 (a / 1000000 mod 60)
                        ++ (if a mod 1000000 =? 0 then []
                            else chr_dot :: fmt6 (a mod 1000000)))).
  assert (Hfmt : format_offset off = sign :: body) by done.
  assert (Hsign : is_tz_start sign = true) by (unfold sign; by case_match).
  assert (Hbody : parse_hh_mm_ss_ff body 0
                  = Some (mkTime (a / 3600000000) (a / 60000000 mod 60)
                            (a / 1000000 mod 60) (a mod 1000000) false)).
  { unfold body. destruct (Z.eqb_spec (a mod 60000000) 0) as [H0|H0].
    - rewrite app_nil_r.
      rewrite parse_hh_mm_ss_ff_short
        by (Z.to_euclidean_division_equations; lia).
      do 2 f_equal; Z.to_euclidean_division_equations; lia.
    - apply (parse_hh_mm_ss_ff_full _ _ _ _ 0%N);
        Z.to_euclidean_division_equations; lia. }
  unfold parse_isoformat_time.
  destruct (tstr ++ format_offset off) as [|x l] eqn:Hx.
  { by apply app_eq_nil in Hx as [-> _]. }
  rewrite <- Hx, Hfmt, split_at_tz_app by done.
  rewrite Ht. cbn [mbind option_bind].
  assert (HZ : N.eqb sign chr_Z = false) by (unfold sign; by case_match).
  rewrite HZ, Hbody. cbn [mbind option_bind t_rv t_hour t_minute t_second
    t_microsecond].
  eexists _, _. split; [reflexivity|].
  unfold tzinfo_from_isoformat_results.
  assert (Hsg : (if N.eqb sign chr_dash then -1 else 1) = (if off <? 0 then -1 else 1)).
  { unfold sign. by destruct (off <? 0). }
  rewrite Hsg.
  destruct Hsec as [->|Hsec]; [done|].
  rewrite (proj2 (Z.eqb_neq _ 0)), (proj2 (andb_true_iff _ _)).
  - do 2 f_equal. destruct (Z.ltb_spec off 0);
      Z.to_euclidean_division_equations; lia.
  - rewrite Z.ltb_lt, Z.ltb_lt. destruct (Z.ltb_spec off 0);
      Z.to_euclidean_division_equations; lia.
  - destruct (Z.ltb_spec off 0); Z.to_euclidean_division_equations; lia.
Qed.

(** Reading back the ISO rendering of a value gives the value. *)
Lemma fromisoformat_isoformat d :
  valid_datetime d → fromisoformat (isoformat d) = Some d.
Proof.
  intros (Hy & Hmo & Hd & Hh & Hmi & Hs & Hus & Htz).
  destruct d as [y mo dd h mi sc us tz]. simpl in *.
  pose proof (days_in_month_le y mo) as Hdim.
  pose proof (isoformat_chars chr_T (mkdatetime y mo dd h mi sc us tz) ltac:(done))
    as Hchars.
  unfold isoformat in *. unfold isoformat_sep in *.
  cbn [year month day hour minute second microsecond tzinfo] in *.
  set (tstr := fmt2 h ++ [chr_colon] ++ fmt2 mi ++ [chr_colon] ++ fmt2 sc
               ++ (if us =? 0 then [] else chr_dot :: fmt6 us)).
  set (tzstr := match tz with None => [] | Some off => format_offset off end).
  assert (Htext : fmt4 y ++ [chr_dash] ++ fmt2 mo ++ [chr_dash] ++ fmt2 dd
                  ++ [chr_T] ++ fmt2 h ++ [chr_colon] ++ fmt2 mi ++ [chr_colon]
                  ++ fmt2 sc
                  ++ (if us =? 0 then [] else chr_dot :: fmt6 us) ++ tzstr
                  = digit_chr (y / 100 / 10) :: digit_chr (y / 100)
                    :: digit_chr (y / 10) :: digit_chr y :: chr_dash
                    :: digit_chr (mo / 10) :: digit_chr mo :: chr_dash
                    :: digit_chr (dd / 10) :: digit_chr dd :: chr_T
                    :: tstr ++ tzstr).
  { unfold tstr. by rewrite <- !app_assoc. }
  rewrite Htext in *. clear Htext.
  rewrite fromisoformat_calendar
    by (cbn [forallb]; by rewrite !is_ascii_digit_chr).
  do 11 (apply Forall_cons in Hchars as [_ Hchars]).
  assert (Hascii : Forall (fun c => (c < 128)%N) (tstr ++ tzstr)).
  { eapply Forall_impl; [exact Hchars|]. simpl. lia. }
  cbn [tail].
  assert (Hsur : existsb is_surrogate (tstr ++ tzstr) = false).
  { clear -Hascii. induction Hascii as [|c l Hc _ IH]; [done|].
    cbn [existsb]. by rewrite is_surrogate_ascii, IH. }
  rewrite Hsur, bind_utf8_ascii by done.
  change [digit_chr (y / 100 / 10); digit_chr (y / 100); digit_chr (y / 10);
          digit_chr y] with (fmt4 y).
  change [digit_chr (mo / 10); digit_chr mo] with (fmt2 mo).
  change [digit_chr (dd / 10); digit_chr dd] with (fmt2 dd).
  rewrite digits_value_fmt4, !digits_value_fmt2 by lia.
  assert (Htstr : ∀ next, parse_hh_mm_ss_ff tstr next
                          = Some (mkTime h mi sc us (negb (N.eqb next 0)))).
  { intros next. apply parse_hh_mm_ss_ff_full; lia. }
  assert (Hnotz : existsb is_tz_start tstr = false).
  { unfold tstr. rewrite !existsb_app, !existsb_tz_fmt2. cbn [existsb orb].
    change (is_tz_start chr_colon) with false. cbn [orb].
    case_match; [done|]. cbn [existsb]. by rewrite existsb_tz_fmt6. }
  assert (Hne : tstr ≠ []) by (unfold tstr, fmt2; done).
  assert (Hnew : new_datetime y mo dd h mi sc us tz
                 = Some (mkdatetime y mo dd h mi sc us tz)).
  { unfold new_datetime.
    by rewrite !(proj2 (Z.leb_le _ _)), !(proj2 (Z.ltb_lt _ _)) by lia. }
  destruct tz as [off|].
  - unfold tzstr. cbv beta iota.
    destruct (parse_offset_text off (mkTime h mi sc us false) tstr)
      as (rv & tzv & -> & Hres); [lia|tauto|done..|].
    cbn [mbind option_bind]. rewrite Hres. cbn [mbind option_bind].
    exact Hnew.
  - unfold tzstr. rewrite app_nil_r. unfold parse_isoformat_time.
    destruct tstr as [|x l] eqn:Hx; [done|]. rewrite <- Hx in *.
    rewrite split_at_tz_none by done. rewrite Htstr.
    cbn [mbind option_bind peek head default from_option id t_rv].
    change (negb (N.eqb 0 0)) with false. cbv iota.
    cbn [mbind option_bind tzinfo_from_isoformat_results].
    exact Hnew.
Qed.

(** parse_timestamp reads the ISO rendering of a value back as the value. *)
Lemma parse_timestamp_isoformat d :
  valid_datetime d → parse_timestamp (isoformat d) = Some d.
Proof.
  intros Hd. unfold parse_timestamp.
  by rewrite contains_char_Z_isoformat, fromisoformat_isoformat.
Qed.

(** ** What the extraction gives *)

Lemma nonempty_text_Some e txt :
  nonempty_text e = Some txt → text e = Some txt ∧ txt ≠ [].
Proof.
  unfold nonempty_text. destruct (text e) as [[|c r]|]; try done.
  by intros [= <-].
Qed.

Lemma collect_one_keep_2000_inv trkpt p :
  collect_one_keep_2000 trkpt = Some p →
  p.2 = trkpt
  ∧ ∃ time_elem txt,
      find trkpt (gpx "time") = Some time_elem
      ∧ text time_elem = Some txt ∧ txt ≠ []
      ∧ parse_timestamp txt = Some p.1.
Proof.
  unfold collect_one_keep_2000. intros Hc.
  destruct (find trkpt (gpx "time")) as [te|] eqn:Hf; simpl in Hc; [|done].
  destruct (nonempty_text te) as [txt|] eqn:Ht; simpl in Hc; [|done].
  destruct (parse_timestamp txt) as [ts|] eqn:Hp; simpl in Hc; [|done].
  simplify_eq. split; [done|]. exists te, txt.
  apply nonempty_text_Some in Ht as [Ht Hne]. done.
Qed.

Lemma collect_one_keep_2000_Some trkpt p :
  collect_one trkpt = Some p → collect_one_keep_2000 trkpt = Some p.
Proof.
  unfold collect_one, collect_one_keep_2000. intros Hc.
  destruct (find trkpt (gpx "time")) as [te|]; simpl in *; [|done].
  destruct (nonempty_text te) as [txt|]; simpl in *; [|done].
  destruct (parse_timestamp txt) as [ts|]; simpl in *; [|done].
  by destruct (year ts =? 2000).
Qed.

Lemma omap_snd_filter {A B} (f : A → option (B * A)) (l : list A) :
  (∀ a p, f a = Some p → p.2 = a) →
  snd <$> omap f l = filter (fun a => is_Some (f a)) l.
Proof.
  intros Hf. induction l as [|a l IH]; [done|].
  rewrite filter_cons. cbn [omap list_omap]. destruct (f a) as [p|] eqn:Hp.
  - rewrite decide_True by done. rewrite fmap_cons, IH. by rewrite (Hf a p Hp).
  - rewrite decide_False by (by intros [? ?]). done.
Qed.

Lemma collect_one_kept t :
  is_Some (collect_one t) ↔ kept_by_extractor t.
Proof.
  unfold collect_one, kept_by_extractor, nonempty_text. split.
  - intros [p Hp].
    destruct (find t (gpx "time")) as [te|]; simpl in Hp; [|done].
    destruct (text te) as [[|c r]|] eqn:Htxt; simpl in Hp; try done.
    destruct (parse_timestamp (c :: r)) as [ts|] eqn:Hts; simpl in Hp; [|done].
    destruct (Z.eqb_spec (year ts) 2000); [done|].
    by exists te, (c :: r), ts.
  - intros (te & txt & ts & -> & Htxt & Hne & Hts & Hy). simpl. rewrite Htxt.
    destruct txt as [|c r]; [done|]. simpl. rewrite Hts. simpl.
    destruct (Z.eqb_spec (year ts) 2000); [done|]. eauto.
Qed.

(** X1. The extractor of auto_merge_timelines.py returns, in document
    order and unchanged, exactly the trkpt elements whose first time child
    has a text that is not empty and parses to a year other than 2000; the
    timestamp paired with each element is the parse of that text. *)
Theorem collect_from_root_elements (root : Element) :
  snd <$> collect_from_root root
  = filter kept_by_extractor (findall_descendants root (gpx "trkpt"))
  ∧ ∀ p, p ∈ collect_from_root root →
      tag p.2 = gpx "trkpt"
      ∧ year p.1 ≠ 2000
      ∧ ∃ time_elem txt,
          find p.2 (gpx "time") = Some time_elem
          ∧ text time_elem = Some txt
          ∧ parse_timestamp txt = Some p.1.
Proof.
  split.
  - unfold collect_from_root. rewrite omap_snd_filter.
    + apply list_filter_iff. intros t. apply collect_one_kept.
    + intros a p Hp.
      by apply collect_one_keep_2000_Some, collect_one_keep_2000_inv in Hp as [? _].
  - intros p (t & Ht & Hp)%list_elem_of_omap.
    pose proof (collect_one_year _ _ Hp) as Hy.
    apply collect_one_keep_2000_Some, collect_one_keep_2000_inv in Hp
      as (Heq & te & txt & Hf & Htx & _ & Hparse).
    unfold findall_descendants in Ht. apply list_elem_of_filter in Ht as [Htag _].
    rewrite Heq. split_and!; [done..|]. by exists te, txt.
Qed.

(** X2. Two extracted points have the same merge_group key exactly when their
    latitude texts, their longitude texts and their timestamp values (wall
    clock and offset) are the same: the ISO rendering in the key tells any
    two parsed timestamps apart. *)
Theorem identity_key_extracted (a b : Element) (p q : point) :
  collect_one a = Some p → collect_one b = Some q →
  identity_key p = identity_key q
  ↔ get p.2 (lit "lat") = get q.2 (lit "lat")
    ∧ get p.2 (lit "lon") = get q.2 (lit "lon")
    ∧ p.1 = q.1.
Proof.
  intros Hp Hq.
  apply collect_one_keep_2000_Some, collect_one_keep_2000_inv in Hp
    as (_ & ? & ? & _ & _ & _ & Hp%parse_timestamp_valid).
  apply collect_one_keep_2000_Some, collect_one_keep_2000_inv in Hq
    as (_ & ? & ? & _ & _ & _ & Hq%parse_timestamp_valid).
  unfold identity_key. split.
  - intros Hk.
    pose proof (f_equal (fun k : key => k.1.1) Hk) as Hlat.
    pose proof (f_equal (fun k : key => k.1.2) Hk) as Hlon.
    pose proof (f_equal (fun k : key => k.2) Hk) as Hiso. simpl in Hlat, Hlon, Hiso.
    split_and!; [done..|].
    pose proof (fromisoformat_isoformat _ Hp) as E1.
    pose proof (fromisoformat_isoformat _ Hq) as E2.
    rewrite Hiso, E2 in E1. by injection E1.
  - intros (-> & -> & ->). done.
Qed.

Lemma identity_key_extracted_witness :
  collect_one (trkpt "47.5" "19.0" [time_element "2023-06-01T10:05:00Z"]) = Some
    (mkdatetime 2023 6 1 10 5 0 0 (Some 0),
     trkpt "47.5" "19.0" [time_element "2023-06-01T10:05:00Z"])
  ∧ collect_one (trkpt "47.5" "19.0" [time_element "2023-06-01T11:05:00+01:00"]) = Some
    (mkdatetime 2023 6 1 11 5 0 0 (Some 3600000000),
     trkpt "47.5" "19.0" [time_element "2023-06-01T11:05:00+01:00"])
  ∧ identity_key (mkdatetime 2023 6 1 10 5 0 0 (Some 0),
                  trkpt "47.5" "19.0" [time_element "2023-06-01T10:05:00Z"])
    ≠ identity_key (mkdatetime 2023 6 1 11 5 0 0 (Some 3600000000),
                    trkpt "47.5" "19.0" [time_element "2023-06-01T11:05:00+01:00"]).
Proof.
  assert (H1 : collect_one (trkpt "47.5" "19.0" [time_element "2023-06-01T10:05:00Z"])
               = Some (mkdatetime 2023 6 1 10 5 0 0 (Some 0),
                       trkpt "47.5" "19.0" [time_element "2023-06-01T10:05:00Z"]))
    by (vm_compute; reflexivity).
  assert (H2 : collect_one (trkpt "47.5" "19.0" [time_element "2023-06-01T11:05:00+01:00"])
               = Some (mkdatetime 2023 6 1 11 5 0 0 (Some 3600000000),
                       trkpt "47.5" "19.0" [time_element "2023-06-01T11:05:00+01:00"]))
    by (vm_compute; reflexivity).
  split; [exact H1|]. split; [exact H2|].
  intros Hk. apply (proj1 (identity_key_extracted _ _ _ _ H1 H2)) in Hk as (_ & _ & Hk).
  simpl in Hk. discriminate.
Defined.

(** X3. parse_timestamp reads the ISO rendering of every timestamp it
    produces back as the same timestamp, and that rendering never contains a
    [Z]: it is a canonical spelling. *)
Theorem parse_timestamp_canonical (s : str) (d : datetime) :
  parse_timestamp s = Some d →
  parse_timestamp (isoformat d) = Some d
  ∧ contains_char chr_Z (isoformat d) = false.
Proof.
  intros Hd%parse_timestamp_valid. split.
  - by apply parse_timestamp_isoformat.
  - apply contains_char_Z_isoformat.
Qed.

Lemma parse_timestamp_canonical_witness :
  parse_timestamp (lit "2023-06-01T10:05:00.250Z")
  = Some (mkdatetime 2023 6 1 10 5 0 250000 (Some 0))
  ∧ parse_timestamp (isoformat (mkdatetime 2023 6 1 10 5 0 250000 (Some 0)))
    = Some (mkdatetime 2023 6 1 10 5 0 250000 (Some 0)).
Proof.
  assert (H : parse_timestamp (lit "2023-06-01T10:05:00.250Z")
              = Some (mkdatetime 2023 6 1 10 5 0 250000 (Some 0)))
    by (vm_compute; reflexivity).
  split; [exact H|]. exact (proj1 (parse_timestamp_canonical _ _ H)).
Defined.

Lemma text_key_identity_key (a b : Element) (p q : point) :
  collect_one_keep_2000 a = Some p → collect_one_keep_2000 b = Some q →
  text_key p = text_key q → identity_key p = identity_key q.
Proof.
  intros (Hpa & te & txt & Hf & Ht & _ & Hp)%collect_one_keep_2000_inv
         (Hqb & te' & txt' & Hf' & Ht' & _ & Hq)%collect_one_keep_2000_inv Hk.
  unfold text_key in Hk. rewrite Hpa, Hqb, Hf, Hf', Ht, Ht' in Hk.
  pose proof (f_equal (fun k : text_key_t => k.1.1) Hk) as Hlat.
  pose proof (f_equal (fun k : text_key_t => k.1.2) Hk) as Hlon.
  pose proof (f_equal (fun k : text_key_t => k.2) Hk) as Htxt.
  simpl in Hlat, Hlon, Htxt. apply (inj Some) in Htxt. subst txt'.
  rewrite Hp in Hq. apply (inj Some) in Hq.
  unfold identity_key. rewrite Hpa, Hqb, Hlat, Hlon, Hq. done.
Qed.

(** X4. On the points that the extractor of merge_gpx.py returns, the key of
    merge_gpx_files is the finer one: two points with the same (latitude,
    longitude, time text) also have the same merge_group key (latitude,
    longitude, ISO rendering). *)
Theorem text_key_refines_identity_key (a b : Element) (p q : point) :
  collect_one_keep_2000 a = Some p → collect_one_keep_2000 b = Some q →
  text_key p = text_key q → identity_key p = identity_key q.
Proof. apply text_key_identity_key. Qed.

Lemma text_key_refines_identity_key_witness :
  collect_one_keep_2000 point_Z.2 = Some point_Z
  ∧ collect_one_keep_2000 point_Z_low.2 = Some point_Z_low
  ∧ text_key point_Z = text_key point_Z_low
  ∧ point_Z ≠ point_Z_low
  ∧ identity_key point_Z = identity_key point_Z_low.
Proof.
  assert (H1 : collect_one_keep_2000 point_Z.2 = Some point_Z)
    by (vm_compute; reflexivity).
  assert (H2 : collect_one_keep_2000 point_Z_low.2 = Some point_Z_low)
    by (vm_compute; reflexivity).
  assert (H3 : text_key point_Z = text_key point_Z_low) by (vm_compute; reflexivity).
  split_and!; [exact H1|exact H2|exact H3|vm_compute; discriminate|].
  exact (text_key_refines_identity_key _ _ _ _ H1 H2 H3).
Defined.

(** ** The year-2000 fix of merge_gpx.py *)

Lemma fix_one_other ny p : year p.1 ≠ 2000 → fix_one ny p = Some (p, 0%nat).
Proof. unfold fix_one. intros Hy. by rewrite (proj2 (Z.eqb_neq _ _) Hy). Qed.

Lemma fix_one_2000 ny p :
  year p.1 = 2000 →
  fix_one ny p
  = (new_timestamp ← replace_year p.1 ny;
     Some ((new_timestamp,
            mkElement (tag p.2) (attrib p.2) (text p.2)
              (set_text_of_first (gpx "time") (strftime_Z new_timestamp)
                 (children p.2))), 1%nat)).
Proof. unfold fix_one. intros Hy. by rewrite (proj2 (Z.eqb_eq _ _) Hy). Qed.

Lemma replace_year_Some d ny d' :
  replace_year d ny = Some d' →
  year d' = ny ∧ month d' = month d ∧ day d' = day d ∧ hour d' = hour d
  ∧ minute d' = minute d ∧ second d' = second d
  ∧ microsecond d' = microsecond d ∧ tzinfo d' = tzinfo d
  ∧ 1 ≤ ny ≤ 9999 ∧ day d ≤ days_in_month ny (month d).
Proof.
  unfold replace_year. case_match eqn:Hc; [|done]. intros [= <-]. simpl.
  apply andb_prop in Hc as [Hc H3%Z.leb_le].
  apply andb_prop in Hc as [H1%Z.leb_le H2%Z.leb_le]. split_and!; done || lia.
Qed.

Lemma fix_year_2000_timestamps_shape (points points' : list point)
    (new_year : Z) (n : nat) :
  fix_year_2000_timestamps points new_year = Some (points', n) →
  n = length (filter (fun p => year p.1 = 2000) points)
  ∧ Forall2 (fun p p' =>
       if decide (year p.1 = 2000)
       then replace_year p.1 new_year = Some p'.1 ∧ attrib p'.2 = attrib p.2
            ∧ tag p'.2 = tag p.2
       else p' = p) points points'
  ∧ (new_year ≠ 2000 → Forall (fun p' => year p'.1 ≠ 2000) points').
Proof.
  revert points' n. induction points as [|p points IH]; intros points' n Hf.
  - simpl in Hf. simplify_eq. split_and!; [done|constructor|by constructor].
  - cbn [fix_year_2000_timestamps] in Hf.
    destruct (fix_one new_year p) as [[p' k]|] eqn:Hp; simpl in Hf; [|done].
    destruct (fix_year_2000_timestamps points new_year) as [[rest' m]|] eqn:Hr;
      simpl in Hf; [|done].
    simplify_eq. destruct (IH _ _ eq_refl) as (Hn & Hall & Hno).
    rewrite filter_cons. destruct (decide (year p.1 = 2000)) as [Hy|Hy].
    + rewrite fix_one_2000 in Hp by done.
      destruct (replace_year p.1 new_year) as [ts|] eqn:Hts; simpl in Hp; [|done].
      simplify_eq. split_and!.
      * done.
      * constructor; [|done]. by rewrite decide_True by done.
      * intros Hne. constructor; [|by apply Hno]. simpl.
        apply replace_year_Some in Hts as (-> & _). done.
    + rewrite fix_one_other in Hp by done. simplify_eq. split_and!.
      * done.
      * constructor; [|done]. by rewrite decide_False by done.
      * intros Hne. constructor; [done|by apply Hno].
Qed.

(** X5. When fix_year_2000_timestamps returns, the list has the length it
    had, the count is the number of points of year 2000, the points of other
    years are as they were, and each point of year 2000 has the new year with
    the other fields of its timestamp and its attributes unchanged; with a
    new year other than 2000 no point of year 2000 is left. *)
Theorem fix_year_2000_timestamps_result (points points' : list point)
    (new_year : Z) (n : nat) :
  fix_year_2000_timestamps points new_year = Some (points', n) →
  n = length (filter (fun p => year p.1 = 2000) points)
  ∧ Forall2 (fun p p' =>
       if decide (year p.1 = 2000)
       then replace_year p.1 new_year = Some p'.1 ∧ attrib p'.2 = attrib p.2
            ∧ tag p'.2 = tag p.2
       else p' = p) points points'
  ∧ (new_year ≠ 2000 → Forall (fun p' => year p'.1 ≠ 2000) points').
Proof. apply fix_year_2000_timestamps_shape. Qed.

Lemma fix_year_2000_timestamps_result_witness :
  fix_year_2000_timestamps [point_2000; point_Z] 2019
  = Some ([(mkdatetime 2019 1 1 0 0 0 0 (Some 0),
            trkpt "47.5" "19.0" [time_element "2019-01-01T00:00:00Z"]); point_Z], 1%nat)
  ∧ 1%nat = length (filter (fun p : point => year p.1 = 2000) [point_2000; point_Z]).
Proof.
  assert (H : fix_year_2000_timestamps [point_2000; point_Z] 2019
              = Some ([(mkdatetime 2019 1 1 0 0 0 0 (Some 0),
                        trkpt "47.5" "19.0" [time_element "2019-01-01T00:00:00Z"]);
                       point_Z], 1%nat)) by (vm_compute; reflexivity).
  split; [exact H|]. exact (proj1 (fix_year_2000_timestamps_result _ _ _ _ H)).
Defined.

(** X6. With the new year 2019 that merge_gpx_files passes,
    fix_year_2000_timestamps raises exactly when one of the points is dated
    29 February 2000, a day that 2019 does not have. *)
Theorem fix_year_2000_timestamps_raises (points : list point) :
  Forall (fun p => valid_datetime p.1) points →
  fix_year_2000_timestamps points 2019 = None
  ↔ ∃ p, p ∈ points ∧ year p.1 = 2000 ∧ month p.1 = 2 ∧ day p.1 = 29.
Proof.
  induction 1 as [|p points Hv _ IH].
  - split; [done|]. by intros (p & ?%elem_of_nil & _).
  - cbn [fix_year_2000_timestamps].
    assert (Hone : fix_one 2019 p = None
                   ↔ year p.1 = 2000 ∧ month p.1 = 2 ∧ day p.1 = 29).
    { destruct Hv as (Hy & Hm & Hd & _).
      destruct (decide (year p.1 = 2000)) as [Hy2|Hy2].
      - rewrite fix_one_2000 by done. unfold replace_year.
        rewrite Hy2 in Hd. unfold days_in_month, is_leap in *. simpl in *.
        destruct (month p.1 =? 2) eqn:Hm2.
        + apply Z.eqb_eq in Hm2. simpl. destruct (day p.1 <=? 28) eqn:Hd28; simpl.
          * apply Z.leb_le in Hd28. split; [done|intros (_ & _ & ?); lia].
          * apply Z.leb_gt in Hd28. split; [intros _; split_and!; lia|done].
        + apply Z.eqb_neq in Hm2. rewrite (proj2 (Z.leb_le _ _)) by apply Hd. simpl.
          split; [done|intros (_ & ? & _); lia].
      - rewrite fix_one_other by done. split; [done|intros (? & _); lia]. }
    destruct (fix_one 2019 p) as [[p' k]|] eqn:Hp; simpl.
    + destruct (fix_year_2000_timestamps points 2019) as [[rest' m]|] eqn:Hr; simpl.
      * split; [done|]. intros (q & [->|Hq]%elem_of_cons & Hq').
        -- by apply Hone in Hq'.
        -- assert (Hex : ∃ p, p ∈ points ∧ year p.1 = 2000 ∧ month p.1 = 2 ∧ day p.1 = 29)
             by eauto.
           by apply IH in Hex.
      * split; [|done]. intros _. destruct (proj1 IH eq_refl) as (q & Hq & Hq').
        exists q. split; [by right|done].
    + split; [|done]. intros _. exists p. split; [by left|]. by apply Hone.
Qed.

Lemma fix_year_2000_timestamps_raises_witness :
  Forall (fun p : point => valid_datetime p.1) [point_Z; point_leap_day]
  ∧ fix_year_2000_timestamps [point_Z; point_leap_day] 2019 = None.
Proof.
  assert (Hv : Forall (fun p : point => valid_datetime p.1) [point_Z; point_leap_day]).
  { repeat constructor; vm_compute; intros; discriminate. }
  split; [exact Hv|].
  apply (proj2 (fix_year_2000_timestamps_raises _ Hv)).
  exists point_leap_day. split; [|done]. apply elem_of_cons. right.
  apply elem_of_cons. by left.
Defined.

Lemma strftime_Z_isoformat d :
  strftime_Z d
  = isoformat (mkdatetime (year d) (month d) (day d) (hour d) (minute d)
                 (second d) 0 None) ++ lit "Z".
Proof.
  unfold strftime_Z, isoformat, isoformat_sep, fmt4, fmt2. reflexivity.
Qed.

(** The text that the fix writes reads as the wall clock of the timestamp,
    in UTC and without fraction. *)
Lemma parse_timestamp_strftime_Z d :
  valid_datetime d → parse_timestamp (strftime_Z d) = Some (as_whole_second_utc d).
Proof.
  destruct d as [y mo dd h mi sc us tz].
  intros (Hy & Hmo & Hd & Hh & Hmi & Hs & Hus & Htz). cbn in Hy, Hmo, Hd, Hh, Hmi, Hs.
  rewrite strftime_Z_isoformat, parse_timestamp_Z_suffix.
  apply (parse_timestamp_append_offset _ (mkdatetime y mo dd h mi sc 0 None)).
  - apply begins_with_date_isoformat.
  - by rewrite has_offset_isoformat.
  - unfold isoformat, isoformat_sep, fmt4, fmt2. simpl. lia.
  - apply parse_timestamp_isoformat. unfold valid_datetime. cbn. split_and!; done || lia.
Qed.

Lemma find_set_text_of_first t new cs te :
  List.find (fun c => bool_decide (tag c = t)) cs = Some te →
  List.find (fun c => bool_decide (tag c = t)) (set_text_of_first t new cs)
  = Some (mkElement (tag te) (attrib te) (Some new) (children te)).
Proof.
  induction cs as [|c cs IH]; [done|]. simpl.
  destruct (bool_decide (tag c = t)) eqn:Hc.
  - intros [= <-]. simpl. by rewrite Hc.
  - intros Hf. simpl. rewrite Hc. by apply IH.
Qed.

(** X7. The fix rewrites the time text of a point of year 2000 from the
    wall-clock fields of the new timestamp and a [Z]: read back, the text is
    that wall clock in UTC without fraction, so it differs from the
    timestamp kept for the sort by the point's UTC offset and its
    microseconds. *)
Theorem fix_one_rewrites_text (new_year : Z) (p p' : point) (k : nat) :
  year p.1 = 2000 →
  valid_datetime p.1 →
  is_Some (find p.2 (gpx "time")) →
  fix_one new_year p = Some (p', k) →
  time_text p' = Some (strftime_Z p'.1)
  ∧ parse_timestamp (strftime_Z p'.1) = Some (as_whole_second_utc p'.1)
  ∧ instant (as_whole_second_utc p'.1) - instant p'.1
    = default 0 (tzinfo p.1) - microsecond p.1.
Proof.
  intros Hy Hv [te Hte] Hf. rewrite fix_one_2000 in Hf by done.
  destruct (replace_year p.1 new_year) as [ts|] eqn:Hts; simpl in Hf; [|done].
  simplify_eq. simpl.
  apply replace_year_Some in Hts
    as (Hy' & Hmo & Hd & Hh & Hmi & Hs & Hus & Htz & Hny & Hdim).
  split_and!.
  - unfold time_text, find in *. simpl.
    by rewrite (find_set_text_of_first _ _ _ _ Hte).
  - apply parse_timestamp_strftime_Z.
    destruct Hv as (? & ? & ? & ? & ? & ? & ? & ?).
    unfold valid_datetime. rewrite Hy', Hmo, Hd, Hh, Hmi, Hs, Hus, Htz.
    split_and!; done || lia.
  - unfold instant, wall_micros, toordinal, as_whole_second_utc. simpl.
    rewrite Hus, Htz. lia.
Qed.

Lemma fix_one_rewrites_text_witness :
  fix_one 2019 point_2000_offset
  = Some ((mkdatetime 2019 1 1 0 30 0 0 (Some 3600000000),
           trkpt "47.5" "19.0" [time_element "2019-01-01T00:30:00Z"]), 1%nat)
  ∧ parse_timestamp (lit "2019-01-01T00:30:00Z")
    = Some (mkdatetime 2019 1 1 0 30 0 0 (Some 0))
  ∧ instant (mkdatetime 2019 1 1 0 30 0 0 (Some 0))
    - instant (mkdatetime 2019 1 1 0 30 0 0 (Some 3600000000)) = 3600000000.
Proof.
  assert (Hy : year point_2000_offset.1 = 2000) by reflexivity.
  assert (Hv : valid_datetime point_2000_offset.1).
  { unfold valid_datetime. cbn. lia. }
  assert (Ht : is_Some (find point_2000_offset.2 (gpx "time")))
    by (vm_compute; eauto).
  assert (Hf : fix_one 2019 point_2000_offset
               = Some ((mkdatetime 2019 1 1 0 30 0 0 (Some 3600000000),
                        trkpt "47.5" "19.0" [time_element "2019-01-01T00:30:00Z"]),
                       1%nat)) by (vm_compute; reflexivity).
  destruct (fix_one_rewrites_text 2019 _ _ _ Hy Hv Ht Hf) as (_ & Hp & Hi).
  split; [exact Hf|]. split; [exact Hp|exact Hi].
Defined.

(** ** merge_gpx_files *)

Lemma min_from_same_kind b cur l :
  aware cur = b → Forall (fun x => aware x = b) l → is_Some (min_from cur l).
Proof.
  intros Hc Hl. revert cur Hc. induction Hl as [|x l Hx _ IH]; intros cur Hc; [done|].
  simpl. rewrite dt_lt_same_kind by congruence. simpl.
  apply IH. by case_match.
Qed.

Lemma max_from_same_kind b cur l :
  aware cur = b → Forall (fun x => aware x = b) l → is_Some (max_from cur l).
Proof.
  intros Hc Hl. revert cur Hc. induction Hl as [|x l Hx _ IH]; intros cur Hc; [done|].
  simpl. rewrite dt_lt_same_kind by congruence. simpl.
  apply IH. by case_match.
Qed.

Lemma date_range_None l : date_range l = None → mixed l.
Proof.
  intros Hn. destruct (kind_or_mixed l) as [[b Hb]|]; [|done]. exfalso.
  destruct l as [|p r]; [done|]. apply Forall_cons in Hb as [Hp Hr]. simpl in Hn.
  assert (Hr' : Forall (fun x => aware x = b) (fst <$> r)) by by apply Forall_fmap.
  destruct (min_from_same_kind b p.1 _ Hp Hr') as [? Hmin].
  destruct (max_from_same_kind b p.1 _ Hp Hr') as [? Hmax].
  by rewrite Hmin, Hmax in Hn.
Qed.

Lemma mixed_app_l l m : mixed l → mixed (l ++ m).
Proof. intros (p & q & ? & ? & ?). exists p, q. set_solver. Qed.

Lemma mixed_app_r l m : mixed m → mixed (l ++ m).
Proof. intros (p & q & ? & ? & ?). exists p, q. set_solver. Qed.

(** The points that merge_gpx.py extracts from a root. *)
Lemma extracted_gpx root p :
  p ∈ omap collect_one_keep_2000 (findall_descendants root (gpx "trkpt")) →
  ∃ a, collect_one_keep_2000 a = Some p.
Proof. intros (a & _ & Ha)%list_elem_of_omap. eauto. Qed.

Lemma mixed_dedup_text_key l :
  (∀ p, p ∈ l → ∃ a, collect_one_keep_2000 a = Some p) →
  mixed (dedup_loop text_key l).2 ↔ mixed l.
Proof.
  intros Hex. split.
  - intros (p & q & Hp & Hq & Ha). exists p, q.
    split_and!; [eapply elem_of_sublist; [done|apply dedup_unique_sublist]..
                |apply Ha|apply Ha].
  - intros (p & q & Hp & Hq & Hpa & Hqa).
    assert (Hrep : ∀ x, x ∈ l → ∃ r, r ∈ (dedup_loop text_key l).2 ∧ aware r.1 = aware x.1).
    { intros x Hx.
      assert (Hk : text_key x ∈ text_key <$> (dedup_loop text_key l).2).
      { apply dedup_unique_keys. by apply list_elem_of_fmap_2. }
      apply list_elem_of_fmap in Hk as (r & Hkr & Hr). exists r. split; [done|].
      assert (Hrl : r ∈ l) by (eapply elem_of_sublist; [done|apply dedup_unique_sublist]).
      destruct (Hex x Hx) as [a Ha], (Hex r Hrl) as [b Hb].
      symmetry. apply isoformat_aware.
      pose proof (text_key_identity_key _ _ _ _ Ha Hb Hkr) as Hid.
      unfold identity_key in Hid. congruence. }
    destruct (Hrep p Hp) as (p' & Hp' & Hpk), (Hrep q Hq) as (q' & Hq' & Hqk).
    exists p', q'. split_and!; [done..|congruence|congruence].
Qed.

(** X8. Run with the year-2000 fix, merge_gpx_files gives an output without
    any point of year 2000, and every output point is one of the fixed
    input points. *)
Theorem merge_gpx_files_fixed_output (fs : filesystem) (file1 file2 : str)
    (R : list point) :
  merge_gpx_files fs file1 file2 true = Some R →
  (∀ p, p ∈ R → year p.1 ≠ 2000)
  ∧ ∃ points1 points2 fixed n,
      collect_track_points_gpx fs file1 = Some points1
      ∧ collect_track_points_gpx fs file2 = Some points2
      ∧ fix_year_2000_timestamps (points1 ++ points2) 2019 = Some (fixed, n)
      ∧ R ≡ₚ (dedup_loop text_key fixed).2.
Proof.
  unfold merge_gpx_files. intros Hm.
  destruct (collect_track_points_gpx fs file1) as [points1|]; simpl in Hm; [|done].
  destruct (date_range points1); simpl in Hm; [|done].
  destruct (collect_track_points_gpx fs file2) as [points2|]; simpl in Hm; [|done].
  destruct (date_range points2); simpl in Hm; [|done].
  destruct (fix_year_2000_timestamps (points1 ++ points2) 2019) as [[fixed n]|] eqn:Hf;
    simpl in Hm; [|done].
  apply sort_Some in Hm as [-> _].
  destruct (fix_year_2000_timestamps_shape _ _ _ _ Hf) as (_ & _ & Hno).
  specialize (Hno ltac:(done)). rewrite Forall_forall in Hno. split.
  - intros p Hp. rewrite place_all_perm in Hp. apply Hno.
    eapply elem_of_sublist; [done|apply dedup_unique_sublist].
  - exists points1, points2, fixed, n. split_and!; [done..|apply place_all_perm].
Qed.

Lemma merge_gpx_files_fixed_output_witness :
  (∃ R, merge_gpx_files sample_fs (lit "sentinel.gpx") (lit "other.gpx") true = Some R
        ∧ ∀ p, p ∈ R → year p.1 ≠ 2000).
Proof.
  destruct (merge_gpx_files sample_fs (lit "sentinel.gpx") (lit "other.gpx") true)
    as [R|] eqn:HR; [|vm_compute in HR; discriminate].
  exists R. split; [reflexivity|].
  exact (proj1 (merge_gpx_files_fixed_output _ _ _ _ HR)).
Defined.

(** X9. Run with --no-fix-2000 on two files that parse as XML,
    merge_gpx_files ends in an exception exactly when the extracted points
    of the two files hold both an aware and a naive timestamp; when a file
    does not parse, the exception of the parser ends the run. *)
Theorem merge_gpx_files_raises (fs : filesystem) (file1 file2 : str) :
  (ET_parse fs file1 = None ∨ ET_parse fs file2 = None →
   ∀ fix_year_2000, merge_gpx_files fs file1 file2 fix_year_2000 = None)
  ∧ ∀ points1 points2,
      collect_track_points_gpx fs file1 = Some points1 →
      collect_track_points_gpx fs file2 = Some points2 →
      (merge_gpx_files fs file1 file2 false = None ↔ mixed (points1 ++ points2)).
Proof.
  split.
  - intros Hbad fx. unfold merge_gpx_files, collect_track_points_gpx.
    destruct (ET_parse fs file1) as [r1|]; simpl; [|done].
    destruct (date_range _); simpl; [|done].
    destruct Hbad as [?|Hbad]; [done|]. by rewrite Hbad.
  - intros points1 points2 H1 H2. unfold merge_gpx_files. rewrite H1, H2. simpl.
    assert (Hex : ∀ p, p ∈ points1 ++ points2 → ∃ a, collect_one_keep_2000 a = Some p).
    { unfold collect_track_points_gpx in H1, H2.
      destruct (ET_parse fs file1) as [r1|]; simpl in H1; [|done].
      destruct (ET_parse fs file2) as [r2|]; simpl in H2; [|done].
      simplify_eq. intros p [Hp|Hp]%elem_of_app; by eapply extracted_gpx. }
    destruct (date_range points1) eqn:Hd1; simpl.
    + destruct (date_range points2) eqn:Hd2; simpl.
      * by rewrite sort_None_iff, mixed_dedup_text_key.
      * split; [intros _|done]. by apply mixed_app_r, date_range_None.
    + split; [intros _|done]. by apply mixed_app_l, date_range_None.
Qed.

(** ** The normalizer *)

Ltac case_code_point c :=
  destruct c as [|c]; [|do 9 (try (destruct c as [c|c|]))].

(** Each entry of the table is a letter of ASCII followed by one mark. *)
Lemma canonical_decomposition_cases c :
  canonical_decomposition c = [c]
  ∨ ∃ base mark,
      canonical_decomposition c = [base; mark]
      ∧ is_Mn mark = true
      ∧ ((65 <=? base) && (base <=? 122))%N = true.
Proof.
  case_code_point c;
    first [ left; reflexivity
          | right; eexists _, _; split_and!; reflexivity ].
Qed.

Lemma ascii_letter_plain base :
  ((65 <=? base) && (base <=? 122))%N = true →
  canonical_decomposition base = [base] ∧ is_Mn base = false.
Proof.
  intros [H1%N.leb_le H2%N.leb_le]%andb_prop. split.
  - case_code_point base; first [reflexivity | exfalso; lia].
  - unfold is_Mn. apply andb_false_intro1, N.leb_gt. lia.
Qed.

Lemma normalize_text_app s t :
  normalize_text (s ++ t) = normalize_text s ++ normalize_text t.
Proof. unfold normalize_text, nfd. by rewrite flat_map_app, filter_app. Qed.

Lemma normalize_text_char c :
  normalize_text [c] = [c] ∧ is_Mn c = false
  ∨ normalize_text [c] = [] ∧ is_Mn c = true
  ∨ ∃ base, normalize_text [c] = [base]
            ∧ ((65 <=? base) && (base <=? 122))%N = true.
Proof.
  unfold normalize_text, nfd. cbn [flat_map]. rewrite app_nil_r.
  destruct (canonical_decomposition_cases c) as [->|(base & mark & -> & Hm & Hb)].
  - destruct (is_Mn c) eqn:Hc.
    + right. left. by rewrite filter_cons_False, filter_nil by congruence.
    + left. by rewrite filter_cons_True, filter_nil by done.
  - right. right. exists base. split; [|done].
    destruct (ascii_letter_plain _ Hb) as [_ Hnb].
    rewrite filter_cons_True by done.
    by rewrite filter_cons_False, filter_nil by congruence.
Qed.

Lemma normalize_text_cons c t :
  normalize_text (c :: t) = normalize_text [c] ++ normalize_text t.
Proof. apply (normalize_text_app [c] t). Qed.

Lemma normalize_text_letter base :
  ((65 <=? base) && (base <=? 122))%N = true → normalize_text [base] = [base].
Proof.
  intros [Hd Hm]%ascii_letter_plain. unfold normalize_text, nfd. cbn [flat_map].
  rewrite Hd. cbn [app]. by rewrite filter_cons_True, filter_nil by done.
Qed.

Lemma normalize_text_idem text :
  normalize_text (normalize_text text) = normalize_text text.
Proof.
  induction text as [|c t IH]; [done|].
  rewrite normalize_text_cons, normalize_text_app, IH. f_equal.
  destruct (normalize_text_char c) as [[H _]|[[H _]|(base & H & Hb)]].
  - by rewrite !H.
  - by rewrite H.
  - rewrite H. by apply normalize_text_letter.
Qed.

Lemma normalize_text_latin1 text : latin1 text → latin1 (normalize_text text).
Proof.
  unfold latin1. induction 1 as [|c t Hc _ IH]; [constructor|].
  rewrite normalize_text_cons. apply Forall_app. split; [|done].
  destruct (normalize_text_char c) as [[-> _]|[[-> _]|(base & -> & Hb)]].
  - by constructor.
  - constructor.
  - apply andb_prop in Hb as [_ Hb%N.leb_le]. constructor; [lia|constructor].
Qed.

(** X10. On texts of code points up to U+00FF (Latin-1), where the tables of
    the model are those of the Unicode Character Database: the result of
    normalize_text is again such a text and holds no non-spacing mark,
    normalize_text gives the same text when it is applied a second time, and
    the normalization of a concatenation is the concatenation of the
    normalizations. *)
Theorem normalize_text_stable (text rest : str) :
  latin1 text → latin1 rest →
  latin1 (normalize_text text)
  ∧ Forall (fun c => is_Mn c = false) (normalize_text text)
  ∧ normalize_text (normalize_text text) = normalize_text text
  ∧ normalize_text (text ++ rest) = normalize_text text ++ normalize_text rest.
Proof.
  intros Htext _. split_and!.
  - by apply normalize_text_latin1.
  - unfold normalize_text. apply Forall_forall. by intros c [? _]%list_elem_of_filter.
  - apply normalize_text_idem.
  - apply normalize_text_app.
Qed.

Lemma normalize_text_stable_witness :
  latin1 Agi_accented ∧ latin1 (lit "_daily")
  ∧ normalize_text Agi_accented = lit "Agi"
  ∧ normalize_text (normalize_text Agi_accented) = normalize_text Agi_accented
  ∧ normalize_text (Agi_accented ++ lit "_daily")
    = normalize_text Agi_accented ++ normalize_text (lit "_daily").
Proof.
  assert (H1 : latin1 Agi_accented) by (repeat constructor; vm_compute; discriminate).
  assert (H2 : latin1 (lit "_daily")) by (repeat constructor; vm_compute; discriminate).
  destruct (normalize_text_stable Agi_accented (lit "_daily") H1 H2)
    as (_ & _ & Hidem & Happ).
  split_and!; [exact H1|exact H2|vm_compute; reflexivity|exact Hidem|exact Happ].
Defined.

(** ** Names of the files written *)

Lemma until_slash_app l m :
  contains_char chr_slash l = false → until_slash (l ++ m) = l ++ until_slash m.
Proof.
  induction l as [|c l IH]; [done|]. cbn [contains_char existsb app until_slash].
  intros [Hc Hl]%orb_false_elim. rewrite N.eqb_sym in Hc.
  change 47%N with chr_slash. rewrite Hc. f_equal. by apply IH.
Qed.

Lemma contains_char_reverse c l :
  contains_char c (reverse l) = contains_char c l.
Proof.
  unfold contains_char. induction l as [|x l IH]; [done|].
  rewrite reverse_cons, existsb_app, IH. simpl. rewrite orb_false_r. apply orb_comm.
Qed.

Lemma path_name_app x n :
  contains_char chr_slash n = false → path_name (x ++ n) = path_name x ++ n.
Proof.
  intros Hn. unfold path_name.
  rewrite reverse_app, until_slash_app by by rewrite contains_char_reverse.
  by rewrite reverse_app, reverse_involutive.
Qed.

Lemma starts_with_refl s : starts_with s s = true.
Proof. induction s as [|c s IH]; [done|]. simpl. by rewrite N.eqb_refl, IH. Qed.

Lemma contains_str_suffix needle pre :
  contains_str needle (pre ++ needle) = true.
Proof.
  induction pre as [|c pre IH].
  - destruct needle; simpl; [done|]. by rewrite N.eqb_refl, starts_with_refl.
  - cbn [app contains_str]. by rewrite IH, orb_true_r.
Qed.

Lemma parse_filename_timeline x :
  parse_filename (path_name (x ++ lit "_TIMELINE.gpx")) = None.
Proof.
  rewrite path_name_app by (vm_compute; reflexivity).
  unfold parse_filename. by rewrite contains_str_suffix.
Qed.

Lemma path_join_suffix base name :
  name ≠ [] → name ≠ [chr_dot] → ∃ pre, path_join base name = pre ++ name.
Proof.
  intros H1 H2. unfold path_join.
  rewrite !bool_decide_eq_false_2 by done. cbn [orb].
  destruct (bool_decide (base = [chr_dot])); [by exists []|].
  destruct (_ || _); [by exists base|].
  exists (base ++ [chr_slash]). by rewrite <- app_assoc.
Qed.

Lemma timeline_path_of_eq data_dir nc_user s dev :
  ∃ x, timeline_path_of data_dir nc_user s dev = x ++ lit "_TIMELINE.gpx".
Proof.
  unfold timeline_path_of.
  set (b := path_join _ TIMELINES_SUBDIR).
  destruct (path_join_suffix b
              (normalize_text s ++ lit "_" ++ normalize_text dev ++ lit "_TIMELINE.gpx"))
    as [pre ->].
  - intros H. apply (f_equal length) in H. rewrite !length_app in H. simpl in H. lia.
  - intros H. apply (f_equal length) in H. rewrite !length_app in H. simpl in H. lia.
  - exists (pre ++ normalize_text s ++ lit "_" ++ normalize_text dev).
    by rewrite <- !app_assoc.
Qed.

Lemma file_key_written_auto dir s u : file_key (output_path_of dir s u) = None.
Proof.
  unfold file_key, output_path_of.
  replace (dir ++ lit "/" ++ normalize_text s ++ lit "_" ++ normalize_text u
           ++ lit "_TIMELINE.gpx")
    with ((dir ++ lit "/" ++ normalize_text s ++ lit "_" ++ normalize_text u)
          ++ lit "_TIMELINE.gpx") by by rewrite <- !app_assoc.
  by rewrite parse_filename_timeline.
Qed.

Lemma file_key_written_updater data_dir nc_user s dev :
  file_key (timeline_path_of data_dir nc_user s dev) = None.
Proof.
  destruct (timeline_path_of_eq data_dir nc_user s dev) as [x ->].
  unfold file_key. by rewrite parse_filename_timeline.
Qed.

Lemma scan_skips found1 f found2 :
  file_key f = None →
  scan_and_group_files (found1 ++ f :: found2) = scan_and_group_files (found1 ++ found2).
Proof.
  intros Hf. apply map_eq. intros k. rewrite !scan_and_group_files_lookup.
  rewrite !filter_app, filter_cons_False; [done|]. by rewrite Hf.
Qed.

(** X11. A timeline written by auto_merge_timelines.py or by
    phonetrack_timeline_updater.py is never taken as a source: parse_filename
    rejects its name, and a scan over a directory that holds it gives the
    groups it gives without it. *)
Theorem written_timeline_not_a_source (dir s u data_dir nc_user : str)
    (found1 found2 : list str) :
  parse_filename (path_name (output_path_of dir s u)) = None
  ∧ parse_filename (path_name (timeline_path_of data_dir nc_user s u)) = None
  ∧ scan_and_group_files (found1 ++ output_path_of dir s u :: found2)
    = scan_and_group_files (found1 ++ found2)
  ∧ scan_and_group_files (found1 ++ timeline_path_of data_dir nc_user s u :: found2)
    = scan_and_group_files (found1 ++ found2).
Proof.
  pose proof (file_key_written_auto dir s u) as H1.
  pose proof (file_key_written_updater data_dir nc_user s u) as H2.
  split_and!; [..|by apply scan_skips|by apply scan_skips].
  - unfold file_key in H1. by destruct (parse_filename _) as [[[? ?] ?]|].
  - unfold file_key in H2. by destruct (parse_filename _) as [[[? ?] ?]|].
Qed.

Lemma merge_gpx_files_raises_witness :
  collect_track_points_gpx kinds_fs (lit "aware.gpx")
  = Some (omap collect_one_keep_2000 (findall_descendants other_root (gpx "trkpt")))
  ∧ collect_track_points_gpx kinds_fs (lit "naive.gpx")
    = Some (omap collect_one_keep_2000 (findall_descendants naive_root (gpx "trkpt")))
  ∧ merge_gpx_files kinds_fs (lit "aware.gpx") (lit "naive.gpx") false = None.
Proof.
  assert (H1 : collect_track_points_gpx kinds_fs (lit "aware.gpx")
               = Some (omap collect_one_keep_2000
                         (findall_descendants other_root (gpx "trkpt"))))
    by (vm_compute; reflexivity).
  assert (H2 : collect_track_points_gpx kinds_fs (lit "naive.gpx")
               = Some (omap collect_one_keep_2000
                         (findall_descendants naive_root (gpx "trkpt"))))
    by (vm_compute; reflexivity).
  split; [exact H1|]. split; [exact H2|].
  apply (proj2 (merge_gpx_files_raises kinds_fs (lit "aware.gpx") (lit "naive.gpx"))
           _ _ H1 H2).
  eexists _, _. split_and!; [apply list_elem_of_In; vm_compute; left; reflexivity
                            |apply list_elem_of_In; vm_compute; right; left; reflexivity
                            |reflexivity|reflexivity].
Defined.

Lemma collect_from_root_elements_witness :
  snd <$> collect_from_root fraction_root = [fraction_trkpt]
  ∧ filter kept_by_extractor (findall_descendants fraction_root (gpx "trkpt"))
    = [fraction_trkpt]
  ∧ (mkdatetime 2023 6 1 10 0 0 500000 (Some 0), fraction_trkpt)
    ∈ collect_from_root fraction_root.
Proof.
  assert (H : snd <$> collect_from_root fraction_root = [fraction_trkpt])
    by (vm_compute; reflexivity).
  split; [exact H|]. split.
  - rewrite <- (proj1 (collect_from_root_elements fraction_root)). exact H.
  - apply list_elem_of_In. vm_compute. left. reflexivity.
Defined.

(** ** What merge_group returns and what the batch adds up *)

Lemma remove_duplicates_nonempty l : l ≠ [] → remove_duplicates l ≠ [].
Proof.
  destruct l as [|p l]; [done|]. intros _ Hnil.
  assert (Hk : identity_key p ∈ identity_key <$> remove_duplicates (p :: l)).
  { apply dedup_unique_keys. set_solver. }
  rewrite Hnil in Hk. by apply elem_of_nil in Hk.
Qed.

Lemma remove_duplicates_length l : (length (remove_duplicates l) ≤ length l)%nat.
Proof. apply sublist_length, dedup_unique_sublist. Qed.

Lemma merge_group_returned_shape fs files out s u ex n w :
  (merge_group fs files out s u ex).1 = Returned n w →
  let loaded := (load_existing fs ex).1 ++ (load_files fs files).1 in
  (w = None ↔ loaded = [])
  ∧ (n = 0%nat ↔ loaded = [])
  ∧ (n ≤ length loaded)%nat
  ∧ ∀ tl, w = Some tl →
      n = length (tl_points tl) ∧ tl_path tl = out
      ∧ tl_session tl = s ∧ tl_user tl = u
      ∧ tl_points tl ≡ₚ remove_duplicates loaded.
Proof.
  rewrite merge_group_outcome. intros Ho loaded. fold loaded in Ho.
  unfold outcome_of in Ho. destruct loaded as [|p l] eqn:Hl.
  - simplify_eq. split_and!; done.
  - rewrite <- Hl in *.
    destruct (sort_by_timestamp (remove_duplicates loaded)) as [unique|] eqn:Hs; [|done].
    apply sort_Some in Hs as [Hu _].
    assert (Hperm : unique ≡ₚ remove_duplicates loaded)
      by (rewrite Hu; apply place_all_perm).
    assert (Hne : unique ≠ []).
    { intros ->. apply Permutation_nil_l in Hperm.
      symmetry in Hperm. revert Hperm. apply remove_duplicates_nonempty. by rewrite Hl. }
    simplify_eq. split_and!.
    + split; [done|]. by rewrite Hl.
    + split; [|by rewrite Hl]. intros H0. by apply length_zero_iff_nil in H0.
    + rewrite Hperm. apply remove_duplicates_length.
    + intros tl [= <-]. simpl. done.
Qed.

(** X12. When merge_group returns, the number it returns is the number of
    points it wrote; it is 0, with no file written, exactly when no point
    was loaded; it never exceeds the number of points loaded; and the file
    written goes to the output path under the names passed in, with the
    points that the duplicate removal kept. *)
Theorem merge_group_returned (fs : filesystem) (files : list str)
    (out s u : str) (ex : option str) (n : nat) (w : option timeline_file) :
  (merge_group fs files out s u ex).1 = Returned n w →
  (w = None ↔ (load_existing fs ex).1 ++ (load_files fs files).1 = [])
  ∧ (n = 0%nat ↔ (load_existing fs ex).1 ++ (load_files fs files).1 = [])
  ∧ (n ≤ length ((load_existing fs ex).1 ++ (load_files fs files).1))%nat
  ∧ ∀ tl, w = Some tl →
      n = length (tl_points tl) ∧ tl_path tl = out
      ∧ tl_session tl = s ∧ tl_user tl = u
      ∧ tl_points tl ≡ₚ remove_duplicates
                          ((load_existing fs ex).1 ++ (load_files fs files).1).
Proof. apply merge_group_returned_shape. Qed.

Lemma merge_group_returned_witness :
  (merge_group sample_fs [lit "sentinel.gpx"; lit "other.gpx"] (lit "out") (lit "s")
     (lit "u") None).1
  = Returned 2 (Some (mkTimeline (lit "out") (lit "s") (lit "u")
                        (collect_from_root sentinel_root ++ collect_from_root other_root)))
  ∧ (2 ≤ length ((load_existing sample_fs None).1
                 ++ (load_files sample_fs [lit "sentinel.gpx"; lit "other.gpx"]).1))%nat.
Proof.
  assert (H : (merge_group sample_fs [lit "sentinel.gpx"; lit "other.gpx"] (lit "out")
                 (lit "s") (lit "u") None).1
              = Returned 2 (Some (mkTimeline (lit "out") (lit "s") (lit "u")
                                    (collect_from_root sentinel_root
                                     ++ collect_from_root other_root))))
    by (vm_compute; reflexivity).
  split; [exact H|].
  exact (proj1 (proj2 (proj2 (merge_group_returned _ _ _ _ _ _ _ _ H)))).
Defined.





(** ** The path that the updater receives *)

Lemma split_on_app a r :
  contains_char chr_slash a = false →
  split_on chr_slash (a ++ chr_slash :: r) = a :: split_on chr_slash r.
Proof.
  induction a as [|c a IH]; intros Ha.
  - done.
  - cbn [contains_char existsb] in Ha. apply orb_false_elim in Ha as [Hc Ha].
    cbn [app split_on]. rewrite N.eqb_sym, Hc, IH by done. done.
Qed.

Lemma split_on_plain a :
  contains_char chr_slash a = false → split_on chr_slash a = [a].
Proof.
  induction a as [|c a IH]; intros Ha; [done|].
  cbn [contains_char existsb] in Ha. apply orb_false_elim in Ha as [Hc Ha].
  cbn [split_on]. rewrite N.eqb_sym, Hc, IH by done. done.
Qed.

Lemma first_slash s :
  contains_char chr_slash s = false
  ∨ ∃ a r, s = a ++ chr_slash :: r ∧ contains_char chr_slash a = false.
Proof.
  induction s as [|c s IH]; [by left|].
  destruct (N.eqb chr_slash c) eqn:Hc.
  - right. exists [], s. apply N.eqb_eq in Hc as <-. done.
  - destruct IH as [Hs|(a & r & -> & Ha)].
    + left. cbn [contains_char existsb]. by rewrite Hc.
    + right. exists (c :: a), r. split; [done|].
      cbn [contains_char existsb]. by rewrite Hc.
Qed.

Lemma last_slash s :
  contains_char chr_slash s = false
  ∨ ∃ pre n, s = pre ++ chr_slash :: n ∧ contains_char chr_slash n = false.
Proof.
  induction s as [|c s IH] using rev_ind; [by left|].
  destruct (N.eqb chr_slash c) eqn:Hc.
  - right. exists s, []. apply N.eqb_eq in Hc as <-. done.
  - destruct IH as [Hs|(pre & n & -> & Hn)].
    + left. rewrite contains_char_app, Hs. cbn [contains_char existsb]. by rewrite Hc.
    + right. exists pre, (n ++ [c]). split; [by rewrite <- app_assoc|].
      rewrite contains_char_app, Hn. cbn [contains_char existsb]. by rewrite Hc.
Qed.

Lemma split_on_last_app pre n :
  contains_char chr_slash n = false →
  last (split_on chr_slash (pre ++ chr_slash :: n)) = Some n
  ∧ (2 ≤ length (split_on chr_slash (pre ++ chr_slash :: n)))%nat.
Proof.
  intros Hn. induction pre as [|c pre [IH1 IH2]].
  - cbn [app split_on]. rewrite N.eqb_refl, split_on_plain by done. done.
  - cbn [app split_on].
    destruct (split_on chr_slash (pre ++ chr_slash :: n)) as [|part [|p parts]] eqn:Hs;
      [simpl in IH2; lia..|].
    destruct (N.eqb c chr_slash); (split; [exact IH1|simpl; lia]).
Qed.

Lemma path_name_last pre n :
  contains_char chr_slash n = false → path_name (pre ++ chr_slash :: n) = n.
Proof.
  intros Hn. change (pre ++ chr_slash :: n) with (pre ++ [chr_slash] ++ n).
  rewrite app_assoc, path_name_app by done.
  unfold path_name. by rewrite reverse_app.
Qed.

Lemma parse_nextcloud_path_shape nc_path u s d date :
  parse_nextcloud_path nc_path = Some (u, s, d, date)
  ↔ ∃ mid name,
      replace_char chr_backslash [chr_slash] nc_path
      = u ++ chr_slash :: mid ++ chr_slash :: name
      ∧ contains_char chr_slash u = false
      ∧ contains_char chr_slash name = false
      ∧ DAILY_PATTERN_match name = Some (s, date, d).
Proof.
  unfold parse_nextcloud_path.
  set (q := replace_char chr_backslash [chr_slash] nc_path). split.
  - intros Hp. destruct (first_slash q) as [Hq|(a & r & Hqa & Ha)].
    { rewrite split_on_plain in Hp by done. done. }
    rewrite Hqa, split_on_app in Hp by done.
    destruct (last_slash r) as [Hr|(pre & n & -> & Hn)].
    { rewrite split_on_plain in Hp by done. done. }
    destruct (split_on_last_app pre n Hn) as [Hl Hlen].
    destruct (split_on chr_slash (pre ++ chr_slash :: n)) as [|p0 ps] eqn:Hsp;
      [simpl in Hlen; lia|].
    cbn [length head default from_option id] in Hp.
    change (last (a :: p0 :: ps)) with (last (p0 :: ps)) in Hp.
    rewrite Hl in Hp. cbn [default from_option id] in Hp.
    destruct (S (S (length ps)) <? 3)%nat; [done|].
    destruct (DAILY_PATTERN_match n) as [[[s' date'] d']|] eqn:Hm; [|done].
    injection Hp as <- <- <- <-. exists pre, n. by rewrite Hm.
  - intros (mid & name & -> & Hu & Hn & Hm). rewrite split_on_app by done.
    destruct (split_on_last_app mid name Hn) as [Hl Hlen].
    destruct (split_on chr_slash (mid ++ chr_slash :: name)) as [|p0 ps] eqn:Hsp;
      [simpl in Hlen; lia|].
    cbn [length head default from_option id].
    change (last (u :: p0 :: ps)) with (last (p0 :: ps)).
    rewrite Hl. cbn [default from_option id].
    destruct (Nat.ltb_spec (S (S (length ps))) 3) as [Hlt|_];
      [simpl in Hlt, Hlen; lia|].
    by rewrite Hm.
Qed.

(** X14. parse_nextcloud_path accepts a path exactly when, with every
    backslash read as a slash, it has at least three components and the last
    one matches the daily pattern; the user returned is the first
    component and session, device and date are the groups of the match on
    the last component, whatever lies between. *)
Theorem parse_nextcloud_path_components (nc_path u s d date : str) :
  parse_nextcloud_path nc_path = Some (u, s, d, date)
  ↔ ∃ mid name,
      replace_char chr_backslash [chr_slash] nc_path
      = u ++ chr_slash :: mid ++ chr_slash :: name
      ∧ contains_char chr_slash u = false
      ∧ contains_char chr_slash name = false
      ∧ DAILY_PATTERN_match name = Some (s, date, d).
Proof. apply parse_nextcloud_path_shape. Qed.

Lemma parse_nextcloud_path_components_witness :
  parse_nextcloud_path sample_nc_path
  = Some (lit "anna", lit "trip", lit "phone", lit "2024-01-02").
Proof.
  apply (proj2 (parse_nextcloud_path_components sample_nc_path (lit "anna") (lit "trip")
                  (lit "phone") (lit "2024-01-02"))).
  exists (lit "files/PhoneTrack_export"), (lit "trip_daily_2024-01-02_phone.gpx").
  split_and!; vm_compute; reflexivity.
Defined.

(** X15. A path accepted by parse_nextcloud_path names a file that
    parse_filename of the batch script reads with the same session and the
    same device as user, unless the name holds _TIMELINE.gpx; and the path is
    the user, a slash, any middle part, a slash and the name
    session_daily_date_device.gpx. *)
Theorem parse_nextcloud_path_agrees (nc_path u s d date : str) :
  parse_nextcloud_path nc_path = Some (u, s, d, date) →
  let name := path_name (replace_char chr_backslash [chr_slash] nc_path) in
  (name = s ++ lit "_daily_" ++ date ++ [chr_underscore] ++ d ++ lit ".gpx"
   ∨ name = s ++ lit "_daily_" ++ date ++ [chr_underscore] ++ d ++ lit ".gpx"
            ++ [chr_newline])
  ∧ is_date date = true
  ∧ (contains_str (lit "_TIMELINE.gpx") name = false →
     parse_filename name = Some (s, d, Some date)).
Proof.
  intros (mid & n & Hq & Hu & Hn & Hm)%parse_nextcloud_path_shape. cbn zeta.
  assert (Hpn : path_name (replace_char chr_backslash [chr_slash] nc_path) = n).
  { rewrite Hq. change (u ++ chr_slash :: mid ++ chr_slash :: n)
      with (u ++ [chr_slash] ++ mid ++ chr_slash :: n).
    by rewrite !app_assoc, path_name_last. }
  rewrite Hpn.
  destruct (DAILY_PATTERN_match_Some _ _ _ _ Hm) as (Hname & _ & Hd & _).
  split; [exact Hname|]. split; [exact Hd|].
  intros Ht. unfold parse_filename. by rewrite Ht, Hm.
Qed.

Lemma parse_nextcloud_path_agrees_witness :
  parse_filename (path_name (replace_char chr_backslash [chr_slash] sample_nc_path))
  = Some (lit "trip", lit "phone", Some (lit "2024-01-02")).
Proof.
  refine (proj2 (proj2 (parse_nextcloud_path_agrees sample_nc_path (lit "anna")
                          (lit "trip") (lit "phone") (lit "2024-01-02") _)) _);
    vm_compute; reflexivity.
Defined.

(** ** update_timeline *)

Lemma collect_track_points_missing fs p :
  fs !! p = None → (collect_track_points fs p).1 = [].
Proof. intros H. unfold collect_track_points, ET_parse. by rewrite H. Qed.

Lemma updater_existing_points fs p :
  (if decide (is_Some (fs !! p)) then (collect_track_points fs p).1 else [])
  = (collect_track_points fs p).1.
Proof.
  destruct (decide (is_Some (fs !! p))) as [|Hn]; [done|].
  symmetry. apply collect_track_points_missing.
  destruct (fs !! p) eqn:E; [|done]. destruct Hn. by eexists.
Qed.

Lemma update_timeline_unfold fs new_file nc_path data_dir u s d date :
  parse_nextcloud_path nc_path = Some (u, s, d, date) →
  (collect_track_points fs new_file).1 ≠ [] →
  update_timeline fs new_file nc_path data_dir
  = unique ← consolidate (collect_track_points fs (timeline_path_of data_dir u s d)).1
               [(collect_track_points fs new_file).1];
    Some (true, Some (mkTimeline (timeline_path_of data_dir u s d) s d unique)).
Proof.
  intros Hp Hne. unfold update_timeline, consolidate. rewrite Hp.
  rewrite updater_existing_points. cbn [concat]. rewrite app_nil_r.
  by destruct (collect_track_points fs new_file).1.
Qed.

Lemma consolidate_nonempty E Ls R :
  consolidate E Ls = Some R → E ++ concat Ls ≠ [] → R ≠ [].
Proof.
  intros [-> _]%consolidate_Some Hne Hnil.
  apply (remove_duplicates_nonempty _ Hne).
  symmetry. apply Permutation_nil_l. by rewrite <- Hnil, place_all_perm.
Qed.

Lemma consolidate_keys E Ls R k :
  consolidate E Ls = Some R →
  k ∈ identity_key <$> R ↔ k ∈ identity_key <$> (E ++ concat Ls).
Proof.
  intros [-> _]%consolidate_Some. rewrite place_all_perm.
  apply dedup_unique_keys.
Qed.

(** X16. update_timeline returns False without writing exactly when the path
    is not accepted or the new file gives no point. Otherwise it raises
    exactly when the points of the timeline and of the new file hold an aware
    and a naive timestamp, and else returns True after writing, at the
    timeline path and under the session and device of the path, the
    non-empty consolidation of the timeline's points with the new ones, which
    holds every key of the new file. *)
Theorem update_timeline_outcome (fs : filesystem) (new_file nc_path data_dir : str) :
  (update_timeline fs new_file nc_path data_dir = Some (false, None)
   ↔ parse_nextcloud_path nc_path = None ∨ (collect_track_points fs new_file).1 = [])
  ∧ ∀ u s d date,
      parse_nextcloud_path nc_path = Some (u, s, d, date) →
      (collect_track_points fs new_file).1 ≠ [] →
      (update_timeline fs new_file nc_path data_dir = None
       ↔ mixed ((collect_track_points fs (timeline_path_of data_dir u s d)).1
                ++ (collect_track_points fs new_file).1))
      ∧ ∀ r, update_timeline fs new_file nc_path data_dir = Some r →
          ∃ unique,
            r = (true, Some (mkTimeline (timeline_path_of data_dir u s d) s d unique))
            ∧ consolidate (collect_track_points fs (timeline_path_of data_dir u s d)).1
                [(collect_track_points fs new_file).1] = Some unique
            ∧ unique ≠ []
            ∧ ∀ q, q ∈ (collect_track_points fs new_file).1 →
                identity_key q ∈ identity_key <$> unique.
Proof.
  assert (Hyes : ∀ u s d date,
      parse_nextcloud_path nc_path = Some (u, s, d, date) →
      (collect_track_points fs new_file).1 ≠ [] →
      (update_timeline fs new_file nc_path data_dir = None
       ↔ mixed ((collect_track_points fs (timeline_path_of data_dir u s d)).1
                ++ (collect_track_points fs new_file).1))
      ∧ ∀ r, update_timeline fs new_file nc_path data_dir = Some r →
          ∃ unique,
            r = (true, Some (mkTimeline (timeline_path_of data_dir u s d) s d unique))
            ∧ consolidate (collect_track_points fs (timeline_path_of data_dir u s d)).1
                [(collect_track_points fs new_file).1] = Some unique
            ∧ unique ≠ []
            ∧ ∀ q, q ∈ (collect_track_points fs new_file).1 →
                identity_key q ∈ identity_key <$> unique).
  { intros u s d date Hp Hne.
    rewrite (update_timeline_unfold _ _ _ _ _ _ _ _ Hp Hne).
    pose proof (consolidate_None_iff
                  (collect_track_points fs (timeline_path_of data_dir u s d)).1
                  [(collect_track_points fs new_file).1]) as Hnone.
    cbn [concat] in Hnone. rewrite app_nil_r in Hnone.
    destruct (consolidate _ _) as [unique|] eqn:Hc; cbn [mbind option_bind].
    - split; [split; [done|]; intros Hm; by apply Hnone in Hm|].
      intros r [= <-]. exists unique. split_and!; [done..| |].
      + eapply consolidate_nonempty; [exact Hc|]. cbn [concat].
        rewrite app_nil_r. intros [_ ?]%app_eq_nil. done.
      + intros q Hq. rewrite (consolidate_keys _ _ _ _ Hc). cbn [concat].
        rewrite app_nil_r. apply list_elem_of_fmap_2, elem_of_app. by right.
    - split; [split; [intros _; by apply Hnone|done]|]. intros r [=]. }
  split; [|exact Hyes].
  destruct (parse_nextcloud_path nc_path) as [[[[u s] d] date]|] eqn:Hp.
  - destruct (decide ((collect_track_points fs new_file).1 = [])) as [He|Hne].
    + unfold update_timeline. rewrite Hp, He. split; [by right|done].
    + destruct (Hyes u s d date eq_refl Hne) as [_ Hr]. split.
      * intros Hu. destruct (Hr _ Hu) as (unique & [=] & _).
      * intros [?|?]; done.
  - unfold update_timeline. rewrite Hp. split; [by left|done].
Qed.

Lemma update_timeline_outcome_witness :
  ∃ unique,
    update_timeline updater_fs (lit "/tmp/upload.gpx") sample_nc_path (lit "/mnt/ncdata")
    = Some (true,
            Some (mkTimeline
                    (timeline_path_of (lit "/mnt/ncdata") (lit "anna") (lit "trip")
                       (lit "phone"))
                    (lit "trip") (lit "phone") unique))
    ∧ unique ≠ [].
Proof.
  assert (Hp : parse_nextcloud_path sample_nc_path
               = Some (lit "anna", lit "trip", lit "phone", lit "2024-01-02"))
    by (vm_compute; reflexivity).
  assert (Hne : (collect_track_points updater_fs (lit "/tmp/upload.gpx")).1 ≠ [])
    by (vm_compute; discriminate).
  destruct (proj2 (update_timeline_outcome updater_fs (lit "/tmp/upload.gpx")
                     sample_nc_path (lit "/mnt/ncdata")) _ _ _ _ Hp Hne) as [_ Hr].
  destruct (Hr (true,
                Some (mkTimeline
                        (timeline_path_of (lit "/mnt/ncdata") (lit "anna") (lit "trip")
                           (lit "phone"))
                        (lit "trip") (lit "phone") (collect_from_root other_root))))
    as (unique & Heq & _ & Hnil & _); [vm_compute; reflexivity|].
  exists unique. split; [|exact Hnil].
  rewrite <- Heq. vm_compute. reflexivity.
Defined.

(** X17. For an accepted path and a new file with at least one point,
    update_timeline consolidates as merge_group of the batch script does for
    the one source file with the timeline as existing timeline: it raises
    when merge_group raises, and otherwise its write_gpx receives the path,
    the two names and the points, in the same order, that the write_gpx of
    the batch script receives. The files written are not the same text: the
    two write_gpx put different creator and schemaLocation attributes in the
    gpx element. *)
Theorem update_timeline_as_merge_group (fs : filesystem)
    (new_file nc_path data_dir u s d date : str) :
  parse_nextcloud_path nc_path = Some (u, s, d, date) →
  (collect_track_points fs new_file).1 ≠ [] →
  update_timeline fs new_file nc_path data_dir
  = match (merge_group fs [new_file] (timeline_path_of data_dir u s d) s d
             (Some (timeline_path_of data_dir u s d))).1 with
    | Raised => None
    | Returned _ written => Some (true, written)
    end.
Proof.
  intros Hp Hne. rewrite (update_timeline_unfold _ _ _ _ _ _ _ _ Hp Hne).
  rewrite merge_group_outcome, load_files_points. unfold load_existing.
  assert (Hex : (if decide (is_Some (fs !! timeline_path_of data_dir u s d))
                 then let '(points, w) :=
                        collect_track_points fs (timeline_path_of data_dir u s d) in
                      (points, Loading_existing (timeline_path_of data_dir u s d)
                               :: w ++ [Existing_points (length points)])
                 else ([], [])).1
                = (collect_track_points fs (timeline_path_of data_dir u s d)).1).
  { rewrite <- (updater_existing_points fs (timeline_path_of data_dir u s d)).
    destruct (decide (is_Some (fs !! timeline_path_of data_dir u s d))); [|done].
    by destruct (collect_track_points fs (timeline_path_of data_dir u s d)). }
  rewrite Hex. cbn [mbind list_bind mjoin fmap list_fmap concat app].
  unfold consolidate, outcome_of. cbn [concat].
  rewrite !app_nil_r.
  destruct ((collect_track_points fs (timeline_path_of data_dir u s d)).1
            ++ (collect_track_points fs new_file).1) eqn:Hall.
  { apply app_eq_nil in Hall as [_ ?]. done. }
  by destruct (sort_by_timestamp _).
Qed.

Lemma update_timeline_as_merge_group_witness :
  update_timeline updater_fs (lit "/tmp/upload.gpx") sample_nc_path (lit "/mnt/ncdata")
  = match (merge_group updater_fs [lit "/tmp/upload.gpx"]
             (timeline_path_of (lit "/mnt/ncdata") (lit "anna") (lit "trip") (lit "phone"))
             (lit "trip") (lit "phone")
             (Some (timeline_path_of (lit "/mnt/ncdata") (lit "anna") (lit "trip")
                      (lit "phone")))).1 with
    | Raised => None
    | Returned _ written => Some (true, written)
    end.
Proof.
  apply (update_timeline_as_merge_group updater_fs (lit "/tmp/upload.gpx") sample_nc_path
           (lit "/mnt/ncdata") (lit "anna") (lit "trip") (lit "phone") (lit "2024-01-02")).
  - vm_compute. reflexivity.
  - vm_compute. discriminate.
Defined.

(** X18. A timeline that exists but cannot be parsed is read as empty: the
    file that update_timeline then writes in its place holds the points of
    the new file only, deduplicated and sorted. *)
Theorem update_timeline_unreadable_timeline (fs : filesystem)
    (new_file nc_path data_dir u s d date : str) :
  parse_nextcloud_path nc_path = Some (u, s, d, date) →
  (collect_track_points fs new_file).1 ≠ [] →
  fs !! timeline_path_of data_dir u s d = Some Malformed →
  update_timeline fs new_file nc_path data_dir
  = unique ← sort_by_timestamp (remove_duplicates (collect_track_points fs new_file).1);
    Some (true, Some (mkTimeline (timeline_path_of data_dir u s d) s d unique)).
Proof.
  intros Hp Hne Hbad. rewrite (update_timeline_unfold _ _ _ _ _ _ _ _ Hp Hne).
  unfold consolidate. cbn [concat]. rewrite app_nil_r.
  unfold collect_track_points at 1, ET_parse. by rewrite Hbad.
Qed.

Lemma update_timeline_unreadable_timeline_witness :
  update_timeline updater_fs (lit "/tmp/upload.gpx") sample_nc_path (lit "/mnt/ncdata")
  = unique ← sort_by_timestamp
               (remove_duplicates
                  (collect_track_points updater_fs (lit "/tmp/upload.gpx")).1);
    Some (true,
          Some (mkTimeline
                  (timeline_path_of (lit "/mnt/ncdata") (lit "anna") (lit "trip")
                     (lit "phone"))
                  (lit "trip") (lit "phone") unique)).
Proof.
  apply (update_timeline_unreadable_timeline updater_fs (lit "/tmp/upload.gpx")
           sample_nc_path (lit "/mnt/ncdata") (lit "anna") (lit "trip") (lit "phone")
           (lit "2024-01-02")).
  - vm_compute. reflexivity.
  - vm_compute. discriminate.
  - vm_compute. reflexivity.
Defined.

(** ** Sorting a list before the duplicate removal *)

Lemma sorted_classes_eq l1 l2 :
  StronglySorted ts_le l1 → StronglySorted ts_le l2 →
  (∀ t, filter (fun p => instant p.1 = t) l1 = filter (fun p => instant p.1 = t) l2) →
  l1 = l2.
Proof.
  intros Hs1. revert l2. induction Hs1 as [|x l1 Hs1 IH Hx]; intros l2 Hs2 Hf.
  - destruct l2 as [|y l2]; [done|]. specialize (Hf (instant y.1)).
    rewrite filter_cons_True in Hf by done. done.
  - destruct Hs2 as [|y l2 Hs2 Hy].
    { specialize (Hf (instant x.1)). rewrite filter_cons_True in Hf by done. done. }
    assert (Hxy : instant x.1 = instant y.1).
    { assert (Hxin : x ∈ y :: l2).
      { pose proof (Hf (instant x.1)) as Hfx. rewrite filter_cons_True in Hfx by done.
        assert (Hin : x ∈ filter (fun p => instant p.1 = instant x.1) (y :: l2))
          by (rewrite <- Hfx; left).
        by apply list_elem_of_filter in Hin as [_ ?]. }
      assert (Hyin : y ∈ x :: l1).
      { pose proof (Hf (instant y.1)) as Hfy.
        rewrite (filter_cons_True _ y) in Hfy by done.
        assert (Hin : y ∈ filter (fun p => instant p.1 = instant y.1) (x :: l1))
          by (rewrite Hfy; left).
        by apply list_elem_of_filter in Hin as [_ ?]. }
      apply elem_of_cons in Hxin as [->|Hxin]; [done|].
      apply elem_of_cons in Hyin as [->|Hyin]; [done|].
      rewrite Forall_forall in Hx, Hy.
      specialize (Hx _ Hyin). specialize (Hy _ Hxin). unfold ts_le in *. lia. }
    pose proof (Hf (instant x.1)) as Hfx.
    rewrite filter_cons_True in Hfx by done.
    rewrite (filter_cons_True _ y) in Hfx by done.
    injection Hfx as -> Ht. f_equal. apply IH; [done|]. intros t.
    destruct (decide (instant y.1 = t)) as [<-|Hne]; [exact Ht|].
    specialize (Hf t). by rewrite !filter_cons_False in Hf by done.
Qed.

Lemma valid_key_timestamp p q :
  valid_datetime p.1 → valid_datetime q.1 →
  identity_key p = identity_key q → p.1 = q.1.
Proof.
  intros Hp Hq Hk. apply (f_equal (fun k => k.2)) in Hk. cbn [identity_key snd] in Hk.
  apply parse_timestamp_isoformat in Hp, Hq. rewrite Hk in Hp. congruence.
Qed.

Lemma remove_duplicates_filter t l :
  Forall (fun p => valid_datetime p.1) l →
  filter (fun p => instant p.1 = t) (remove_duplicates l)
  = remove_duplicates (filter (fun p => instant p.1 = t) l).
Proof.
  unfold remove_duplicates. induction l as [|p l IH] using rev_ind; intros Hv; [done|].
  apply Forall_app in Hv as [Hl Hp]. rewrite Forall_singleton in Hp.
  rewrite dedup_unique_snoc, !filter_app, IH by done.
  destruct (decide (instant p.1 = t)) as [Ht|Ht].
  - rewrite (filter_cons_True _ p []) by done. rewrite filter_nil, dedup_unique_snoc.
    f_equal.
    assert (Hiff : identity_key p ∈ identity_key <$> l
                   ↔ identity_key p
                       ∈ identity_key <$> filter (fun p => instant p.1 = t) l).
    { split.
      - intros (q & Hk & Hq)%list_elem_of_fmap. apply list_elem_of_fmap.
        exists q. split; [done|]. apply list_elem_of_filter. split; [|done].
        rewrite Forall_forall in Hl.
        by rewrite <- (valid_key_timestamp p q Hp (Hl q Hq) Hk).
      - intros (q & Hk & Hq)%list_elem_of_fmap. apply list_elem_of_fmap.
        exists q. split; [done|]. by apply list_elem_of_filter in Hq as [_ ?]. }
    do 2 case_decide;
      first [tauto | done | by rewrite (filter_cons_True _ p []) by done].
  - rewrite (filter_cons_False _ p []) by done. rewrite filter_nil, !app_nil_r.
    case_decide; [by rewrite filter_nil, app_nil_r|].
    by rewrite (filter_cons_False _ p []), filter_nil, app_nil_r by done.
Qed.

Lemma all_of_kind_remove_duplicates b l :
  all_of_kind b l → all_of_kind b (remove_duplicates l).
Proof.
  unfold all_of_kind. rewrite !Forall_forall. intros Hl p Hp.
  by apply Hl, remove_duplicates_elem_of.
Qed.

(** Two lists with the same points at each instant, in the same order, give
    the same timeline. *)
Lemma sort_dedup_classes L L' :
  L' ≡ₚ L →
  (∀ t, filter (fun p => instant p.1 = t) L' = filter (fun p => instant p.1 = t) L) →
  Forall (fun p => valid_datetime p.1) L →
  sort_by_timestamp (remove_duplicates L') = sort_by_timestamp (remove_duplicates L).
Proof.
  intros Hperm Hf Hv. destruct (kind_or_mixed L) as [[b Hb]|Hm].
  - assert (Hb' : all_of_kind b L') by (unfold all_of_kind; by rewrite Hperm).
    rewrite !(sort_same_kind b) by by apply all_of_kind_remove_duplicates.
    f_equal. apply sorted_classes_eq; [apply place_all_sorted..|]. intros t.
    rewrite !place_all_filter, !remove_duplicates_filter, Hf; [done..|].
    by rewrite Hperm.
  - rewrite (sort_mixed (remove_duplicates L)) by by apply mixed_remove_duplicates.
    apply sort_mixed, mixed_remove_duplicates. eapply mixed_perm; [|exact Hm]. done.
Qed.

Lemma sort_presorted E N :
  Forall (fun p => valid_datetime p.1) (E ++ N) →
  (E' ← sort_by_timestamp E; sort_by_timestamp (remove_duplicates (E' ++ N)))
  = sort_by_timestamp (remove_duplicates (E ++ N)).
Proof.
  intros Hv. destruct (sort_by_timestamp E) as [E'|] eqn:HE; cbn [mbind option_bind].
  - apply sort_Some in HE as [-> _]. apply sort_dedup_classes; [|  |done].
    + by rewrite place_all_perm.
    + intros t. by rewrite !filter_app, place_all_filter.
  - symmetry. apply sort_mixed, mixed_remove_duplicates, mixed_app_l.
    by apply sort_None_iff.
Qed.

Lemma sort_presorted_both E N :
  Forall (fun p => valid_datetime p.1) (E ++ N) →
  (E' ← sort_by_timestamp E; N' ← sort_by_timestamp N;
   sort_by_timestamp (remove_duplicates (E' ++ N')))
  = sort_by_timestamp (remove_duplicates (E ++ N)).
Proof.
  intros Hv. destruct (sort_by_timestamp N) as [N'|] eqn:HN.
  - apply sort_Some in HN as [-> _]. rewrite <- (sort_presorted E N Hv).
    destruct (sort_by_timestamp E) as [E'|] eqn:HE; cbn [mbind option_bind]; [|done].
    apply sort_Some in HE as [-> _]. apply Forall_app in Hv as [HvE HvN].
    apply sort_dedup_classes.
    + by rewrite !place_all_perm.
    + intros t. by rewrite !filter_app, !place_all_filter.
    + apply Forall_app. split; [by rewrite place_all_perm|done].
  - transitivity (@None (list point)).
    + by destruct (sort_by_timestamp E).
    + symmetry. apply sort_mixed, mixed_remove_duplicates, mixed_app_r.
      by apply sort_None_iff.
Qed.

Lemma collect_one_keep_2000_valid a p :
  collect_one_keep_2000 a = Some p → valid_datetime p.1.
Proof.
  intros (_ & te & txt & _ & _ & _ & Hp)%collect_one_keep_2000_inv.
  by apply parse_timestamp_valid in Hp.
Qed.

Lemma collect_from_root_valid root :
  Forall (fun p => valid_datetime p.1) (collect_from_root root).
Proof.
  apply Forall_forall. intros p (a & _ & Ha)%list_elem_of_omap.
  by apply collect_one_keep_2000_Some, collect_one_keep_2000_valid in Ha.
Qed.

Lemma collect_track_points_daily_valid fs f l :
  collect_track_points_daily fs f = Some l → Forall (fun p => valid_datetime p.1) l.
Proof.
  unfold collect_track_points_daily. destruct (ET_parse fs f) as [root|]; [|done].
  intros [= <-]. apply Forall_forall. intros p (a & _ & Ha)%list_elem_of_omap.
  by apply collect_one_keep_2000_valid in Ha.
Qed.

Lemma collect_all_daily_valid fs files l :
  collect_all_daily fs files = Some l → Forall (fun p => valid_datetime p.1) l.
Proof.
  revert l. induction files as [|f files IH]; intros l; cbn [collect_all_daily].
  - intros [= <-]. constructor.
  - destruct (collect_track_points_daily fs f) as [points|] eqn:Hf; [|done].
    destruct (collect_all_daily fs files) as [more|]; [|done].
    cbn [mbind option_bind]. intros [= <-]. apply Forall_app. split.
    + by eapply collect_track_points_daily_valid.
    + by apply IH.
Qed.

Lemma consolidate_one E N :
  consolidate E [N] = sort_by_timestamp (remove_duplicates (E ++ N)).
Proof. unfold consolidate. cbn [concat]. by rewrite app_nil_r. Qed.

Lemma consolidate_nil_iff E N R :
  consolidate E [N] = Some R → R = [] ↔ E ++ N = [].
Proof.
  intros Hc. split.
  - intros ->. destruct (decide (E ++ N = [])) as [|Hne]; [done|].
    exfalso. eapply consolidate_nonempty; [exact Hc| |done].
    cbn [concat]. by rewrite app_nil_r.
  - intros Hnil. rewrite consolidate_one, Hnil in Hc. by injection Hc as <-.
Qed.

Lemma script_result_of_consolidate E N :
  let r := match consolidate E [N] with
           | None => mkResult None true
           | Some unique => mkResult (Some unique) (bool_decide (unique = []))
           end in
  sr_written r = consolidate E [N]
  ∧ (sr_raised r = true ↔ mixed (E ++ N) ∨ E ++ N = []).
Proof.
  pose proof (consolidate_None_iff E [N]) as Hnone.
  cbn [concat] in Hnone. rewrite app_nil_r in Hnone.
  destruct (consolidate E [N]) as [unique|] eqn:Hc; cbn zeta; cbn [sr_written sr_raised].
  - split; [done|]. rewrite bool_decide_eq_true, (consolidate_nil_iff _ _ _ Hc).
    split; [by right|]. intros [Hm|?]; [|done]. by apply Hnone in Hm.
  - split; [done|]. split; [|done]. intros _. left. by apply Hnone.
Qed.

(** X19. merge_gabor_timelines.py sorts each of the two point lists before it
    joins them; this changes nothing: when both files parse, what the script
    writes is the consolidation of the earlier points with the new ones as
    read, and the run ends in an exception exactly when the points hold an
    aware and a naive timestamp (nothing is written) or when there is no
    point at all (an empty timeline has been written). *)
Theorem merge_gabor_timelines_presort (fs : filesystem) (earlier_file new_file : str)
    (E N : list point) :
  collect_track_points_gabor fs earlier_file = Some E →
  collect_track_points_gabor fs new_file = Some N →
  sr_written (merge_gabor_timelines fs earlier_file new_file) = consolidate E [N]
  ∧ (sr_raised (merge_gabor_timelines fs earlier_file new_file) = true
     ↔ mixed (E ++ N) ∨ E ++ N = []).
Proof.
  intros HE HN. unfold merge_gabor_timelines. rewrite HE, HN. cbn [mbind option_bind].
  assert (Hv : Forall (fun p => valid_datetime p.1) (E ++ N)).
  { unfold collect_track_points_gabor in HE, HN.
    destruct (ET_parse fs earlier_file) as [r1|]; [|done].
    destruct (ET_parse fs new_file) as [r2|]; [|done].
    injection HE as <-. injection HN as <-.
    apply Forall_app. split; apply collect_from_root_valid. }
  pose proof (sort_presorted_both E N Hv) as Hs. cbn [mbind option_bind] in Hs.
  rewrite Hs, <- consolidate_one. apply script_result_of_consolidate.
Qed.

Lemma merge_gabor_timelines_presort_witness :
  sr_written (merge_gabor_timelines sample_fs (lit "other.gpx") (lit "sentinel.gpx"))
  = consolidate (collect_from_root other_root) [collect_from_root sentinel_root].
Proof.
  apply (merge_gabor_timelines_presort sample_fs (lit "other.gpx") (lit "sentinel.gpx")
           (collect_from_root other_root) (collect_from_root sentinel_root));
    vm_compute; reflexivity.
Defined.

(** X20. merge_daily_exports.py sorts the points of the timeline before it
    appends those of the daily files; this changes nothing: when all files
    parse, what the script writes is the consolidation of the timeline's
    points with the daily points as read, year-2000 points included, and the
    run ends in an exception exactly when the points hold an aware and a
    naive timestamp (nothing is written) or when there is no point at all (an
    empty timeline has been written). *)
Theorem merge_daily_exports_presort (fs : filesystem) (timeline_file : str)
    (daily_files : list str) (T D : list point) :
  collect_track_points_daily fs timeline_file = Some T →
  collect_all_daily fs daily_files = Some D →
  sr_written (merge_daily_exports fs timeline_file daily_files) = consolidate T [D]
  ∧ (sr_raised (merge_daily_exports fs timeline_file daily_files) = true
     ↔ mixed (T ++ D) ∨ T ++ D = []).
Proof.
  intros HT HD. unfold merge_daily_exports. rewrite HT, HD. cbn [mbind option_bind].
  assert (Hv : Forall (fun p => valid_datetime p.1) (T ++ D)).
  { apply Forall_app. split.
    - by eapply collect_track_points_daily_valid.
    - by eapply collect_all_daily_valid. }
  pose proof (sort_presorted T D Hv) as Hs. cbn [mbind option_bind] in Hs.
  rewrite Hs, <- consolidate_one. apply script_result_of_consolidate.
Qed.

Lemma merge_daily_exports_presort_witness :
  sr_written (merge_daily_exports sample_fs (lit "other.gpx") [lit "sentinel.gpx"])
  = consolidate (omap collect_one_keep_2000 (findall_descendants other_root (gpx "trkpt")))
      [omap collect_one_keep_2000 (findall_descendants sentinel_root (gpx "trkpt"))].
Proof.
  apply (merge_daily_exports_presort sample_fs (lit "other.gpx") [lit "sentinel.gpx"]);
    vm_compute; reflexivity.
Defined.

(** ** Updating step by step *)

Lemma remove_duplicates_absorb X Y :
  remove_duplicates (remove_duplicates X ++ Y) = remove_duplicates (X ++ Y).
Proof.
  unfold remove_duplicates. induction Y as [|p Y IH] using rev_ind.
  - rewrite !app_nil_r. apply dedup_unique_id, dedup_unique_NoDup.
  - rewrite !app_assoc, !dedup_unique_snoc, IH. f_equal.
    assert (Hiff : identity_key p ∈ identity_key <$> (dedup_loop identity_key X).2 ++ Y
                   ↔ identity_key p ∈ identity_key <$> X ++ Y).
    { by rewrite !fmap_app, !elem_of_app, dedup_unique_keys. }
    do 2 case_decide; first [tauto | done].
Qed.

Lemma valid_remove_duplicates l :
  Forall (fun p => valid_datetime p.1) l →
  Forall (fun p => valid_datetime p.1) (remove_duplicates l).
Proof.
  rewrite !Forall_forall. intros Hl p Hp. by apply Hl, remove_duplicates_elem_of.
Qed.

Lemma consolidate_step E Ls B R :
  Forall (fun p => valid_datetime p.1) (E ++ concat Ls ++ B) →
  consolidate E Ls = Some R →
  consolidate R [B] = consolidate E (Ls ++ [B]).
Proof.
  intros Hv [-> _]%consolidate_Some. unfold consolidate.
  rewrite concat_app. cbn [concat]. rewrite !app_nil_r, app_assoc.
  rewrite <- (remove_duplicates_absorb (E ++ concat Ls) B).
  rewrite app_assoc in Hv. apply Forall_app in Hv as [HvX HvB].
  apply sort_dedup_classes.
  - by rewrite place_all_perm.
  - intros t. by rewrite !filter_app, place_all_filter.
  - apply Forall_app. split; [by apply valid_remove_duplicates|done].
Qed.

(** X21. Updating a timeline file by file gives what one merge of all files
    gives: when the consolidation of the existing points with some point
    lists produces a timeline, consolidating that timeline with one more list
    is the consolidation of the existing points with all the lists, the
    exception of the sort included. The timestamps are such as the parser
    returns. *)
Theorem consolidate_incremental (E : list point) (Ls : list (list point))
    (B R : list point) :
  Forall (fun p => valid_datetime p.1) (E ++ concat Ls ++ B) →
  consolidate E Ls = Some R →
  consolidate R [B] = consolidate E (Ls ++ [B]).
Proof. apply consolidate_step. Qed.

Lemma consolidate_incremental_witness :
  consolidate [point_Z] [[point_leap_day]]
  = consolidate [point_Z; point_offset] ([[point_Z_low]] ++ [[point_leap_day]]).
Proof.
  apply (consolidate_incremental [point_Z; point_offset] [[point_Z_low]]
           [point_leap_day] [point_Z]).
  - repeat constructor; vm_compute; intros; discriminate.
  - vm_compute. reflexivity.
Defined.

(** ** One output file per group *)

Lemma canonical_decomposition_underscore c :
  contains_char chr_underscore (canonical_decomposition c) = N.eqb chr_underscore c.
Proof. case_code_point c; reflexivity. Qed.

Lemma contains_char_cons x c l :
  contains_char x (c :: l) = N.eqb x c || contains_char x l.
Proof. done. Qed.

Lemma contains_char_filter_not_Mn l :
  contains_char chr_underscore (filter (fun c => is_Mn c = false) l)
  = contains_char chr_underscore l.
Proof.
  induction l as [|c l IH]; [done|]. rewrite filter_cons. case_decide as Hc.
  - by rewrite !contains_char_cons, IH.
  - rewrite contains_char_cons, IH.
    destruct (N.eqb chr_underscore c) eqn:Hu; [|done].
    apply N.eqb_eq in Hu as <-. by destruct Hc.
Qed.

Lemma normalize_text_underscore s :
  contains_char chr_underscore (normalize_text s) = contains_char chr_underscore s.
Proof.
  unfold normalize_text. rewrite contains_char_filter_not_Mn. unfold nfd.
  induction s as [|c s IH]; [done|]. cbn [flat_map].
  rewrite contains_char_app, IH, canonical_decomposition_underscore. done.
Qed.

Lemma last_underscore_unique a b a' b' :
  contains_char chr_underscore b = false → contains_char chr_underscore b' = false →
  a ++ chr_underscore :: b = a' ++ chr_underscore :: b' → a = a' ∧ b = b'.
Proof.
  intros Hb Hb'. revert a'. induction a as [|x a IH]; intros [|y a'] Heq.
  - by injection Heq as ->.
  - injection Heq as <- ->.
    rewrite contains_char_app, contains_char_cons, N.eqb_refl, orb_true_r in Hb. done.
  - injection Heq as -> <-.
    rewrite contains_char_app, contains_char_cons, N.eqb_refl, orb_true_r in Hb'. done.
  - injection Heq as -> Heq. destruct (IH _ Heq) as [-> ->]. done.
Qed.

Lemma output_path_of_inj dir s u s' u' :
  contains_char chr_underscore u = false → contains_char chr_underscore u' = false →
  output_path_of dir s u = output_path_of dir s' u' →
  normalize_text s = normalize_text s' ∧ normalize_text u = normalize_text u'.
Proof.
  intros Hu Hu' Heq. unfold output_path_of in Heq.
  apply app_inv_head, app_inv_head in Heq.
  rewrite 2!(app_assoc _ _ (lit "_TIMELINE.gpx")) in Heq.
  rewrite 2!(app_assoc _ _ (lit "_TIMELINE.gpx")) in Heq.
  apply app_inv_tail in Heq.
  change (lit "_") with [chr_underscore] in Heq. cbn [app] in Heq.
  apply last_underscore_unique in Heq; [done|by rewrite normalize_text_underscore..].
Qed.

Lemma scan_group_key found k s u files :
  scan_and_group_files found !! k = Some (s, u, files) →
  k = (lower (normalize_text s), lower (normalize_text u))
  ∧ ∃ f rest, files = f :: rest ∧ ∃ d, parse_filename (path_name f) = Some (s, u, d).
Proof.
  rewrite scan_and_group_files_lookup. unfold group_of.
  destruct (filter _ found) as [|f rest] eqn:Hf; [done|]. intros [= Hs Hu <-].
  assert (Hin : f ∈ filter (fun f => file_key f = Some k) found) by (rewrite Hf; left).
  apply list_elem_of_filter in Hin as [Hk _].
  unfold file_key in Hk. unfold display_names in Hs, Hu.
  destruct (parse_filename (path_name f)) as [[[s0 u0] d]|] eqn:Hp; [|done].
  simpl in Hs, Hu. subst s0 u0. injection Hk as <-.
  split; [done|]. exists f, rest. split; [done|]. by exists d.
Qed.

(** X22. Two groups of one scan are written to different timeline files when
    their user names hold no underscore, as every user name read by the full
    pattern does: the output path of a group then determines its key. *)
Theorem groups_have_distinct_outputs (found : list str) (output_dir : str)
    (k1 k2 : group_key) (s1 u1 s2 u2 : str) (files1 files2 : list str) :
  scan_and_group_files found !! k1 = Some (s1, u1, files1) →
  scan_and_group_files found !! k2 = Some (s2, u2, files2) →
  contains_char chr_underscore u1 = false →
  contains_char chr_underscore u2 = false →
  k1 ≠ k2 →
  output_path_of output_dir s1 u1 ≠ output_path_of output_dir s2 u2.
Proof.
  intros [-> _]%scan_group_key [-> _]%scan_group_key Hu1 Hu2 Hne Heq.
  apply output_path_of_inj in Heq as [Hs Hu]; [|done..].
  apply Hne. by rewrite Hs, Hu.
Qed.

Lemma groups_have_distinct_outputs_witness :
  output_path_of (lit "out") (lit "Agi") (lit "Anna")
  ≠ output_path_of (lit "out") (lit "Trip") (lit "Bob").
Proof.
  apply (groups_have_distinct_outputs
           [lit "d/Agi_Anna.gpx"; lit "d/Trip_Bob.gpx"; lit "d/agi_anna.gpx"]
           (lit "out") (lit "agi", lit "anna") (lit "trip", lit "bob")
           (lit "Agi") (lit "Anna") (lit "Trip") (lit "Bob")
           [lit "d/Agi_Anna.gpx"; lit "d/agi_anna.gpx"] [lit "d/Trip_Bob.gpx"]);
    vm_compute; first [reflexivity | discriminate].
Defined.

(** ** The lines written for a point *)

Lemma create_merged_gpx_point_eq trkpt :
  create_merged_gpx_point trkpt
  = [trkpt_line trkpt]
    ++ optional_line "   " trkpt "time"
    ++ optional_line "   " trkpt "ele"
    ++ optional_line "   " trkpt "sat"
    ++ extensions_lines trkpt
    ++ [lit "  </trkpt>"].
Proof.
  unfold create_merged_gpx_point, extensions_lines.
  destruct (find trkpt (gpx "extensions")) as [ext|]; [|done].
  unfold extension_tags. cbn [flat_map]. by rewrite app_nil_r, <- !app_assoc.
Qed.

Lemma point_writers_time pt :
  write_gpx_point pt = create_merged_gpx_point pt
  ↔ match find pt (gpx "time") with
    | Some time_elem => is_Some (nonempty_text time_elem)
    | None => True
    end.
Proof.
  rewrite create_merged_gpx_point_eq. unfold write_gpx_point.
  unfold optional_line at 3, find_text.
  destruct (find pt (gpx "time")) as [te|]; cbn [mbind option_bind]; [|done].
  unfold nonempty_text. destruct (text te) as [[|c r]|]; cbn [format_value default].
  - split; [|by intros [? ?]]. intros Heq. apply (f_equal length) in Heq.
    rewrite !length_app in Heq. simpl in Heq. lia.
  - split; [by eexists|done].
  - split; [|by intros [? ?]]. intros Heq. apply (f_equal length) in Heq.
    rewrite !length_app in Heq. simpl in Heq. lia.
Qed.

(** X23. The two writers give the same lines for a point exactly when the
    point has no time element or one with a non-empty text: write_gpx writes
    a time line for an empty time element, create_merged_gpx does not. On
    every point that an extractor returns they agree, and the second line
    is the time element with the text as it was read, which parses to the
    timestamp of the point. *)
Theorem point_writers_agree (pt : Element) :
  (write_gpx_point pt = create_merged_gpx_point pt
   ↔ match find pt (gpx "time") with
     | Some time_elem => is_Some (nonempty_text time_elem)
     | None => True
     end)
  ∧ ∀ p, collect_one_keep_2000 pt = Some p →
      write_gpx_point p.2 = create_merged_gpx_point p.2
      ∧ ∃ txt, write_gpx_point p.2 !! 1%nat = Some (element_line "   " "time" txt)
               ∧ parse_timestamp txt = Some p.1.
Proof.
  split; [apply point_writers_time|].
  intros p (-> & te & txt & Hf & Ht & Hne & Hp)%collect_one_keep_2000_inv. split.
  - apply point_writers_time. rewrite Hf. unfold nonempty_text. rewrite Ht.
    destruct txt; [done|by eexists].
  - exists txt. split; [|done]. unfold write_gpx_point. rewrite Hf, Ht. done.
Qed.

Lemma point_writers_agree_witness :
  write_gpx_point point_Z.2 = create_merged_gpx_point point_Z.2.
Proof.
  refine (proj1 (proj2 (point_writers_agree point_Z.2) point_Z _)).
  vm_compute. reflexivity.
Defined.

Lemma find_insert t cs1 c cs2 :
  tag c ≠ t ∨ (∃ c0, c0 ∈ cs1 ∧ tag c0 = t) →
  List.find (fun x => bool_decide (tag x = t)) (cs1 ++ c :: cs2)
  = List.find (fun x => bool_decide (tag x = t)) (cs1 ++ cs2).
Proof.
  induction cs1 as [|x cs1 IH]; intros Hc.
  - destruct Hc as [Hc|(c0 & Hin & _)]; [|by apply elem_of_nil in Hin].
    cbn [app List.find]. by rewrite bool_decide_eq_false_2.
  - cbn [app List.find]. destruct (bool_decide (tag x = t)) eqn:Hx; [done|].
    apply IH. destruct Hc as [Hc|(c0 & Hin & Ht)]; [by left|right].
    apply elem_of_cons in Hin as [->|Hin]; [|by exists c0].
    apply bool_decide_eq_false in Hx. done.
Qed.

Lemma unread_child (t : str) (cs1 : list Element) (c : Element) :
  t ∈ written_tags →
  tag c ∉ written_tags ∨ (∃ c0, c0 ∈ cs1 ∧ tag c0 = tag c) →
  tag c ≠ t ∨ (∃ c0, c0 ∈ cs1 ∧ tag c0 = t).
Proof.
  intros Ht [Hc|(c0 & Hin & Hc0)].
  - left. intros Heq. apply Hc. by rewrite Heq.
  - destruct (decide (tag c = t)) as [Heq|Hne]; [right|by left].
    exists c0. split; [done|]. by rewrite Hc0.
Qed.

Lemma writers_read_first_children t a x cs1 c cs2 :
  tag c ∉ written_tags ∨ (∃ c0, c0 ∈ cs1 ∧ tag c0 = tag c) →
  write_gpx_point (mkElement t a x (cs1 ++ c :: cs2))
  = write_gpx_point (mkElement t a x (cs1 ++ cs2))
  ∧ create_merged_gpx_point (mkElement t a x (cs1 ++ c :: cs2))
    = create_merged_gpx_point (mkElement t a x (cs1 ++ cs2)).
Proof.
  intros Hc.
  assert (Hf : ∀ n, gpx n ∈ written_tags →
            find (mkElement t a x (cs1 ++ c :: cs2)) (gpx n)
            = find (mkElement t a x (cs1 ++ cs2)) (gpx n)).
  { intros n Hn. unfold find. cbn [children]. apply find_insert.
    by apply unread_child. }
  assert (Ht : gpx "time" ∈ written_tags) by (unfold written_tags; set_solver).
  assert (He : gpx "ele" ∈ written_tags) by (unfold written_tags; set_solver).
  assert (Hs : gpx "sat" ∈ written_tags) by (unfold written_tags; set_solver).
  assert (Hx : gpx "extensions" ∈ written_tags) by (unfold written_tags; set_solver).
  rewrite !create_merged_gpx_point_eq.
  unfold write_gpx_point, optional_line, find_text, extensions_lines.
  rewrite (Hf _ Ht), (Hf _ He), (Hf _ Hs), (Hf _ Hx). done.
Qed.

(** X24. The writers read the two coordinates and, of the children of a
    point, the first time, ele, sat and extensions element only: a child with
    another tag, and a child that follows one of its own tag, leaves the
    lines written for the point as they are. *)
Theorem writers_ignore_other_children (t : str) (a : list (str * str))
    (x : option str) (cs1 cs2 : list Element) (c : Element) :
  tag c ∉ written_tags ∨ (∃ c0, c0 ∈ cs1 ∧ tag c0 = tag c) →
  write_gpx_point (mkElement t a x (cs1 ++ c :: cs2))
  = write_gpx_point (mkElement t a x (cs1 ++ cs2))
  ∧ create_merged_gpx_point (mkElement t a x (cs1 ++ c :: cs2))
    = create_merged_gpx_point (mkElement t a x (cs1 ++ cs2)).
Proof. apply writers_read_first_children. Qed.

Lemma writers_ignore_other_children_witness :
  write_gpx_point rich_trkpt
  = write_gpx_point
      (mkElement (gpx "trkpt") [(lit "lat", lit "47.5"); (lit "lon", lit "19.0")] None
         ([time_element "2023-06-01T10:05:00Z"; ele_element "100"]
          ++ [mkElement (gpx "extensions") [] None
                [mkElement (gpx "speed") [] (Some (lit "3")) [];
                 mkElement (gpx "note") [] (Some (lit "x")) []]])).
Proof.
  refine (proj1 (writers_ignore_other_children (gpx "trkpt")
                  [(lit "lat", lit "47.5"); (lit "lon", lit "19.0")] None
                  [time_element "2023-06-01T10:05:00Z"; ele_element "100"]
                  [mkElement (gpx "extensions") [] None
                     [mkElement (gpx "speed") [] (Some (lit "3")) [];
                      mkElement (gpx "note") [] (Some (lit "x")) []]]
                  (mkElement (gpx "hdop") [] (Some (lit "1.2")) []) _)).
  left. unfold written_tags. rewrite !not_elem_of_cons.
  split_and!; [vm_compute; discriminate..|apply not_elem_of_nil].
Defined.

(** ** remove_2000_entries.py *)

Lemma collect_one_flagged_true trkpt :
  (collect_one_flagged true trkpt).1 = collect_one trkpt
  ∧ ((collect_one_flagged true trkpt).2 = true
     ↔ collect_one trkpt = None ∧ is_Some (collect_one_keep_2000 trkpt)).
Proof.
  unfold collect_one_flagged, collect_one, collect_one_keep_2000.
  destruct (find trkpt (gpx "time")) as [te|]; cbn [mbind option_bind];
    [|by split; [|split; [|intros [_ [? ?]]]]].
  destruct (nonempty_text te) as [txt|]; cbn [mbind option_bind];
    [|by split; [|split; [|intros [_ [? ?]]]]].
  destruct (parse_timestamp txt) as [ts|]; cbn [mbind option_bind];
    [|by split; [|split; [|intros [_ [? ?]]]]].
  cbn [andb]. destruct (year ts =? 2000); cbn [fst snd].
  - split; [done|]. split; [by split; [|eexists]|done].
  - split; [done|]. split; [done|]. by intros [? _].
Qed.

Lemma collect_one_flagged_false trkpt :
  collect_one_flagged false trkpt = (collect_one_keep_2000 trkpt, false).
Proof.
  unfold collect_one_flagged, collect_one_keep_2000.
  destruct (find trkpt (gpx "time")) as [te|]; cbn [mbind option_bind]; [|done].
  destruct (nonempty_text te) as [txt|]; cbn [mbind option_bind]; [|done].
  by destruct (parse_timestamp txt).
Qed.

Lemma flagged_points_true (l : list Element) :
  omap fst (collect_one_flagged true <$> l) = omap collect_one l.
Proof.
  induction l as [|a l IH]; [done|]. cbn [fmap list_fmap omap list_omap].
  destruct (collect_one_flagged_true a) as [-> _]. by rewrite <- IH.
Qed.

Lemma flagged_points_false (l : list Element) :
  omap fst (collect_one_flagged false <$> l) = omap collect_one_keep_2000 l
  ∧ filter (fun r => r.2 = true) (collect_one_flagged false <$> l) = [].
Proof.
  induction l as [|a l [IH1 IH2]]; [done|]. cbn [fmap list_fmap omap list_omap].
  rewrite collect_one_flagged_false. cbn [fst]. split.
  - by rewrite <- IH1.
  - rewrite filter_cons_False by done. exact IH2.
Qed.

Lemma flagged_count (l : list Element) :
  length (omap collect_one_keep_2000 l)
  = (length (omap collect_one l)
     + length (filter (fun r => r.2 = true) (collect_one_flagged true <$> l)))%nat.
Proof.
  induction l as [|a l IH]; [done|]. cbn [fmap list_fmap omap list_omap].
  destruct (collect_one_flagged_true a) as [_ Hs]. rewrite filter_cons.
  destruct (collect_one a) as [p|] eqn:Hc.
  - rewrite (collect_one_keep_2000_Some _ _ Hc).
    rewrite decide_False by (intros [? _]%Hs; done). cbn [length]. lia.
  - destruct (collect_one_keep_2000 a) as [q|] eqn:Hk.
    + rewrite decide_True by (apply Hs; split; [done|by eexists]). cbn [length]. lia.
    + rewrite decide_False by (intros [_ [? ?]]%Hs; done). exact IH.
Qed.

(** X25. With the flag set, collect_track_points of remove_2000_entries.py
    returns the points that the extractor of auto_merge_timelines.py
    returns, and the number it reports as skipped is the number of parseable
    points left out; without the flag it returns every parseable point and
    reports 0. The script writes the consolidation of the two lists, so a
    point of year 2000 in its output is a point of the second file. *)
Theorem remove_2000_entries_result (fs : filesystem) (file1 file2 : str)
    (root1 root2 : Element) :
  ET_parse fs file1 = Some root1 →
  ET_parse fs file2 = Some root2 →
  let all1 := omap collect_one_keep_2000 (findall_descendants root1 (gpx "trkpt")) in
  let all2 := omap collect_one_keep_2000 (findall_descendants root2 (gpx "trkpt")) in
  (∃ skipped1,
     collect_track_points_flagged fs file1 true
     = Some (collect_from_root root1, skipped1)
     ∧ length all1 = (length (collect_from_root root1) + skipped1)%nat)
  ∧ collect_track_points_flagged fs file2 false = Some (all2, 0%nat)
  ∧ sr_written (remove_2000_entries fs file1 file2)
    = consolidate (collect_from_root root1) [all2]
  ∧ ∀ unique p,
      sr_written (remove_2000_entries fs file1 file2) = Some unique →
      p ∈ unique → year p.1 = 2000 → p ∈ all2.
Proof.
  intros H1 H2 all1 all2.
  assert (Hc1 : collect_track_points_flagged fs file1 true
                = Some (collect_from_root root1,
                        length (filter (fun r => r.2 = true)
                                  (collect_one_flagged true
                                     <$> findall_descendants root1 (gpx "trkpt"))))).
  { unfold collect_track_points_flagged. rewrite H1. cbn [mbind option_bind].
    by rewrite flagged_points_true. }
  assert (Hc2 : collect_track_points_flagged fs file2 false = Some (all2, 0%nat)).
  { unfold collect_track_points_flagged. rewrite H2. cbn [mbind option_bind].
    destruct (flagged_points_false (findall_descendants root2 (gpx "trkpt")))
      as [-> ->]. done. }
  assert (Hw : sr_written (remove_2000_entries fs file1 file2)
               = consolidate (collect_from_root root1) [all2]).
  { unfold remove_2000_entries. rewrite Hc1, Hc2. cbn [mbind option_bind].
    rewrite consolidate_one. by destruct (sort_by_timestamp _). }
  split_and!; [|exact Hc2|exact Hw|].
  - eexists. split; [exact Hc1|]. apply flagged_count.
  - intros unique p Hu Hp Hy. rewrite Hw in Hu.
    apply consolidate_Some in Hu as [-> _]. rewrite place_all_perm in Hp.
    apply remove_duplicates_elem_of in Hp. cbn [concat] in Hp.
    rewrite app_nil_r in Hp. apply elem_of_app in Hp as [Hp|Hp]; [|done].
    apply list_elem_of_omap in Hp as (a & _ & Ha). by apply collect_one_year in Ha.
Qed.

Lemma remove_2000_entries_result_witness :
  sr_written (remove_2000_entries sample_fs (lit "sentinel.gpx") (lit "other.gpx"))
  = consolidate (collect_from_root sentinel_root)
      [omap collect_one_keep_2000 (findall_descendants other_root (gpx "trkpt"))].
Proof.
  refine (proj1 (proj2 (proj2 (remove_2000_entries_result sample_fs (lit "sentinel.gpx")
                                 (lit "other.gpx") sentinel_root other_root _ _))));
    vm_compute; reflexivity.
Defined.

(** ** What the two filename patterns accept *)

Lemma starts_with_app pre s : starts_with pre (pre ++ s) = true.
Proof. induction pre as [|c pre IH]; [by destruct s|]. simpl. by rewrite N.eqb_refl. Qed.

Lemma strip_gpx_tail_app body :
  strip_gpx_tail (body ++ lit ".gpx") = Some body
  ∧ strip_gpx_tail (body ++ lit ".gpx" ++ [chr_newline]) = Some body.
Proof.
  unfold strip_gpx_tail. split.
  - rewrite reverse_app, starts_with_app.
    change (drop 4 (reverse (lit ".gpx") ++ reverse body)) with (reverse body).
    by rewrite reverse_involutive.
  - rewrite reverse_app.
    change (reverse (lit ".gpx" ++ [chr_newline]))
      with (chr_newline :: reverse (lit ".gpx")).
    change (starts_with (reverse (lit ".gpx"))
              ((chr_newline :: reverse (lit ".gpx")) ++ reverse body)) with false.
    cbv iota. rewrite starts_with_app.
    change (drop 5 ((chr_newline :: reverse (lit ".gpx")) ++ reverse body))
      with (reverse body).
    by rewrite reverse_involutive.
Qed.

Lemma strip_gpx_tail_inj body body' :
  body ++ lit ".gpx" = body' ++ lit ".gpx"
  ∨ body ++ lit ".gpx" ++ [chr_newline] = body' ++ lit ".gpx" ++ [chr_newline] →
  body = body'.
Proof. intros [H|H]; by apply app_inv_tail in H. Qed.

Lemma strip_gpx_tail_iff f body :
  strip_gpx_tail f = Some body
  ↔ f = body ++ lit ".gpx" ∨ f = body ++ lit ".gpx" ++ [chr_newline].
Proof.
  split; [apply strip_gpx_tail_Some|].
  intros [-> | ->]; apply strip_gpx_tail_app.
Qed.

Lemma is_date_length d : is_date d = true → length d = 10%nat.
Proof.
  unfold is_date. do 10 (destruct d as [|? d]; [done|]). by destruct d.
Qed.

Lemma daily_rest_complete d u :
  is_date d = true → nonempty u = true → no_newline u = true →
  daily_rest (lit "_daily_" ++ d ++ [chr_underscore] ++ u) = Some (d, u).
Proof.
  intros Hd Hu Hn. pose proof (is_date_length d Hd) as Hlen.
  do 10 (destruct d as [|? d]; [done|]). destruct d; [|done].
  unfold daily_rest.
  change (lit "_daily_" ++ ?x) with (95 :: 100 :: 97 :: 105 :: 108 :: 121 :: 95 :: x)%N.
  cbn [app drop take starts_with N.eqb Pos.eqb andb].
  rewrite N.eqb_refl. cbn [andb]. rewrite !drop_0.
  change (starts_with (lit "_daily_") ?x) with true. by rewrite Hd, Hu, Hn.
Qed.

Lemma daily_candidates_complete pre a d u :
  nonempty (pre ++ a) = true → no_newline (pre ++ a) = true →
  is_date d = true → nonempty u = true → no_newline u = true →
  (pre ++ a, d, u)
    ∈ daily_candidates pre (a ++ lit "_daily_" ++ d ++ [chr_underscore] ++ u).
Proof.
  intros Hs Hn Hd Hu Hnu. revert pre Hs Hn. induction a as [|c a IH]; intros pre Hs Hn.
  - rewrite app_nil_r in *. rewrite app_nil_l.
    change (lit "_daily_" ++ d ++ [chr_underscore] ++ u)
      with (95%N :: (lit "daily_" ++ d ++ [chr_underscore] ++ u)).
    cbn [daily_candidates].
    change (95%N :: (lit "daily_" ++ d ++ [chr_underscore] ++ u))
      with (lit "_daily_" ++ d ++ [chr_underscore] ++ u).
    rewrite daily_rest_complete, Hs, Hn by done. cbn [andb]. apply elem_of_app.
    left. by left.
  - cbn [app daily_candidates]. apply elem_of_app. right.
    replace (pre ++ c :: a) with ((pre ++ [c]) ++ a) by by rewrite <- app_assoc.
    apply IH; by rewrite <- app_assoc.
Qed.

Lemma daily_candidates_longer pre rest x :
  x ∈ daily_candidates pre rest → (length pre ≤ length x.1.1)%nat.
Proof.
  revert pre. induction rest as [|c r IH]; intros pre.
  - cbn [daily_candidates]. rewrite app_nil_r.
    destruct (daily_rest []) as [[d u]|]; [|by intros ?%elem_of_nil].
    destruct (nonempty pre && no_newline pre); [|by intros ?%elem_of_nil].
    intros ->%list_elem_of_singleton. done.
  - cbn [daily_candidates]. intros [Hx|Hx]%elem_of_app.
    + destruct (daily_rest (c :: r)) as [[d u]|]; [|by apply elem_of_nil in Hx].
      destruct (nonempty pre && no_newline pre); [|by apply elem_of_nil in Hx].
      apply list_elem_of_singleton in Hx as ->. done.
    + apply IH in Hx. rewrite length_app in Hx. simpl in Hx. lia.
Qed.

Lemma daily_candidates_last pre rest x y :
  last (daily_candidates pre rest) = Some x →
  y ∈ daily_candidates pre rest → (length y.1.1 ≤ length x.1.1)%nat.
Proof.
  revert pre. induction rest as [|c r IH]; intros pre.
  - cbn [daily_candidates]. rewrite app_nil_r.
    destruct (daily_rest []) as [[d u]|]; [|by intros _ ?%elem_of_nil].
    destruct (nonempty pre && no_newline pre); [|by intros _ ?%elem_of_nil].
    intros [= <-] ->%list_elem_of_singleton. done.
  - cbn [daily_candidates].
    destruct (daily_candidates (pre ++ [c]) r) as [|z zs] eqn:Hz.
    + rewrite app_nil_r. intros Hl Hy.
      destruct (daily_rest (c :: r)) as [[d u]|]; [|by apply elem_of_nil in Hy].
      destruct (nonempty pre && no_newline pre); [|by apply elem_of_nil in Hy].
      apply list_elem_of_singleton in Hy as ->. by injection Hl as <-.
    + rewrite last_app_cons. rewrite <- Hz. intros Hl [Hy|Hy]%elem_of_app.
      * assert (Hx : x ∈ daily_candidates (pre ++ [c]) r) by by apply last_elem_of.
        apply daily_candidates_longer in Hx. rewrite length_app in Hx. simpl in Hx.
        destruct (daily_rest (c :: r)) as [[d u]|]; [|by apply elem_of_nil in Hy].
        destruct (nonempty pre && no_newline pre); [|by apply elem_of_nil in Hy].
        apply list_elem_of_singleton in Hy as ->. simpl. lia.
      * by eapply IH.
Qed.

Lemma daily_candidates_no_newline pre rest s d u :
  (s, d, u) ∈ daily_candidates pre rest → no_newline s = true ∧ no_newline u = true.
Proof.
  revert pre. induction rest as [|c r IH]; intros pre; cbn [daily_candidates].
  - rewrite app_nil_r. unfold daily_rest. by intros ?%elem_of_nil.
  - intros [Hx|Hx]%elem_of_app; [|by eapply IH].
    destruct (daily_rest (c :: r)) as [[d' u']|] eqn:Hr; [|by apply elem_of_nil in Hx].
    destruct (nonempty pre) eqn:Hp; [|by apply elem_of_nil in Hx].
    destruct (no_newline pre) eqn:Hn; [|by apply elem_of_nil in Hx].
    apply list_elem_of_singleton in Hx. injection Hx as -> -> ->.
    split; [done|]. unfold daily_rest in Hr.
    destruct (starts_with _ _ && _ && _ && _ && no_newline _) eqn:Hall; [|done].
    injection Hr as <- <-. by apply andb_prop in Hall as [_ ?].
Qed.

Lemma daily_shape_body f s d u :
  daily_shape f s d u →
  strip_gpx_tail f = Some (s ++ lit "_daily_" ++ d ++ [chr_underscore] ++ u).
Proof.
  intros (Hf & _). apply strip_gpx_tail_iff.
  destruct Hf as [->| ->]; [left|right]; by rewrite <- !app_assoc.
Qed.

Lemma DAILY_PATTERN_match_shape f s d u :
  DAILY_PATTERN_match f = Some (s, d, u) →
  daily_shape f s d u
  ∧ ∀ s' d' u', daily_shape f s' d' u' → (length s' ≤ length s)%nat.
Proof.
  intros Hm. pose proof (DAILY_PATTERN_match_Some _ _ _ _ Hm) as (Hf & Hs & Hd & Hu).
  unfold DAILY_PATTERN_match in Hm.
  destruct (strip_gpx_tail f) as [body|] eqn:Hb; [|done]. cbn [mbind option_bind] in Hm.
  pose proof (last_elem_of _ _ Hm) as Hin.
  destruct (daily_candidates_no_newline _ _ _ _ _ Hin) as [Hns Hnu].
  split; [by split_and!|].
  intros s' d' u' (Hf' & Hs' & Hns' & Hd' & Hu' & Hnu').
  assert (Hbody : body = s' ++ lit "_daily_" ++ d' ++ [chr_underscore] ++ u').
  { pose proof (daily_shape_body f s' d' u') as Hb'.
    rewrite Hb in Hb'. unfold daily_shape in Hb'. by injection Hb'. }
  pose proof (daily_candidates_complete [] s' d' u') as Hc.
  rewrite app_nil_l, <- Hbody in Hc. specialize (Hc Hs' Hns' Hd' Hu' Hnu').
  apply (daily_candidates_last _ _ _ _ Hm Hc).
Qed.

Lemma DAILY_PATTERN_match_None f s d u :
  DAILY_PATTERN_match f = None → ¬ daily_shape f s d u.
Proof.
  intros Hm (Hf & Hs & Hns & Hd & Hu & Hnu). unfold DAILY_PATTERN_match in Hm.
  assert (Hb : strip_gpx_tail f
               = Some (s ++ lit "_daily_" ++ d ++ [chr_underscore] ++ u)).
  { apply daily_shape_body. unfold daily_shape. done. }
  rewrite Hb in Hm. cbn [mbind option_bind] in Hm.
  pose proof (daily_candidates_complete [] s d u) as Hc.
  rewrite app_nil_l in Hc. specialize (Hc Hs Hns Hd Hu Hnu).
  apply last_None in Hm. rewrite Hm in Hc. by apply elem_of_nil in Hc.
Qed.

(** X26. DAILY_PATTERN matches a name exactly when the name is
    session_daily_date_user.gpx (with at most one newline after it) for a
    non-empty session and user without newline and a date of the form
    dddd-dd-dd, where d is a decimal digit of any script (the [\d] of a
    pattern on [str]: Unicode category Nd); of all such readings of the name
    the match returns one with the longest session. *)
Theorem DAILY_PATTERN_match_greedy (f : str) :
  (∀ s d u, DAILY_PATTERN_match f = Some (s, d, u) →
     daily_shape f s d u
     ∧ ∀ s' d' u', daily_shape f s' d' u' → (length s' ≤ length s)%nat)
  ∧ (DAILY_PATTERN_match f = None ↔ ∀ s d u, ¬ daily_shape f s d u).
Proof.
  split; [apply DAILY_PATTERN_match_shape|]. split.
  - intros Hm s d u. by apply DAILY_PATTERN_match_None.
  - intros Hno. destruct (DAILY_PATTERN_match f) as [[[s d] u]|] eqn:Hm; [|done].
    destruct (DAILY_PATTERN_match_shape _ _ _ _ Hm) as [Hsh _]. by apply Hno in Hsh.
Qed.

Lemma DAILY_PATTERN_match_greedy_witness :
  daily_shape (lit "a_daily_2024-01-01_b_daily_2024-01-02_c.gpx")
    (lit "a_daily_2024-01-01_b") (lit "2024-01-02") (lit "c")
  ∧ (length (lit "a") ≤ length (lit "a_daily_2024-01-01_b"))%nat.
Proof.
  destruct (proj1 (DAILY_PATTERN_match_greedy
                     (lit "a_daily_2024-01-01_b_daily_2024-01-02_c.gpx"))
              (lit "a_daily_2024-01-01_b") (lit "2024-01-02") (lit "c"))
    as [Hsh Hmax]; [vm_compute; reflexivity|].
  split; [exact Hsh|].
  apply (Hmax (lit "a") (lit "2024-01-01") (lit "b_daily_2024-01-02_c")).
  unfold daily_shape. split_and!; [left|..]; vm_compute; reflexivity.
Defined.

Lemma full_candidates_complete pre a u :
  nonempty (pre ++ a) = true → no_newline (pre ++ a) = true →
  nonempty u = true → contains_char chr_underscore u = false →
  (pre ++ a, u) ∈ full_candidates pre (a ++ [chr_underscore] ++ u).
Proof.
  intros Hs Hn Hu Hnu. revert pre Hs Hn. induction a as [|c a IH]; intros pre Hs Hn.
  - rewrite app_nil_r in *. cbn [app full_candidates starts_with drop].
    rewrite !drop_0.
    rewrite N.eqb_refl, Hu, Hnu, Hs, Hn. cbn [andb negb]. apply elem_of_app.
    left. by left.
  - cbn [app full_candidates]. apply elem_of_app. right.
    replace (pre ++ c :: a) with ((pre ++ [c]) ++ a) by by rewrite <- app_assoc.
    apply IH; by rewrite <- app_assoc.
Qed.

Lemma full_candidates_no_newline pre rest s u :
  (s, u) ∈ full_candidates pre rest → no_newline s = true.
Proof.
  revert pre. induction rest as [|c r IH]; intros pre; cbn [full_candidates].
  - rewrite app_nil_r. cbn [starts_with andb]. by intros ?%elem_of_nil.
  - intros [Hx|Hx]%elem_of_app; [|by eapply IH].
    destruct (starts_with _ _ && _ && _ && _ && no_newline pre) eqn:Hall;
      [|by apply elem_of_nil in Hx].
    apply list_elem_of_singleton in Hx. injection Hx as -> ->.
    by apply andb_prop in Hall as [_ ?].
Qed.

Lemma full_shape_body f s u :
  full_shape f s u → strip_gpx_tail f = Some (s ++ [chr_underscore] ++ u).
Proof.
  intros (Hf & _). apply strip_gpx_tail_iff.
  destruct Hf as [->| ->]; [left|right]; by rewrite <- !app_assoc.
Qed.

Lemma FULL_PATTERN_match_shape f s u :
  FULL_PATTERN_match f = Some (s, u) ↔ full_shape f s u.
Proof.
  split.
  - intros Hm. pose proof (FULL_PATTERN_match_Some _ _ _ Hm) as (Hf & Hs & Hu & Hnu).
    unfold FULL_PATTERN_match in Hm.
    destruct (strip_gpx_tail f) as [body|]; [|done]. cbn [mbind option_bind] in Hm.
    apply last_elem_of, full_candidates_no_newline in Hm. by split_and!.
  - intros Hsh. pose proof (full_shape_body _ _ _ Hsh) as Hb.
    destruct Hsh as (_ & Hs & Hn & Hu & Hnu). unfold FULL_PATTERN_match. rewrite Hb.
    cbn [mbind option_bind].
    pose proof (full_candidates_complete [] s u) as Hc. rewrite app_nil_l in Hc.
    specialize (Hc Hs Hn Hu Hnu).
    destruct (last (full_candidates [] (s ++ [chr_underscore] ++ u)))
      as [[s' u']|] eqn:Hl.
    + apply last_elem_of, full_candidates_sound in Hl as (Heq & _ & _ & Hnu').
      rewrite app_nil_l in Heq.
      apply (last_underscore_unique s u s' u') in Heq as [-> ->]; done.
    + apply last_None in Hl. rewrite Hl in Hc. by apply elem_of_nil in Hc.
Qed.

(** X27. FULL_PATTERN matches a name exactly when the name is
    session_user.gpx (with at most one newline after it) for a non-empty
    session without newline and a non-empty user without underscore, and the
    match returns that session and user: the user is what follows the last
    underscore. A name has at most one such reading. *)
Theorem FULL_PATTERN_match_iff (f s u : str) :
  (FULL_PATTERN_match f = Some (s, u) ↔ full_shape f s u)
  ∧ ∀ s' u', full_shape f s u → full_shape f s' u' → s' = s ∧ u' = u.
Proof.
  split; [apply FULL_PATTERN_match_shape|].
  intros s' u' H1%FULL_PATTERN_match_shape H2%FULL_PATTERN_match_shape.
  rewrite H1 in H2. by injection H2 as <- <-.
Qed.

Lemma FULL_PATTERN_match_iff_witness :
  FULL_PATTERN_match (lit "my_trip_anna.gpx") = Some (lit "my_trip", lit "anna").
Proof.
  apply (proj1 (FULL_PATTERN_match_iff (lit "my_trip_anna.gpx") (lit "my_trip")
                  (lit "anna"))).
  unfold full_shape. split_and!; [left|..]; vm_compute; reflexivity.
Defined.
